(** * Double pendulum client runtime (static/js/app.js)

    A shallow embedding of the client-side runtime: the observable
    store [StateManager], the connection monitor driven by [pollState],
    the debounced command dispatcher, the trail buffers of [animate] and
    the energy read-out of the display binder.

    JavaScript objects live in a heap of property maps, so that the
    sharing created by the spread copies of [setState]/[updateState] and
    by closures over [state.updateTimeouts] is visible in the model.
    Code that can call back into itself (a listener that calls
    [setState]) is run with fuel.

    Bounds of the model: numbers are exact rationals with the two
    infinities and NaN, without signed zeros; values are [undefined],
    [null], booleans, numbers and object references (no strings);
    objects have own properties only, arrays are objects with index
    properties; the asynchronous part of a request is the event that
    delivers its outcome; canvas drawing is left out. *)

From Stdlib Require Import QArith Qabs ZArith List String Ascii Lia.
From stdpp Require Import base option gmap strings list fin_maps pretty.

Open Scope string_scope.

(** ** JavaScript values *)

(** Numbers with exact (rational) arithmetic, extended with the two
    infinities and NaN that division by zero produces.  Signed zeros
    are not distinguished. *)
Inductive jsnum :=
  | Fin (q : Q)
  | PInf
  | NInf
  | NaN.

Definition addr := nat.

Inductive value :=
  | VUndef
  | VNull
  | VBool (b : bool)
  | VNum (n : jsnum)
  | VRef (a : addr).

(** An object is its map of own properties; prototype chains are not
    modelled, so a missing own property reads as [undefined]. *)
Abbreviation obj := (gmap string value).
Abbreviation heapT := (gmap addr obj).

Definition is_zero (q : Q) : bool := Qeq_bool q 0.

(** ToBoolean. *)
Definition truthy (v : value) : bool :=
  match v with
  | VUndef | VNull => false
  | VBool b => b
  | VNum (Fin q) => negb (is_zero q)
  | VNum NaN => false
  | VNum _ => true
  | VRef _ => true
  end.

Definition objAt (h : heapT) (a : addr) : obj := default ∅ (h !! a).

(** [o[k]] for an object reference [a]. *)
Definition getField (h : heapT) (a : addr) (k : string) : value :=
  default VUndef (objAt h a !! k).

(** [o[k] = v] for an object reference [a]. *)
Definition setField (h : heapT) (a : addr) (k : string) (v : value) : heapT :=
  <[a := <[k := v]> (objAt h a)]> h.

(** [path.split(".")]: never empty. *)
Fixpoint split_dot (s : string) : list string :=
  match s with
  | EmptyString => [EmptyString]
  | String c r =>
      if Ascii.eqb c "." then EmptyString :: split_dot r
      else match split_dot r with
           | hd :: tl => String c hd :: tl
           | [] => [String c EmptyString]
           end
  end.

(** ** Number arithmetic *)

Definition num_neg (a : jsnum) : jsnum :=
  match a with
  | Fin x => Fin (- x)
  | PInf => NInf
  | NInf => PInf
  | NaN => NaN
  end.

Definition num_add (a b : jsnum) : jsnum :=
  match a, b with
  | NaN, _ | _, NaN => NaN
  | Fin x, Fin y => Fin (x + y)
  | PInf, NInf | NInf, PInf => NaN
  | PInf, _ | _, PInf => PInf
  | NInf, _ | _, NInf => NInf
  end.

Definition num_sub (a b : jsnum) : jsnum := num_add a (num_neg b).

Definition inf_signed (c : comparison) : jsnum :=
  match c with
  | Gt => PInf
  | Lt => NInf
  | Eq => NaN
  end.

Definition num_mul (a b : jsnum) : jsnum :=
  match a, b with
  | NaN, _ | _, NaN => NaN
  | Fin x, Fin y => Fin (x * y)
  | Fin x, PInf | PInf, Fin x => inf_signed (x ?= 0)%Q
  | Fin x, NInf | NInf, Fin x => inf_signed (0 ?= x)%Q
  | PInf, PInf | NInf, NInf => PInf
  | PInf, NInf | NInf, PInf => NInf
  end.

(** A zero divisor is taken as [+0]. *)
Definition num_div (a b : jsnum) : jsnum :=
  match a, b with
  | NaN, _ | _, NaN => NaN
  | Fin x, Fin y => if is_zero y then inf_signed (x ?= 0)%Q else Fin (x / y)
  | Fin _, _ => Fin 0
  | PInf, Fin y => if Qle_bool 0 y then PInf else NInf
  | NInf, Fin y => if Qle_bool 0 y then NInf else PInf
  | _, _ => NaN
  end.

(** [Math.abs]. *)
Definition num_abs (a : jsnum) : jsnum :=
  match a with
  | Fin x => Fin (Qabs x)
  | PInf | NInf => PInf
  | NaN => NaN
  end.

(** [a < b]; false as soon as a NaN is involved. *)
Definition num_ltb (a b : jsnum) : bool :=
  match a, b with
  | NaN, _ | _, NaN => false
  | Fin x, Fin y => negb (Qle_bool y x)
  | NInf, NInf | PInf, _ | _, NInf => false
  | _, _ => true
  end.

(** [a >= b]. *)
Definition num_geb (a b : jsnum) : bool :=
  match a, b with
  | NaN, _ | _, NaN => false
  | Fin x, Fin y => Qle_bool y x
  | PInf, _ | _, NInf => true
  | _, _ => false
  end.

(** [a === b] on numbers. *)
Definition num_eqb (a b : jsnum) : bool :=
  match a, b with
  | Fin x, Fin y => Qeq_bool x y
  | PInf, PInf | NInf, NInf => true
  | _, _ => false
  end.

(** ToNumber; a plain object converts to NaN.  The script applies [+]
    and [-] to store fields that hold numbers; there are no strings
    among the values, so [+] is always the numeric addition. *)
Definition toNumber (v : value) : jsnum :=
  match v with
  | VUndef => NaN
  | VNull => Fin 0
  | VBool b => Fin (if b then 1 else 0)
  | VNum n => n
  | VRef _ => NaN
  end.

Definition ofNat (n : nat) : jsnum := Fin (inject_Z (Z.of_nat n)).

(** [v.k]: a TypeError ([None]) on [undefined] and [null], [undefined]
    on the other primitives. *)
Definition getProp (h : heapT) (v : value) (k : string) : option value :=
  match v with
  | VUndef | VNull => None
  | VRef a => Some (getField h a k)
  | _ => Some VUndef
  end.

(** [v?.k]. *)
Definition getPropOpt (h : heapT) (v : value) (k : string) : value :=
  default VUndef (getProp h v k).

Definition nullish (v : value) : bool :=
  match v with
  | VUndef | VNull => true
  | _ => false
  end.

(** Outcome of running a piece of code: normal return, an exception
    (the world keeps the effects made before the throw), or the model's
    fuel ran out. *)
Inductive outcome (A : Type) :=
  | Ret (a : A)
  | Throw (a : A)
  | NoFuel.
Arguments Ret {A} a.
Arguments Throw {A} a.
Arguments NoFuel {A}.

(** ** The observable store: [class StateManager] *)

Module Store.

Section StateManager.

(** [L] names the listener functions, [E] is whatever else the page
    holds (DOM, timers, ...). *)
Context {L E : Type} `{EqDecision L}.

(** Ghost trace of what [notifyListeners] did. *)
Inductive event :=
  | Called (l : L) (prev next : addr) (source : string)
  | ConsoleError (l : L).

Record world := World {
  heap : heapT;
  next : addr;                    (* allocation pointer *)
  cur : addr;                     (* this.state *)
  listeners : list (option L);    (* this.listeners: Set entries in
                                     insertion order, [None] = deleted *)
  trace : list event;
  env : E;
}.

Definition with_heap (h : heapT) (n : addr) (w : world) : world :=
  World h n (cur w) (listeners w) (trace w) (env w).
Definition with_cur (a : addr) (w : world) : world :=
  World (heap w) (next w) a (listeners w) (trace w) (env w).
Definition with_listeners (ls : list (option L)) (w : world) : world :=
  World (heap w) (next w) (cur w) ls (trace w) (env w).
Definition log (e : event) (w : world) : world :=
  World (heap w) (next w) (cur w) (listeners w) (trace w ++ [e]) (env w).
Definition with_env (e : E) (w : world) : world :=
  World (heap w) (next w) (cur w) (listeners w) (trace w) e.

(** [new StateManager(initialState)], in the heap [h] (allocation
    pointer [n]) that holds the object [initialState]. *)
Definition constructor (h : heapT) (n : addr) (initialState : addr) (e : E)
    : world :=
  World h n initialState [] [] e.

(** [getState()]: the reference held in [this.state]. *)
Definition getState (w : world) : addr := cur w.

(** The object [this.state] points to. *)
Definition stateObj (w : world) : obj := objAt (heap w) (cur w).

(** A top-level field of the snapshot [getState()] returns. *)
Definition field (w : world) (k : string) : value :=
  getField (heap w) (cur w) k.

(** How a listener function runs: it receives [(prevState, newState,
    source)] and may do anything to the world, including calling back
    into the store. *)
Variable call : L → addr → addr → string → world → outcome world.

(** [this.listeners.forEach(...)] with the [try]/[catch] of
    [notifyListeners].  [Set.prototype.forEach] walks the entry list by
    index and re-reads its length at every step. *)
Fixpoint notifyFrom (fuel : nat) (i : nat) (prev nxt : addr)
    (source : string) (w : world) : outcome world :=
  match fuel with
  | O => NoFuel
  | S fuel' =>
      match listeners w !! i with
      | None => Ret w
      | Some None => notifyFrom fuel' (S i) prev nxt source w
      | Some (Some l) =>
          match call l prev nxt source (log (Called l prev nxt source) w) with
          | Ret w' => notifyFrom fuel' (S i) prev nxt source w'
          | Throw w' =>
              notifyFrom fuel' (S i) prev nxt source (log (ConsoleError l) w')
          | NoFuel => NoFuel
          end
      end
  end.

Definition notifyListeners (fuel : nat) (prev nxt : addr) (source : string)
    (w : world) : outcome world :=
  notifyFrom fuel 0 prev nxt source w.

(** [this.state = { ...this.state, ...newState }]: a fresh object, the
    properties of [newState] winning. *)
Definition assignState (newState : obj) (w : world) : world :=
  with_cur (next w)
    (with_heap (<[next w := newState ∪ stateObj w]> (heap w)) (S (next w)) w).

(** [setState(newState, source)]. *)
Definition setState (fuel : nat) (newState : obj) (source : string)
    (w : world) : outcome world :=
  let prevState := cur w in
  let w1 := assignState newState w in
  notifyListeners fuel prevState (cur w1) source w1.

(** The loop and the final assignment of [updateState], started at
    object [c] with the keys still to walk.  The class body is strict
    code: once [current] is a (truthy) primitive the next property write
    raises a TypeError, before anything has been changed. *)
Fixpoint assignPath (ks : list string) (v : value) (c : addr)
    (h : heapT) (n : addr) : option (heapT * addr) :=
  match ks with
  | [] => Some (setField h c "undefined" v, n)
  | [k] => Some (setField h c k v, n)
  | k :: ks' =>
      let x := getField h c k in
      if truthy x then
        match x with
        | VRef a => assignPath ks' v a h n
        | _ => None
        end
      else
        assignPath ks' v n (<[n := ∅]> (setField h c k (VRef n))) (S n)
  end.

(** [updateState] up to, but not including, its call of [setState]:
    the spread copy [newState] and the walk.  Returns the address of
    [newState]. *)
Definition updateState_walk (path : string) (v : value) (w : world)
    : option (world * addr) :=
  let newState := next w in
  let h0 := <[newState := stateObj w]> (heap w) in
  match assignPath (split_dot path) v newState h0 (S newState) with
  | Some (h, n) => Some (with_heap h n w, newState)
  | None => None
  end.

(** [updateState(path, value)]. *)
Definition updateState (fuel : nat) (path : string) (v : value)
    (w : world) : outcome world :=
  match updateState_walk path v w with
  | Some (w1, newState) =>
      setState fuel (objAt (heap w1) newState) ("update:" ++ path) w1
  | None => Throw w
  end.

(** [subscribe(listener)]: [Set.prototype.add]. *)
Definition subscribe (l : L) (w : world) : world :=
  if decide (Some l ∈ listeners w) then w
  else with_listeners (listeners w ++ [Some l]) w.

(** The function [subscribe] returns: [this.listeners.delete(listener)]. *)
Definition unsubscribe (l : L) (w : world) : world :=
  with_listeners
    (map (λ e, if decide (e = Some l) then None else e) (listeners w)) w.

End StateManager.

End Store.

(** ** Response bodies *)

(** A parsed JSON body (string members are never read by the script
    and are left out). *)
#[warnings="-register-all"]
Inductive json :=
  | JNull
  | JBool (b : bool)
  | JNum (q : Q)
  | JArr (items : list json)
  | JObj (members : list (string * json)).

(** The elements of an array, parsed left to right into the index
    properties of [o]. *)
Definition allocItems (alloc : json → heapT → addr → value * heapT * addr)
    : nat → obj → list json → heapT → addr → obj * heapT * addr :=
  fix go i o js h n :=
    match js with
    | [] => (o, h, n)
    | j :: js' =>
        let '(v, h1, n1) := alloc j h n in
        go (S i) (<[pretty i := v]> o) js' h1 n1
    end.

(** The members of an object, parsed left to right; a repeated key
    keeps the last value. *)
Definition allocMembers (alloc : json → heapT → addr → value * heapT * addr)
    : obj → list (string * json) → heapT → addr → obj * heapT * addr :=
  fix go o ms h n :=
    match ms with
    | [] => (o, h, n)
    | (k, j) :: ms' =>
        let '(v, h1, n1) := alloc j h n in
        go (<[k := v]> o) ms' h1 n1
    end.

(** [JSON.parse]: fresh objects for arrays and objects. *)
Fixpoint allocJson (j : json) (h : heapT) (n : addr) : value * heapT * addr :=
  match j with
  | JNull => (VNull, h, n)
  | JBool b => (VBool b, h, n)
  | JNum q => (VNum (Fin q), h, n)
  | JArr items =>
      let '(o, h1, n1) := allocItems allocJson 0 ∅ items h n in
      (VRef n1,
       <[n1 := <["length" := VNum (ofNat (length items))]> o]> h1, S n1)
  | JObj members =>
      let '(o, h1, n1) := allocMembers allocJson ∅ members h n in
      (VRef n1, <[n1 := o]> h1, S n1)
  end.

(** [s.replace("_", "-")]: the first occurrence only. *)
Fixpoint replaceUnderscore (s : string) : string :=
  match s with
  | EmptyString => EmptyString
  | String c r =>
      if Ascii.eqb c "_" then String "-" r
      else String c (replaceUnderscore r)
  end.

(** ** The page: DOM, timers, outbound requests, trail buffers *)

Module App.

Import Store.

(** Text content, kept up to the string it denotes. *)
Inductive text :=
  | TStr (s : string)
  | TFixed (n : jsnum) (digits : nat)       (* n.toFixed(digits) *)
  | TPercent (n : jsnum) (digits : nat)     (* n.toFixed(digits) + "%" *)
  | TOf (v : value).                        (* String(v) *)

(** The properties of an element the script touches.  [inputValue] is
    the JavaScript value last assigned to [.value]; what the browser
    does to the value of a range input (clamping, stepping) is not
    modelled. *)
Record node := Node {
  textContent : text;
  inputValue : value;
  color : string;
  className : string;
}.

Abbreviation domT := (gmap string node).

Inductive endpoint := UpdateParameter | UpdateInitialCondition.

(** A pending [setTimeout] callback of the dispatcher: its handle and
    what its closure captured. *)
Record timer := Timer {
  t_handle : nat;
  t_endpoint : endpoint;
  t_field : string;        (* param / condition *)
  t_value : jsnum;         (* numericValue *)
  t_timeouts : value;      (* timeouts *)
  t_due : nat;             (* creation time + 100 *)
}.

(** An outbound [fetch] of the dispatcher. *)
Record request := Request {
  r_endpoint : endpoint;
  r_field : string;
  r_value : jsnum;
}.

Record page := Page {
  dom : domT;
  timers : list timer;         (* live timers, oldest first *)
  nextHandle : nat;
  requests : list request;     (* issued so far, oldest first *)
  trail1 : list (value * value);
  trail2 : list (value * value);
  clock : nat;                 (* milliseconds *)
}.

(** The functions passed to [stateManager.subscribe]. *)
Inductive listener := DisplayBinder.

#[export] Instance listener_eq_dec : EqDecision listener.
Proof. solve_decision. Defined.

Abbreviation worldT := (@world listener page).

Definition maxRetries : jsnum := ofNat 5.
Definition MAX_TRAIL : nat := 300.

Definition on_page (f : page → page) (w : worldT) : worldT :=
  with_env (f (env w)) w.

Definition set_dom (d : domT) (p : page) : page :=
  Page d (timers p) (nextHandle p) (requests p) (trail1 p) (trail2 p) (clock p).

(** Sequencing of steps that may throw. *)
Definition andThen (m : outcome worldT) (k : worldT → outcome worldT)
    : outcome worldT :=
  match m with
  | Ret w => k w
  | Throw w => Throw w
  | NoFuel => NoFuel
  end.

Notation "m >>> k" := (andThen m k) (at level 61, left associativity).

(** [if (el) el.prop = rhs], where evaluating [rhs] may throw. *)
Definition withElement (id : string) (rhs : option (node → node))
    (w : worldT) : outcome worldT :=
  match dom (env w) !! id with
  | None => Ret w
  | Some el =>
      match rhs with
      | Some f => Ret (on_page (set_dom (<[id := f el]> (dom (env w)))) w)
      | None => Throw w
      end
  end.

Definition setText (t : text) (el : node) : node :=
  Node t (inputValue el) (color el) (className el).
Definition setValue (v : value) (el : node) : node :=
  Node (textContent el) v (color el) (className el).
Definition setColor (c : string) (el : node) : node :=
  Node (textContent el) (inputValue el) c (className el).
Definition setClass (c : string) (el : node) : node :=
  Node (textContent el) (inputValue el) (color el) c.

(** [v.toFixed(d)]: defined on numbers only. *)
Definition toFixed (v : option value) (d : nat) : option (node → node) :=
  match v with
  | Some (VNum n) => Some (setText (TFixed n d))
  | _ => None
  end.

(** [v || 0]. *)
Definition orZero (v : value) : value :=
  if truthy v then v else VNum (Fin 0).

(** [Number(el.value)]. *)
Definition numberOfInput (v : value) : jsnum :=
  match v with
  | VNum n => n
  | VNull => Fin 0
  | _ => NaN
  end.

(** [if (el && Number(el.value) !== x) el.value = x]. *)
Definition syncInput (id : string) (x : option value) (w : worldT)
    : outcome worldT :=
  match dom (env w) !! id with
  | None => Ret w
  | Some el =>
      match x with
      | None => Throw w
      | Some (VNum n) =>
          if num_eqb (numberOfInput (inputValue el)) n then Ret w
          else Ret (on_page (set_dom (<[id := setValue (VNum n) el]> (dom (env w)))) w)
      | Some v =>
          Ret (on_page (set_dom (<[id := setValue v el]> (dom (env w)))) w)
      end
  end.

Section Runtime.

(** How [setState] reaches the subscribed listeners, and the fuel it
    may spend. *)
Variable call : listener → addr → addr → string → worldT → outcome worldT.
Variable fuel : nat.

Definition updateEnergyDisplay (w : worldT) : outcome worldT :=
  let state := getState w in
  let latestEnergy w := getField (heap w) state "latestEnergy" in
  if negb (truthy (latestEnergy w)) then Ret w else
  withElement "kinetic-energy"
    (toFixed (getProp (heap w) (latestEnergy w) "kinetic") 2) w >>> λ w,
  withElement "potential-energy"
    (toFixed (getProp (heap w) (latestEnergy w) "potential") 2) w >>> λ w,
  withElement "total-energy"
    (toFixed (getProp (heap w) (latestEnergy w) "total") 2) w >>> λ w,
  (match getField (heap w) state "initialEnergy" with
   | VNull =>
       setState call fuel
         {[ "initialEnergy" := getPropOpt (heap w) (latestEnergy w) "total" ]}
         "energy_init" w
   | _ => Ret w
   end) >>> λ w,
  let total := toNumber (getPropOpt (heap w) (latestEnergy w) "total") in
  let initialEnergy := toNumber (getField (heap w) state "initialEnergy") in
  let conservationError :=
    num_abs (num_mul (num_div (num_sub total initialEnergy) initialEnergy)
                     (ofNat 100)) in
  withElement "energy-error"
    (Some (λ el,
       setColor
         (if num_ltb conservationError (Fin (1 # 10)) then "#4caf50"
          else if num_ltb conservationError (Fin 1) then "#ff9800"
          else "#f44336")
         (setText (TPercent conservationError 2) el))) w.

(** [simulationState?.k ?? state.conditions.k]. *)
Definition liveOrInitial (w : worldT) (simulationState : value) (k : string)
    : option value :=
  let live := getPropOpt (heap w) simulationState k in
  if nullish live
  then getProp (heap w) (getField (heap w) (getState w) "conditions") k
  else Some live.

Definition showFixed (id : string) (v : option value) (d : nat)
    (w : worldT) : outcome worldT :=
  withElement id (toFixed (orZero <$> v) d) w.

Definition updateAngularDisplay (simulationState : value) (w : worldT)
    : outcome worldT :=
  match liveOrInitial w simulationState "theta_1",
        liveOrInitial w simulationState "theta_2",
        liveOrInitial w simulationState "omega_1",
        liveOrInitial w simulationState "omega_2" with
  | Some theta1, Some theta2, Some omega1, Some omega2 =>
      showFixed "theta-1" (Some theta1) 2 w >>>
      showFixed "theta-2" (Some theta2) 2 >>>
      showFixed "omega-1" (Some omega1) 2 >>>
      showFixed "omega-2" (Some omega2) 2 >>>
      showFixed "theta-1-display" (Some theta1) 1 >>>
      showFixed "theta-2-display" (Some theta2) 1 >>>
      showFixed "omega-1-display" (Some omega1) 1 >>>
      showFixed "omega-2-display" (Some omega2) 1
  | _, _, _, _ => Throw w
  end.

(** [state.parameters.k] and [state.conditions.k]. *)
Definition nested (w : worldT) (group k : string) : option value :=
  getProp (heap w) (getField (heap w) (getState w) group) k.

Definition updateParameterDisplays (w : worldT) : outcome worldT :=
  withElement "length-1" (toFixed (nested w "parameters" "length_rod_1") 0) w
  >>> λ w,
  withElement "length-2" (toFixed (nested w "parameters" "length_rod_2") 0) w
  >>> λ w,
  withElement "mass-1" (toFixed (nested w "parameters" "mass_bob_1") 0) w
  >>> λ w,
  withElement "mass-2" (toFixed (nested w "parameters" "mass_bob_2") 0) w
  >>> λ w,
  withElement "gravity" (toFixed (nested w "parameters" "g") 1) w.

Definition updateSliderInputs (w : worldT) : outcome worldT :=
  syncInput "length-1-input" (nested w "parameters" "length_rod_1") w >>> λ w,
  syncInput "length-2-input" (nested w "parameters" "length_rod_2") w >>> λ w,
  syncInput "mass-1-input" (nested w "parameters" "mass_bob_1") w >>> λ w,
  syncInput "mass-2-input" (nested w "parameters" "mass_bob_2") w >>> λ w,
  syncInput "gravity-input" (nested w "parameters" "g") w >>> λ w,
  syncInput "theta-1-input" (nested w "conditions" "theta_1") w >>> λ w,
  syncInput "theta-2-input" (nested w "conditions" "theta_2") w >>> λ w,
  syncInput "omega-1-input" (nested w "conditions" "omega_1") w >>> λ w,
  syncInput "omega-2-input" (nested w "conditions" "omega_2") w.

Definition updateConnectionStatus (connected : value) (w : worldT)
    : outcome worldT :=
  withElement "connection-status"
    (Some (setClass (if truthy connected then "status-indicator"
                     else "status-indicator error"))) w >>>
  withElement "status-text"
    (Some (setText (TStr (if truthy connected then "Connected"
                          else "Connection Lost")))).

Definition updateAllDisplays (w : worldT) : outcome worldT :=
  let state := getState w in
  (if truthy (getField (heap w) state "latestEnergy")
   then updateEnergyDisplay w else Ret w) >>> λ w,
  (if truthy (getField (heap w) state "simulationState")
   then updateAngularDisplay (getField (heap w) state "simulationState") w
   else Ret w) >>>
  updateParameterDisplays >>>
  updateSliderInputs >>>
  updateConnectionStatus (getField (heap w) state "isConnected").

(** The subscriber registered at start-up. *)
Definition displayBinder (prevState newState : addr) (source : string)
    (w : worldT) : outcome worldT :=
  if decide (source ≠ "local_update") then updateAllDisplays w else Ret w.

(** *** Connection monitor and polling *)

Definition handleConnectionError (w : worldT) : outcome worldT :=
  let state := getState w in
  let newRetries :=
    num_add (toNumber (getField (heap w) state "connectionRetries")) (ofNat 1) in
  setState call fuel {[ "connectionRetries" := VNum newRetries ]}
    "connection_error" w >>> λ w,
  if num_geb newRetries maxRetries
     && truthy (getField (heap w) state "isConnected")
  then setState call fuel {[ "isConnected" := VBool false ]}
         "connection_lost" w
  else Ret w.

(** Allocation of an object literal. *)
Definition alloc (o : obj) (w : worldT) : addr * worldT :=
  (next w, with_heap (<[next w := o]> (heap w)) (S (next w)) w).

(** One completed poll.  [response] is the parsed body when the fetch
    resolved with [response.ok] and [response.json()] resolved; [None]
    covers every other way the request can end. *)
Definition pollState (response : option json) (w : worldT)
    : outcome worldT :=
  match response with
  | None => handleConnectionError w
  | Some body =>
      let '(state, h, n) := allocJson body (heap w) (next w) in
      let w := with_heap h n w in
      let currentState := getState w in
      let rd k := getPropOpt (heap w) state k in
      if nullish state then handleConnectionError w else
      let '(parameters, w) :=
        alloc {[ "length_rod_1" := rd "length_rod_1";
                 "length_rod_2" := rd "length_rod_2";
                 "mass_bob_1" := rd "mass_bob_1";
                 "mass_bob_2" := rd "mass_bob_2";
                 "g" := rd "g" ]} w in
      let '(conditions, w) :=
        alloc {[ "theta_1" := rd "theta_1";
                 "theta_2" := rd "theta_2";
                 "omega_1" := rd "omega_1";
                 "omega_2" := rd "omega_2" ]} w in
      setState call fuel
        {[ "latestCoords" := rd "coords";
           "latestEnergy" := rd "energy";
           "simulationState" := state;
           "parameters" := VRef parameters;
           "conditions" := VRef conditions ]}
        "server_update" w >>> λ w,
      if negb (truthy (getField (heap w) currentState "isConnected"))
      then setState call fuel
             {[ "isConnected" := VBool true;
                "connectionRetries" := VNum (ofNat 0) ]}
             "connection_recovered" w
      else Ret w
  end.

(** *** Command dispatcher *)

(** [clearTimeout(v)]. *)
Definition clearTimeout (v : value) (p : page) : page :=
  Page (dom p)
    (filter (λ t, num_eqb (ofNat (t_handle t)) (toNumber v) = false) (timers p))
    (nextHandle p) (requests p) (trail1 p) (trail2 p) (clock p).

(** [setTimeout(callback, 100)]: the new handle and the page holding
    the timer. *)
Definition setTimeout (e : endpoint) (name : string) (numericValue : jsnum)
    (timeouts : value) (p : page) : nat * page :=
  (nextHandle p,
   Page (dom p)
     (timers p ++
        [Timer (nextHandle p) e name numericValue timeouts (clock p + 100)])
     (S (nextHandle p)) (requests p) (trail1 p) (trail2 p) (clock p)).

Definition fetch (r : request) (p : page) : page :=
  Page (dom p) (timers p) (nextHandle p) (requests p ++ [r])
    (trail1 p) (trail2 p) (clock p).

(** [o[k] = v] outside the class: ignored on a primitive. *)
Definition assignProp (o : value) (k : string) (v : value) (w : worldT)
    : worldT :=
  match o with
  | VRef a => with_heap (setField (heap w) a k v) (next w) w
  | _ => w
  end.

(** The debounce shared by [updateParameter] and
    [updateInitialCondition], from [const timeouts = ...] on. *)
Definition debounce (e : endpoint) (state : addr) (name : string)
    (numericValue : jsnum) (w : worldT) : outcome worldT :=
  let timeouts := getField (heap w) state "updateTimeouts" in
  match getProp (heap w) timeouts name with
  | None => Throw w
  | Some pending =>
      let w := if truthy pending then on_page (clearTimeout pending) w
               else w in
      let '(handle, p) := setTimeout e name numericValue timeouts (env w) in
      Ret (assignProp timeouts name (VNum (ofNat handle)) (with_env p w))
  end.

Definition updateParameter (param : string) (numericValue : jsnum)
    (w : worldT) : outcome worldT :=
  let state := getState w in
  let displayId := replaceUnderscore param in
  withElement displayId
    (Some (setText (TFixed numericValue
                      (if decide (param = "g") then 1 else 0)))) w >>>
  syncInput (displayId ++ "-input") (Some (VNum numericValue)) >>>
  updateState call fuel ("parameters." ++ param) (VNum numericValue) >>>
  debounce UpdateParameter state param numericValue.

Definition updateInitialCondition (condition : string) (numericValue : jsnum)
    (w : worldT) : outcome worldT :=
  let state := getState w in
  withElement (condition ++ "-display")
    (Some (setText (TFixed numericValue 1))) w >>>
  withElement condition (Some (setText (TFixed numericValue 2))) >>>
  syncInput (condition ++ "-input") (Some (VNum numericValue)) >>>
  updateState call fuel ("conditions." ++ condition) (VNum numericValue) >>>
  debounce UpdateInitialCondition state condition numericValue.

(** [{ ...timeouts, [name]: null }]. *)
Definition clearedSlot (h : heapT) (timeouts : value) (name : string) : obj :=
  <[name := VNull]>
    (match timeouts with VRef a => objAt h a | _ => ∅ end).

(** The callback given to [setTimeout], run when timer [t] fires. *)
Definition fireTimer (t : timer) (w : worldT) : outcome worldT :=
  let w :=
    on_page (λ p,
      fetch (Request (t_endpoint t) (t_field t) (t_value t))
        (Page (dom p)
           (filter (λ t', t_handle t' ≠ t_handle t) (timers p))
           (nextHandle p) (requests p) (trail1 p) (trail2 p) (clock p))) w in
  let '(a, w) := alloc (clearedSlot (heap w) (t_timeouts t) (t_field t)) w in
  setState call fuel {[ "updateTimeouts" := VRef a ]} "timeout_cleanup" w.

(** *** Animation frame *)

(** [{ x: coords[i].x, y: coords[i].y }]. *)
Definition sample (h : heapT) (coords : value) (i : nat)
    : option (value * value) :=
  match getProp h coords (pretty i) with
  | Some c =>
      match getProp h c "x", getProp h c "y" with
      | Some x, Some y => Some (x, y)
      | _, _ => None
      end
  | None => None
  end.

(** [if (trail.length > MAX_TRAIL) trail.shift()]. *)
Definition shiftIfOver (trail : list (value * value)) : list (value * value) :=
  if decide (MAX_TRAIL < length trail) then tail trail else trail.

Definition set_trails (t1 t2 : list (value * value)) (p : page) : page :=
  Page (dom p) (timers p) (nextHandle p) (requests p) t1 t2 (clock p).

(** One run of [animate], up to the trail update.  The canvas drawing
    and the trail-length read-out that follow only read the buffers. *)
Definition animate (w : worldT) : outcome worldT :=
  let state := getState w in
  let now := ofNat (clock (env w)) in
  let newFrameCount :=
    num_add (toNumber (getField (heap w) state "frameCount")) (ofNat 1) in
  (if num_geb
        (num_sub now
           (toNumber (orZero (getField (heap w) state "lastFpsUpdate"))))
        (ofNat 1000)
   then
     setState call fuel
       {[ "fps" := VNum newFrameCount;
          "frameCount" := VNum (ofNat 0);
          "lastFpsUpdate" := VNum now ]} "fps_update" w >>>
     withElement "fps" (Some (setText (TOf (VNum newFrameCount))))
   else
     setState call fuel {[ "frameCount" := VNum newFrameCount ]}
       "frame_count" w) >>> λ w,
  let coords := getField (heap w) state "latestCoords" in
  if truthy coords && negb (truthy (getField (heap w) state "isPaused"))
  then
    match sample (heap w) coords 0 with
    | None => Throw w
    | Some p1 =>
        let w := on_page (λ p, set_trails (trail1 p ++ [p1]) (trail2 p) p) w in
        match sample (heap w) coords 1 with
        | None => Throw w
        | Some p2 =>
            Ret (on_page (λ p,
                   set_trails (shiftIfOver (trail1 p))
                              (shiftIfOver (trail2 p ++ [p2])) p) w)
        end
    end
  else Ret w.

(** [resetPendulum()]. *)
Definition resetPendulum (w : worldT) : outcome worldT :=
  let w := on_page (set_trails [] []) w in
  withElement "kinetic-energy" (Some (setText (TStr "0.00"))) w >>>
  withElement "potential-energy" (Some (setText (TStr "0.00"))) >>>
  withElement "total-energy" (Some (setText (TStr "0.00"))) >>>
  withElement "energy-error"
    (Some (λ el, setColor "#6c757d" (setText (TStr "0.00%") el))).

End Runtime.

(** The listeners call back into the store, which calls the listeners:
    the knot is tied on the fuel. *)
Fixpoint runListener (fuel : nat) (l : listener) (prevState newState : addr)
    (source : string) (w : worldT) : outcome worldT :=
  match fuel with
  | O => NoFuel
  | S fuel' =>
      match l with
      | DisplayBinder =>
          displayBinder (runListener fuel') fuel' prevState newState source w
      end
  end.


(** *** The page at start-up *)

Definition num (q : Q) : value := VNum (Fin q).

Definition initialParameters : obj :=
  {[ "length_rod_1" := num 120; "length_rod_2" := num 120;
     "mass_bob_1" := num 10; "mass_bob_2" := num 10;
     "g" := num (981 # 100) ]}.

Definition initialConditions : obj :=
  {[ "theta_1" := num (157 # 100); "theta_2" := num (157 # 100);
     "omega_1" := num 0; "omega_2" := num 0 ]}.

(** The object literal given to [new StateManager(...)]: the snapshot
    at address 0, its three nested objects at 1, 2 and 3. *)
Definition initialState : obj :=
  {[ "isPaused" := VBool false;
     "showTrails" := VBool true;
     "initialEnergy" := VNull;
     "fps" := num 0;
     "frameCount" := num 0;
     "isConnected" := VBool false;
     "connectionRetries" := num 0;
     "updateTimeouts" := VRef 1;
     "latestCoords" := VNull;
     "latestEnergy" := VNull;
     "simulationState" := VNull;
     "parameters" := VRef 2;
     "conditions" := VRef 3 ]}.

Definition initialHeap : heapT :=
  {[ 0%nat := initialState; 1%nat := (∅ : obj);
     2%nat := initialParameters; 3%nat := initialConditions ]}.

(** The script's top level, for a document with elements [d]: the
    store is built and the display binder subscribed. *)
Definition stateManager (d : domT) : worldT :=
  subscribe DisplayBinder
    (constructor initialHeap 4 0 (Page d [] 1 [] [] [] 0)).

(** *** The event loop *)

(** What the event loop can deliver to the script.  An input event
    carries [parseFloat(value)]. *)
Inductive input :=
  | Poll (response : option json)
  | InputParameter (param : string) (numericValue : jsnum)
  | InputCondition (condition : string) (numericValue : jsnum)
  | Frame.

Definition deliver (fuel : nat) (i : input) (w : worldT) : outcome worldT :=
  match i with
  | Poll response => pollState (runListener fuel) fuel response w
  | InputParameter param v => updateParameter (runListener fuel) fuel param v w
  | InputCondition c v => updateInitialCondition (runListener fuel) fuel c v w
  | Frame => animate (runListener fuel) fuel w
  end.

Definition set_clock (t : nat) (p : page) : page :=
  Page (dom p) (timers p) (nextHandle p) (requests p) (trail1 p) (trail2 p) t.

(** Fire, oldest first, the timers that are due at time [now]; [n]
    bounds their number (a callback starts no timer). *)
Fixpoint fireDue (fuel n now : nat) (w : worldT) : outcome worldT :=
  match n with
  | O => Ret w
  | S n' =>
      match timers (env w) with
      | t :: _ =>
          if decide (t_due t ≤ now)%nat
          then fireTimer (runListener fuel) fuel t w >>> fireDue fuel n' now
          else Ret w
      | [] => Ret w
      end
  end.

(** Let the clock reach [t]. *)
Definition advance (fuel t : nat) (w : worldT) : outcome worldT :=
  fireDue fuel (length (timers (env w))) t w >>> λ w,
  Ret (on_page (set_clock t) w).

(** Let the clock reach [t], then deliver [i].  An exception escaping a
    handler is reported by the browser and the loop goes on; [animate]
    re-schedules itself in its last statement only, so a frame that
    throws is the last one and the run is cut there. *)
Definition at_time (fuel t : nat) (i : input) (w : worldT) : outcome worldT :=
  advance fuel t w >>> λ w,
  match deliver fuel i w, i with
  | Throw w', Frame => Throw w'
  | Throw w', _ => Ret w'
  | r, _ => r
  end.

Fixpoint run (fuel : nat) (events : list (nat * input)) (w : worldT)
    : outcome worldT :=
  match events with
  | [] => Ret w
  | (t, i) :: rest => at_time fuel t i w >>> run fuel rest
  end.

(** The view of the connection monitor. *)
Definition isConnected (w : worldT) : value := field w "isConnected".
Definition connectionRetries (w : worldT) : value :=
  field w "connectionRetries".
Definition connection (w : worldT) : value * value :=
  (isConnected w, connectionRetries w).

End App.

(** * Vocabulary for the properties of the store *)

Module StoreSpec.

Import Store.
#[local] Open Scope list_scope.
#[local] Open Scope nat_scope.

(** [readPath h v ks]: the value of [v.k1.k2...kn] read with optional
    chaining. *)
Fixpoint readPath (h : heapT) (v : value) (ks : list string) : value :=
  match ks with
  | [] => v
  | k :: ks' => readPath h (getPropOpt h v k) ks'
  end.

(** Nothing is allocated at or above [n], and every stored reference
    points below [n]. *)
Definition heap_closed (h : heapT) (n : addr) : Prop :=
  (∀ m, n ≤ m → h !! m = None) ∧
  (∀ c k a, getField h c k = VRef a → a < n).

(** No object holds a reference to [a]. *)
Definition unref (h : heapT) (a : addr) : Prop :=
  ∀ c k, getField h c k ≠ VRef a.

Definition value_closed (v : value) (n : addr) : Prop :=
  match v with
  | VRef a => a < n
  | _ => True
  end.

Section WithListeners.

Context {L E : Type} `{EqDecision L}.
Variable call : L → addr → addr → string → @world L E → outcome (@world L E).

(** The listener invocations recorded in a trace. *)
Definition calls (evs : list (@event L)) : list (L * addr * addr * string) :=
  omap (λ e, match e with
             | Called l p n s => Some (l, p, n, s)
             | ConsoleError _ => None
             end) evs.


(** Listeners that return or throw, but neither subscribe, unsubscribe
    nor mutate the store while they are being notified. *)
Definition observers : Prop :=
  ∀ l p n s w, ∃ w',
    (call l p n s w = Ret w' ∨ call l p n s w = Throw w') ∧
    listeners w' = listeners w ∧ trace w' = trace w ∧
    heap w' = heap w ∧ next w' = next w ∧ cur w' = cur w.

Definition subscribeAll (ls : list L) (w : @world L E) : @world L E :=
  foldl (λ w l, subscribe l w) w ls.

(** The store's heap is closed, its snapshot is allocated, and nothing
    refers to the snapshot object itself. *)
Definition store_ok (w : @world L E) : Prop :=
  heap_closed (heap w) (next w) ∧ cur w < next w ∧ unref (heap w) (cur w).

Inductive op :=
  | Merge (newState : obj) (source : string)     (* setState *)
  | SetPath (path : string) (v : value).         (* updateState *)

Definition apply (fuel : nat) (o : op) (w : @world L E) : outcome world :=
  match o with
  | Merge newState source => setState call fuel newState source w
  | SetPath path v => updateState call fuel path v w
  end.





End WithListeners.

End StoreSpec.

(** * Vocabulary for the properties of the page *)

Module AppSpec.

Import Store App.
#[local] Open Scope list_scope.
#[local] Open Scope nat_scope.

Definition trails_of (w : worldT) : list (value * value) * list (value * value) :=
  (trail1 (env w), trail2 (env w)).



(** A step started in a world related to [w0] ends, when it returns or
    throws, in a world related to [w0]. *)
Definition stays (R : worldT → worldT → Prop) (w0 : worldT)
    (r : outcome worldT) : Prop :=
  match r with
  | Ret w' | Throw w' => R w0 w'
  | NoFuel => True
  end.


(** The connection fields read the same, nothing allocated was
    modified, and the snapshot is still an allocated object. *)
Definition same_connection (w w' : worldT) : Prop :=
  next w ≤ next w' ∧
  (∀ a, a < next w → heap w' !! a = heap w !! a) ∧
  (cur w < next w → cur w' < next w') ∧
  isConnected w' = isConnected w ∧
  connectionRetries w' = connectionRetries w.

(** Allocation only adds objects at or above the allocation pointer. *)
Definition extends (r : heapT * addr) (h : heapT) (n : addr) : Prop :=
  n ≤ r.2 ∧ ∀ a, a < n → r.1 !! a = h !! a.

(** The connection monitor as a two-variable machine: connected or not,
    and the counter. *)
Inductive poll := Success | Failure.

Definition monitor (s : bool * nat) (p : poll) : bool * nat :=
  match p with
  | Failure => (fst s && negb (5 <=? S (snd s)), S (snd s))
  | Success => if fst s then s else (true, 0)
  end.

(** How [pollState] takes a completed request: a body that parses to
    [null] makes the handler throw into its own [catch]. *)
Definition classify (response : option json) : poll :=
  match response with
  | None | Some JNull => Failure
  | Some _ => Success
  end.

Definition monitored (s : bool * nat) : value * value :=
  (VBool (fst s), VNum (ofNat (snd s))).

(** Completed polls, handled one after the other. *)
Fixpoint pollAll (fuel : nat) (responses : list (option json)) (w : worldT)
    : outcome worldT :=
  match responses with
  | [] => Ret w
  | r :: rest => pollState (runListener fuel) fuel r w >>> pollAll fuel rest
  end.

End AppSpec.

(** * Sample pages and event sequences *)

Module Examples.

Import Store App.

(** A [/state] response with total energy [total]. *)
Definition stateBody (total : Q) : json :=
  JObj [("coords", JArr [JObj [("x", JNum 310); ("y", JNum 220)];
                         JObj [("x", JNum 330); ("y", JNum 340)]]);
        ("energy", JObj [("kinetic", JNum 1); ("potential", JNum 2);
                         ("total", JNum total)]);
        ("theta_1", JNum (157 # 100)); ("theta_2", JNum (157 # 100));
        ("omega_1", JNum 0); ("omega_2", JNum 0);
        ("length_rod_1", JNum 120); ("length_rod_2", JNum 120);
        ("mass_bob_1", JNum 10); ("mass_bob_2", JNum 10);
        ("g", JNum (981 # 100))].

(** A response that carries no energy read-out yet. *)
Definition bareBody : json := JObj [("theta_1", JNum (157 # 100))].

Definition blank : node := Node (TStr "") VUndef "" "".

(** A document with the energy-error read-out and the status text. *)
Definition smallPage : domT :=
  {[ "energy-error" := blank; "status-text" := blank ]}.

Definition after {A : Type} (f : worldT → A) (o : outcome worldT)
    : option A :=
  match o with
  | Ret w => Some (f w)
  | _ => None
  end.

Definition shownText (id : string) (w : worldT) : option text :=
  textContent <$> dom (env w) !! id.

Definition liveTimers (w : worldT) : list (nat * string * jsnum) :=
  (λ t, (t_handle t, t_field t, t_value t)) <$> timers (env w).

Definition sent (w : worldT) : list (string * jsnum) :=
  (λ r, (r_field r, r_value r)) <$> requests (env w).

(** The slot of field [name] in the current [updateTimeouts] map. *)
Definition pendingSlot (name : string) (w : worldT) : value :=
  getPropOpt (heap w) (field w "updateTimeouts") name.

(** A first successful poll, four failed ones, a successful one and one
    more failed poll. *)
Definition firstPoll : list (nat * input) := [(0, Poll (Some (stateBody 5)))].
Definition fourFailures : list (nat * input) :=
  [(50, Poll None); (100, Poll None); (150, Poll None); (200, Poll None)].
Definition oneSuccess : list (nat * input) :=
  [(250, Poll (Some (stateBody 5)))].
Definition oneFailure : list (nat * input) := [(300, Poll None)].

(** Gravity edited, then a rod length, then gravity twice more, 40 ms
    apart; the first two timers fire at 100 ms and 150 ms. *)
Definition sliderEdits : list (nat * input) :=
  [(0, InputParameter "g" (Fin 1));
   (50, InputParameter "length_rod_1" (Fin 2));
   (120, InputParameter "g" (Fin 3));
   (160, InputParameter "g" (Fin 4))].

(** The error formula with the absolute value on the numerator only. *)
Definition numeratorOnly (total initialEnergy : Q) : Q :=
  Qabs (total - initialEnergy) / initialEnergy * 100.

(** Three listeners, the second of which throws. *)
Definition probe (l : nat) (prev nxt : addr) (source : string)
    (w : @world nat unit) : outcome (@world nat unit) :=
  if decide (l = 1%nat) then Throw w else Ret w.

Definition emptyStore : @world nat unit :=
  constructor {[ 0%nat := (∅ : obj) ]} 1 0 tt.

(** A store over the start-up snapshot, without listeners. *)
Definition plainStore : @world unit unit :=
  constructor initialHeap 4 0 tt.

Definition silent (l : unit) (prev nxt : addr) (source : string)
    (w : @world unit unit) : outcome (@world unit unit) := Ret w.


End Examples.

(** * Vocabulary for the further properties *)

(** ** The store *)

Module StoreEdgeSpec.

Import Store StoreSpec.
#[local] Open Scope list_scope.
#[local] Open Scope nat_scope.

(** [keys.join(".")]. *)
Fixpoint join_dot (ks : list string) : string :=
  match ks with
  | [] => ""
  | [k] => k
  | k :: ks' => k ++ "." ++ join_dot ks'
  end.

(** A segment without a dot. *)
Fixpoint dotless (s : string) : bool :=
  match s with
  | EmptyString => true
  | String c r => negb (Ascii.eqb c ".") && dotless r
  end.



Section WithListeners.

Context {L E : Type} `{EqDecision L}.

(** The listeners of the set, in insertion order. *)
Definition live (w : @world L E) : list L := omap id (listeners w).

End WithListeners.

End StoreEdgeSpec.

(** ** The page *)

Module PageSpec.

Import Store App StoreSpec AppSpec.
#[local] Open Scope list_scope.
#[local] Open Scope nat_scope.

(** The parts of the page other than the document. *)
Definition offDocument (w : worldT)
    : list timer * nat * list request *
      list (value * value) * list (value * value) * nat :=
  (timers (env w), nextHandle (env w), requests (env w),
   trail1 (env w), trail2 (env w), clock (env w)).

(** What a step may change between [w] and [w']: it allocates, it may
    replace the snapshot by a fresh one that differs in the fields [ks]
    only,
    it may mutate the objects [objs] in place, and it writes to elements
    that exist.  Nothing else moves: no other object, no listener, no
    timer, request, trail point or clock tick. *)
Definition changes_only (ks : list string) (objs : list addr)
    (w w' : worldT) : Prop :=
  next w ≤ next w' ∧
  (∀ a, a < next w → a ∉ objs → heap w' !! a = heap w !! a) ∧
  (cur w < next w → cur w' < next w') ∧
  (∀ k, k ∉ ks → field w' k = field w k) ∧
  listeners w' = listeners w ∧
  offDocument w' = offDocument w ∧
  (∀ id, is_Some (dom (env w') !! id) ↔ is_Some (dom (env w) !! id)) ∧
  (cur w' = cur w ∨ next w ≤ cur w').

(** The step wrote to elements of the document only. *)
Definition document_only (w w' : worldT) : Prop :=
  ∃ d, w' = on_page (set_dom d) w ∧
       ∀ id, is_Some (d !! id) ↔ is_Some (dom (env w) !! id).

(** The step left the store alone: it wrote to the document and to the
    console only. *)
Definition projected (w w' : worldT) : Prop :=
  heap w' = heap w ∧ next w' = next w ∧ cur w' = cur w ∧
  listeners w' = listeners w ∧
  offDocument w' = offDocument w ∧
  (∀ id, is_Some (dom (env w') !! id) ↔ is_Some (dom (env w) !! id)).

(** The run came to an end, by a return or an exception, in a world
    related to [w0]. *)
Definition lands (R : worldT → worldT → Prop) (w0 : worldT)
    (r : outcome worldT) : Prop :=
  match r with
  | Ret w' | Throw w' => R w0 w'
  | NoFuel => False
  end.

(** The baseline energy is captured, or there is no reading to capture
    it from: the display binder will not write to the store. *)
Definition settled (w : worldT) : Prop :=
  field w "initialEnergy" ≠ VNull ∨ truthy (field w "latestEnergy") = false.

(** The binder's capture of the baseline comes to rest: the total of
    the reading, which it would store, is not [null]. *)
Definition settles (w : worldT) : Prop :=
  settled w ∨
  match field w "latestEnergy" with
  | VRef a => a < next w ∧ getField (heap w) a "total" ≠ VNull
  | _ => True
  end.

(** What a notification round does: at most the capture of the
    baseline, and a store that settles still does afterwards. *)
Definition capture_step (w w' : worldT) : Prop :=
  changes_only ["initialEnergy"] [] w w' ∧ (settles w → settles w').

(** The fields a poll may write, and the keys it copies into
    [parameters] and [conditions]. *)
Definition pollFields : list string :=
  ["latestCoords"; "latestEnergy"; "simulationState"; "parameters";
   "conditions"; "isConnected"; "connectionRetries"; "initialEnergy"].
Definition parameterKeys : list string :=
  ["length_rod_1"; "length_rod_2"; "mass_bob_1"; "mass_bob_2"; "g"].
Definition conditionKeys : list string :=
  ["theta_1"; "theta_2"; "omega_1"; "omega_2"].

(** [state.k1.k2...] read, with optional chaining, from the body parsed
    by [await response.json()] in the world [w]. *)
Definition parsedPath (body : json) (w : worldT) (ks : list string) : value :=
  let '(state, h, _) := allocJson body (heap w) (next w) in
  readPath h state ks.

(** The member of a JSON object text under key [k]: the last one wins. *)
Fixpoint member (k : string) (ms : list (string * json)) : option json :=
  match ms with
  | [] => None
  | (k', j) :: ms' =>
      match member k ms' with
      | Some j' => Some j'
      | None => if decide (k' = k) then Some j else None
      end
  end.

(** The group [g] of the state ([parameters] or [conditions]) is the
    object [ag] and [updateTimeouts] is the object [tm]; both exist, are
    distinct and are not the snapshot itself. *)
Definition editable (g : string) (ag tm : addr) (w : worldT) : Prop :=
  field w g = VRef ag ∧ ag < next w ∧ ag ≠ cur w ∧
  field w "updateTimeouts" = VRef tm ∧ tm < next w ∧ tm ≠ cur w ∧
  tm ≠ ag ∧ cur w < next w.

(** What one edit of field [name] of group [g] to [v] has done between
    [w] and [w']: the value is in the store; the timer recorded in the
    slot of [name], if any, is cancelled and exactly one new timer is
    live, due in 100 ms, its handle recorded in the slot; nothing has
    been sent; and nothing else has moved. *)
Definition scheduled (e : endpoint) (g name : string) (v : jsnum)
    (ag tm : addr) (w w' : worldT) : Prop :=
  readPath (heap w') (VRef (cur w')) [g; name] = VNum v ∧
  readPath (heap w') (VRef (cur w')) ["updateTimeouts"; name]
  = VNum (ofNat (nextHandle (env w))) ∧
  timers (env w')
  = timers (if truthy (getField (heap w) tm name)
            then clearTimeout (getField (heap w) tm name) (env w)
            else env w)
    ++ [Timer (nextHandle (env w)) e name v (VRef tm) (clock (env w) + 100)] ∧
  nextHandle (env w') = S (nextHandle (env w)) ∧
  requests (env w') = requests (env w) ∧
  (trail1 (env w'), trail2 (env w')) = (trail1 (env w), trail2 (env w)) ∧
  (∀ k, k ≠ "initialEnergy" → field w' k = field w k) ∧
  (∀ b, b < next w → b ≠ ag → b ≠ tm → heap w' !! b = heap w !! b).


(** [now - (state.lastFpsUpdate || 0) >= 1000]. *)
Definition secondElapsed (w : worldT) : bool :=
  num_geb
    (num_sub (ofNat (clock (env w)))
       (toNumber (orZero (field w "lastFpsUpdate"))))
    (ofNat 1000).

(** The value of a JSON text that is not an array or an object. *)
Definition scalar (j : json) : option value :=
  match j with
  | JNull => Some VNull
  | JBool b => Some (VBool b)
  | JNum q => Some (VNum (Fin q))
  | _ => None
  end.

(** Every reference held in [o] points below [n]. *)
Definition obj_closed (o : obj) (n : addr) : Prop :=
  ∀ k a, o !! k = Some (VRef a) → a < n.

End PageSpec.

(** ** Sample pages *)

Module PageExamples.

Import Store App Examples.

(** The page at start-up once the monitor has seen a good poll. *)
Definition connectedPage : worldT :=
  assignState {[ "isConnected" := VBool true ]} (stateManager smallPage).

(** An energy reading, as an object of the heap. *)
Definition readingAt (a : addr) (total : value) (w : worldT) : worldT :=
  with_heap
    (<[a := {[ "kinetic" := num 1; "potential" := num 2; "total" := total ]}]>
       (heap w))
    (S a) w.

(** The start-up page with a reading of total 5 allocated at address 4,
    not yet part of the state. *)
Definition pageWithReading : worldT := readingAt 4 (num 5) (stateManager smallPage).

(** The start-up page holding that reading as [latestEnergy]. *)
Definition pageShowingReading : worldT :=
  assignState {[ "latestEnergy" := VRef 4 ]} pageWithReading.

(** A document with the five parameter read-outs and the status text. *)
Definition readoutPage : domT :=
  {[ "length-1" := blank; "length-2" := blank; "mass-1" := blank;
     "mass-2" := blank; "gravity" := blank; "status-text" := blank ]}.

(** The members of a [/state] body. *)
Definition stateMembers : list (string * json) :=
  [("energy", JObj [("kinetic", JNum 1); ("potential", JNum 2);
                    ("total", JNum 5)]);
   ("theta_1", JNum 1); ("theta_2", JNum 0);
   ("omega_1", JNum 0); ("omega_2", JNum 0);
   ("length_rod_1", JNum 100); ("length_rod_2", JNum 90);
   ("mass_bob_1", JNum 7); ("mass_bob_2", JNum 8);
   ("g", JNum (162 # 100))].

End PageExamples.

(** ** The control buttons *)

Module Controls.

Import Store App.

(** The object literals of [setPreset] and [resetToDefaults], as the
    list of their properties in source order (the order of
    [Object.keys]); every value is a number. *)
Definition chaotic : list (string * jsnum) :=
  [("theta_1", Fin (157 # 100)); ("theta_2", Fin (157 # 100));
   ("omega_1", Fin 0); ("omega_2", Fin 0);
   ("length_rod_1", Fin 120); ("length_rod_2", Fin 120);
   ("mass_bob_1", Fin 10); ("mass_bob_2", Fin 10);
   ("g", Fin (981 # 100))].




Definition defaults : list (string * jsnum) := chaotic.


Definition isCondition (key : string) : bool :=
  bool_decide (key ∈ ["theta_1"; "theta_2"; "omega_1"; "omega_2"]).

(** [key.includes("_")]. *)
Fixpoint includesUnderscore (s : string) : bool :=
  match s with
  | EmptyString => false
  | String c r => Ascii.eqb c "_" || includesUnderscore r
  end.

Definition inputIdOf (key : string) : string :=
  if decide (key = "length_rod_1") then "length-1-input"
  else if decide (key = "length_rod_2") then "length-2-input"
  else if decide (key = "mass_bob_1") then "mass-1-input"
  else if decide (key = "mass_bob_2") then "mass-2-input"
  else if decide (key = "g") then "gravity-input"
  else key ++ "-input".

Definition displayKeyOf (key : string) : string :=
  if includesUnderscore key then replaceUnderscore key
  else key ++ "-display".

(** The body of the loop of [updateUISliders], for one key. *)
Definition updateUISlider (key : string) (v : jsnum) (w : worldT)
    : outcome worldT :=
  withElement (inputIdOf key) (Some (setValue (VNum v))) w >>>
  withElement (displayKeyOf key)
    (Some (setText (TFixed v (if decide (key = "g") then 1 else 0)))) >>>
  λ w, if isCondition key
       then withElement key (Some (setText (TFixed v 2))) w
       else Ret w.

(** [updateUISliders(params)]. *)
Fixpoint updateUISliders (params : list (string * jsnum)) (w : worldT)
    : outcome worldT :=
  match params with
  | [] => Ret w
  | (key, v) :: rest => updateUISlider key v w >>> updateUISliders rest
  end.



Section Runtime.

Variable call : listener → addr → addr → string → worldT → outcome worldT.
Variable fuel : nat.

(** [togglePause()]. *)
Definition togglePause (w : worldT) : outcome worldT :=
  let state := getState w in
  let newPausedState := negb (truthy (getField (heap w) state "isPaused")) in
  setState call fuel {[ "isPaused" := VBool newPausedState ]}
    "pause_toggle" w >>>
  withElement "pause-btn"
    (Some (setText (TStr (if newPausedState then "Resume" else "Pause")))).

(** [toggleTrails()]; clearing the canvas is drawing and is left out. *)
Definition toggleTrails (w : worldT) : outcome worldT :=
  let state := getState w in
  let newTrailsState :=
    negb (truthy (getField (heap w) state "showTrails")) in
  setState call fuel {[ "showTrails" := VBool newTrailsState ]}
    "trail_toggle" w.



(** The callback [(response) => ...] of [resetToDefaults()], run with
    [response.ok]. *)
Definition resetResponse (ok : bool) (w : worldT) : outcome worldT :=
  if ok then
    updateUISliders defaults w >>>
    resetPendulum >>>
    withElement "theta-1" (Some (setText (TFixed (Fin (157 # 100)) 2))) >>>
    withElement "theta-2" (Some (setText (TFixed (Fin (157 # 100)) 2))) >>>
    withElement "omega-1" (Some (setText (TFixed (Fin 0) 2))) >>>
    withElement "omega-2" (Some (setText (TFixed (Fin 0) 2))) >>>
    λ w, let '(a, w) := alloc ∅ w in
         setState call fuel
           {[ "initialEnergy" := VNull; "updateTimeouts" := VRef a ]}
           "reset" w
  else Ret w.

End Runtime.

End Controls.

(** ** Vocabulary for the control buttons *)

Module ControlSpec.

Import Store App StoreSpec Controls.
#[local] Open Scope list_scope.
#[local] Open Scope nat_scope.


(** The state holds an energy reading, the object [e], whose three
    fields are numbers, the total being [t]. *)
Definition reading (e : addr) (t : jsnum) (w : worldT) : Prop :=
  field w "latestEnergy" = VRef e ∧ e < next w ∧
  (∃ k p, getField (heap w) e "kinetic" = VNum k ∧
          getField (heap w) e "potential" = VNum p) ∧
  getField (heap w) e "total" = VNum t.




End ControlSpec.

(** ** What the document shows for a state *)

Module DisplaySpec.

Import Store App StoreSpec PageSpec.
#[local] Open Scope list_scope.
#[local] Open Scope nat_scope.

(** An assignment to properties of the element with a given id. *)
Definition write : Type := string * (node → node).

Definition applyWrite (d : domT) (x : write) : domT :=
  match d !! x.1 with
  | Some el => <[x.1 := x.2 el]> d
  | None => d
  end.

(** The page after the writes [ws], each made if its element exists. *)
Definition writeAll (ws : list write) (w : worldT) : worldT :=
  on_page (set_dom (foldl applyWrite (dom (env w)) ws)) w.

(** [v.k] when it is a number. *)
Definition numberAt (h : heapT) (v : value) (k : string) : option jsnum :=
  match getProp h v k with
  | Some (VNum n) => Some n
  | _ => None
  end.

(** [v || 0] when it is a number. *)
Definition numberOrZero (v : value) : option jsnum :=
  match orZero v with
  | VNum n => Some n
  | _ => None
  end.

(** The energy read-outs, for a state whose baseline is captured. *)
Definition energyWrites (w : worldT) : option (list write) :=
  let e := field w "latestEnergy" in
  if truthy e then
    k ← numberAt (heap w) e "kinetic";
    p ← numberAt (heap w) e "potential";
    t ← numberAt (heap w) e "total";
    let initialEnergy := toNumber (field w "initialEnergy") in
    let conservationError :=
      num_abs (num_mul (num_div (num_sub t initialEnergy) initialEnergy)
                       (ofNat 100)) in
    Some [("kinetic-energy", setText (TFixed k 2));
          ("potential-energy", setText (TFixed p 2));
          ("total-energy", setText (TFixed t 2));
          ("energy-error",
           λ el, setColor
                   (if num_ltb conservationError (Fin (1 # 10)) then "#4caf50"
                    else if num_ltb conservationError (Fin 1) then "#ff9800"
                    else "#f44336")
                   (setText (TPercent conservationError 2) el))]
  else Some [].

(** The angle and velocity read-outs: the live value of the last
    server state, else the initial condition. *)
Definition angular (w : worldT) (k : string) : option jsnum :=
  liveOrInitial w (field w "simulationState") k ≫= numberOrZero.

Definition angularWrites (w : worldT) : option (list write) :=
  if truthy (field w "simulationState") then
    theta1 ← angular w "theta_1";
    theta2 ← angular w "theta_2";
    omega1 ← angular w "omega_1";
    omega2 ← angular w "omega_2";
    Some [("theta-1", setText (TFixed theta1 2));
          ("theta-2", setText (TFixed theta2 2));
          ("omega-1", setText (TFixed omega1 2));
          ("omega-2", setText (TFixed omega2 2));
          ("theta-1-display", setText (TFixed theta1 1));
          ("theta-2-display", setText (TFixed theta2 1));
          ("omega-1-display", setText (TFixed omega1 1));
          ("omega-2-display", setText (TFixed omega2 1))]
  else Some [].

Definition parameterWrites (w : worldT) : option (list write) :=
  let ps := field w "parameters" in
  l1 ← numberAt (heap w) ps "length_rod_1";
  l2 ← numberAt (heap w) ps "length_rod_2";
  m1 ← numberAt (heap w) ps "mass_bob_1";
  m2 ← numberAt (heap w) ps "mass_bob_2";
  g ← numberAt (heap w) ps "g";
  Some [("length-1", setText (TFixed l1 0));
        ("length-2", setText (TFixed l2 0));
        ("mass-1", setText (TFixed m1 0));
        ("mass-2", setText (TFixed m2 0));
        ("gravity", setText (TFixed g 1))].

(** [if (Number(el.value) !== x) el.value = x]. *)
Definition syncWrite (x : value) (el : node) : node :=
  match x with
  | VNum n =>
      if num_eqb (numberOfInput (inputValue el)) n then el
      else setValue (VNum n) el
  | _ => setValue x el
  end.




(** The ids of the five parameter read-outs, and of the elements the
    binder writes after them: the slider inputs and the connection
    status. *)
Definition parameterReadouts : list string :=
  ["length-1"; "length-2"; "mass-1"; "mass-2"; "gravity"].
Definition laterElements : list string :=
  ["length-1-input"; "length-2-input"; "mass-1-input"; "mass-2-input";
   "gravity-input"; "theta-1-input"; "theta-2-input"; "omega-1-input";
   "omega-2-input"; "connection-status"; "status-text"].

(** The elements the binder writes before them and with them: the
    energy, angle, velocity and parameter read-outs. *)
Definition earlierElements : list string :=
  ["kinetic-energy"; "potential-energy"; "total-energy"; "energy-error";
   "theta-1"; "theta-2"; "omega-1"; "omega-2"; "theta-1-display";
   "theta-2-display"; "omega-1-display"; "omega-2-display"]
  ++ parameterReadouts.

(** A state the binder cannot show in full: its energies and angles
    have the expected shape, but one of the five parameters is not a
    number, and the page has the five parameter read-outs. *)
Definition stalls (w : worldT) : Prop :=
  settled w ∧ is_Some (energyWrites w) ∧ is_Some (angularWrites w) ∧
  parameterWrites w = None ∧
  ∀ id, id ∈ parameterReadouts → is_Some (dom (env w) !! id).


End DisplaySpec.

(** * Properties of the store *)

Module StoreFacts.

Import Store StoreSpec.
#[local] Open Scope list_scope.
#[local] Open Scope nat_scope.

Section Notify.

Context {L E : Type} `{EqDecision L}.
Variable call : L → addr → addr → string → @world L E → outcome (@world L E).

Lemma calls_app (a b : list (@event L)) :
  calls (a ++ b) = (calls a ++ calls b)%list.
Proof. unfold calls. apply omap_app. Qed.




End Notify.

(** ** Walking a path *)

Section Walk.

Lemma getField_setField h c k v c' k' :
  getField (setField h c k v) c' k' =
    if decide (c = c' ∧ k = k') then v else getField h c' k'.
Proof.
  unfold getField, setField, objAt.
  destruct (decide (c = c')) as [->|Hc].
  - rewrite lookup_insert_eq. simpl.
    destruct (decide (k = k')) as [->|Hk].
    + rewrite lookup_insert_eq. by rewrite decide_True.
    + rewrite lookup_insert_ne by done. rewrite decide_False; [done|].
      intros [_ ?]; done.
  - rewrite lookup_insert_ne by done. rewrite decide_False; [done|].
    intros [? _]; done.
Qed.

Lemma getField_fresh h n c k :
  getField (<[n := ∅]> h) c k =
    if decide (n = c) then VUndef else getField h c k.
Proof.
  unfold getField, objAt. destruct (decide (n = c)) as [->|Hn].
  - by rewrite lookup_insert_eq.
  - by rewrite lookup_insert_ne.
Qed.

Lemma getField_unallocated h n c k :
  (∀ m, n ≤ m → h !! m = None) → n ≤ c → getField h c k = VUndef.
Proof. intros Hh Hc. unfold getField, objAt. by rewrite Hh. Qed.

Lemma truthy_ref_cases (x : value) :
  truthy x = true → (∃ a, x = VRef a) ∨ (∀ a, x ≠ VRef a).
Proof. destruct x; eauto. Qed.

(** The step [assignPath] takes at a key that is not the last one. *)
Lemma assignPath_step k k2 ks v c h n :
  assignPath (k :: k2 :: ks) v c h n =
    if truthy (getField h c k) then
      match getField h c k with
      | VRef a => assignPath (k2 :: ks) v a h n
      | _ => None
      end
    else assignPath (k2 :: ks) v n
           (<[n := ∅]> (setField h c k (VRef n))) (S n).
Proof. reflexivity. Qed.

Lemma closed_after_create h n c k :
  heap_closed h n → c < n →
  heap_closed (<[n := ∅]> (setField h c k (VRef n))) (S n).
Proof.
  intros [Hfresh Hrefs] Hc. split.
  - intros m Hm. rewrite lookup_insert_ne by lia.
    unfold setField. rewrite lookup_insert_ne by lia. apply Hfresh. lia.
  - intros c' k' a. rewrite getField_fresh, getField_setField.
    case_decide; [done|]. case_decide.
    + intros [= <-]. lia.
    + intros Ha%Hrefs. lia.
Qed.

Lemma unref_after_create h n c k a :
  unref h a → a < n →
  unref (<[n := ∅]> (setField h c k (VRef n))) a.
Proof.
  intros Hu Ha c' k'. rewrite getField_fresh, getField_setField.
  case_decide; [done|]. case_decide; [|apply Hu].
  intros [= <-]. lia.
Qed.

(** An object that no reference leads to, other than the start of the
    walk, is left as it was. *)
Lemma assignPath_frame ks : ∀ v c h n h' n' a,
  assignPath ks v c h n = Some (h', n') →
  a < n → unref h a → a ≠ c →
  h' !! a = h !! a.
Proof.
  induction ks as [|k [|k2 ks] IH]; intros v c h n h' n' a Hrun Ha Hu Hac.
  - injection Hrun as <- <-. unfold setField. by rewrite lookup_insert_ne.
  - injection Hrun as <- <-. unfold setField. by rewrite lookup_insert_ne.
  - rewrite assignPath_step in Hrun.
    destruct (truthy (getField h c k)) eqn:Ht.
    + destruct (getField h c k) as [| |b|m|a1] eqn:Hx; try done.
      eapply IH; [exact Hrun | done | done |].
      intros ->. by apply (Hu c k).
    + erewrite IH; [| exact Hrun | lia | by apply unref_after_create | lia].
      rewrite lookup_insert_ne by lia.
      unfold setField. by rewrite lookup_insert_ne.
Qed.

(** At the start of the walk only the first key is written. *)
Lemma assignPath_start_other k ks : ∀ v c h n h' n' k',
  assignPath (k :: ks) v c h n = Some (h', n') →
  c < n → unref h c → k' ≠ k →
  objAt h' c !! k' = objAt h c !! k'.
Proof.
  intros v c h n h' n' k' Hrun Hc Hu Hk. destruct ks as [|k2 ks].
  - injection Hrun as <- <-. unfold setField, objAt at 1.
    rewrite lookup_insert_eq. simpl. by rewrite lookup_insert_ne.
  - rewrite assignPath_step in Hrun.
    destruct (truthy (getField h c k)) eqn:Ht.
    + destruct (getField h c k) as [| |b|m|a1] eqn:Hx; try done.
      unfold objAt.
      erewrite assignPath_frame; [done | exact Hrun | done | done |].
      intros <-. by apply (Hu c k).
    + unfold objAt at 1.
      erewrite assignPath_frame;
        [| exact Hrun | lia | by apply unref_after_create | lia].
      rewrite lookup_insert_ne by lia.
      unfold setField. rewrite lookup_insert_eq. simpl.
      by rewrite lookup_insert_ne.
Qed.

(** What the first key of the walk holds afterwards. *)
Lemma assignPath_start_head k ks : ∀ v c h n h' n',
  assignPath (k :: ks) v c h n = Some (h', n') →
  c < n → unref h c →
  objAt h' c !! k =
    Some (match ks with
          | [] => v
          | _ => if truthy (getField h c k) then getField h c k else VRef n
          end).
Proof.
  intros v c h n h' n' Hrun Hc Hu. destruct ks as [|k2 ks].
  - injection Hrun as <- <-. unfold setField, objAt at 1.
    rewrite lookup_insert_eq. simpl. by rewrite lookup_insert_eq.
  - rewrite assignPath_step in Hrun.
    destruct (truthy (getField h c k)) eqn:Ht.
    + destruct (getField h c k) as [| |b|m|a1] eqn:Hx; try done.
      unfold objAt.
      erewrite assignPath_frame; [| exact Hrun | done | done |].
      * unfold getField, objAt in Hx.
        destruct (default ∅ (h !! c) !! k) as [x|] eqn:Hl; simpl in Hx;
          by subst.
      * intros <-. by apply (Hu c k).
    + unfold objAt at 1.
      erewrite assignPath_frame;
        [| exact Hrun | lia | by apply unref_after_create | lia].
      rewrite lookup_insert_ne by lia.
      unfold setField. rewrite lookup_insert_eq. simpl.
      by rewrite lookup_insert_eq.
Qed.

Lemma assignPath_closed ks : ∀ v c h n h' n',
  assignPath ks v c h n = Some (h', n') →
  heap_closed h n → c < n → value_closed v n →
  heap_closed h' n' ∧ n ≤ n'.
Proof.
  assert (Hset : ∀ h n c k v, heap_closed h n → c < n → value_closed v n →
            heap_closed (setField h c k v) n).
  { intros h n c k v [Hfresh Hrefs] Hc Hv. split.
    - intros m Hm. unfold setField. rewrite lookup_insert_ne by lia.
      by apply Hfresh.
    - intros c' k' a. rewrite getField_setField. case_decide.
      + intros ->. exact Hv.
      + apply Hrefs. }
  induction ks as [|k [|k2 ks] IH]; intros v c h n h' n' Hrun Hcl Hc Hv.
  - injection Hrun as <- <-. split; [by apply Hset | lia].
  - injection Hrun as <- <-. split; [by apply Hset | lia].
  - rewrite assignPath_step in Hrun.
    destruct (truthy (getField h c k)) eqn:Ht.
    + destruct (getField h c k) as [| |b|m|a1] eqn:Hx; try done.
      eapply IH; [exact Hrun | done | | done].
      destruct Hcl as [_ Hrefs]. by eapply Hrefs.
    + destruct (IH v n _ (S n) h' n' Hrun) as [Hcl' Hle].
      * by apply closed_after_create.
      * lia.
      * destruct v; simpl in *; try done. lia.
      * split; [done | lia].
Qed.

(** A truthy property is not overwritten by the walk, unless it sits
    under the last key. *)
Lemma assignPath_keeps ks : ∀ v c h n h' n' kl c' k',
  assignPath ks v c h n = Some (h', n') →
  heap_closed h n → c < n →
  last ks = Some kl → k' ≠ kl →
  truthy (getField h c' k') = true →
  getField h' c' k' = getField h c' k'.
Proof.
  induction ks as [|k [|k2 ks] IH];
    intros v c h n h' n' kl c' k' Hrun Hcl Hc Hlast Hk Ht.
  - done.
  - injection Hrun as <- <-. injection Hlast as <-.
    rewrite getField_setField. case_decide as Hd; [|done].
    destruct Hd as [_ ->]. done.
  - rewrite assignPath_step in Hrun.
    destruct (truthy (getField h c k)) eqn:Hx.
    + destruct (getField h c k) as [| |b|m|a1] eqn:Hv; try done.
      eapply IH; [exact Hrun | done | | done | done | done].
      destruct Hcl as [_ Hrefs]. by eapply Hrefs.
    + assert (Hc' : c' < n).
      { destruct (decide (c' < n)) as [|Hge]; [done|].
        destruct Hcl as [Hfresh _].
        rewrite (getField_unallocated h n) in Ht by (done || lia). done. }
      assert (Hsame : getField (<[n := ∅]> (setField h c k (VRef n))) c' k'
                      = getField h c' k').
      { rewrite getField_fresh, getField_setField.
        case_decide; [lia|]. case_decide as Hd; [|done].
        destruct Hd as [-> ->]. congruence. }
      rewrite <- Hsame. eapply IH; [exact Hrun | | | exact Hlast | done |].
      * by apply closed_after_create.
      * lia.
      * by rewrite Hsame.
Qed.

(** Reading the path back from the start of the walk finds the value
    just assigned, provided the last key is not also an earlier key. *)
Lemma assignPath_readback ks : ∀ v c h n h' n' kl,
  assignPath ks v c h n = Some (h', n') →
  heap_closed h n → c < n →
  last ks = Some kl → kl ∉ removelast ks →
  readPath h' (VRef c) ks = v.
Proof.
  induction ks as [|k [|k2 ks] IH];
    intros v c h n h' n' kl Hrun Hcl Hc Hlast Hkl.
  - done.
  - injection Hrun as <- <-. simpl. unfold getPropOpt. simpl.
    rewrite getField_setField. by rewrite decide_True.
  - assert (Hk : k ≠ kl).
    { intros ->. apply Hkl. simpl. left. }
    assert (Hkl' : kl ∉ removelast (k2 :: ks)).
    { intros Hin. apply Hkl. simpl. right. exact Hin. }
    assert (Hlast' : last (k2 :: ks) = Some kl) by exact Hlast.
    pose proof Hrun as Hrun0.
    rewrite assignPath_step in Hrun.
    change (readPath h' (VRef c) (k :: k2 :: ks))
      with (readPath h' (getField h' c k) (k2 :: ks)).
    destruct (truthy (getField h c k)) eqn:Hx.
    + destruct (getField h c k) as [| |b|m|a1] eqn:Hv; try done.
      assert (Ha1 : a1 < n) by (destruct Hcl as [_ Hrefs]; by eapply Hrefs).
      rewrite (assignPath_keeps _ _ _ _ _ _ _ kl c k Hrun0 Hcl Hc Hlast Hk)
        by (by rewrite Hv).
      rewrite Hv. eapply IH; [exact Hrun | done | done | done | done].
    + assert (Hlink : getField (<[n := ∅]> (setField h c k (VRef n))) c k
                      = VRef n).
      { rewrite getField_fresh, getField_setField.
        case_decide; [lia|]. by rewrite decide_True. }
      rewrite (assignPath_keeps _ _ _ _ _ _ _ kl c k Hrun
                 (closed_after_create h n c k Hcl Hc) (Nat.lt_succ_diag_r n)
                 Hlast' Hk) by (by rewrite Hlink).
      rewrite Hlink.
      eapply IH; [exact Hrun | by apply closed_after_create | lia
                 | done | done].
Qed.

(** Reading does not see an object allocated later. *)
Lemma readPath_alloc h n o ks : ∀ x,
  heap_closed h n → value_closed x n →
  readPath (<[n := o]> h) x ks = readPath h x ks.
Proof.
  induction ks as [|k ks IH]; intros x Hcl Hx; [done|].
  simpl.
  assert (Heq : getPropOpt (<[n := o]> h) x k = getPropOpt h x k).
  { destruct x as [| |b|m|a]; try done. simpl in Hx.
    unfold getPropOpt, getProp, getField, objAt. simpl.
    by rewrite lookup_insert_ne by lia. }
  rewrite Heq. apply IH; [done|].
  destruct x as [| |b|m|a]; try done.
  unfold getPropOpt. simpl.
  destruct (getField h a k) as [| |b|m|a'] eqn:Hf; try done.
  simpl. destruct Hcl as [_ Hrefs]. by eapply Hrefs.
Qed.

End Walk.

(** ** Mutations *)

Section Mutations.

Context {L E : Type} `{EqDecision L}.
Variable call : L → addr → addr → string → @world L E → outcome (@world L E).


Lemma field_assignState (o : obj) (w : @world L E) k :
  field (assignState o w) k = default VUndef ((o ∪ stateObj w) !! k).
Proof.
  unfold field, assignState, getField, objAt. simpl.
  by rewrite lookup_insert_eq.
Qed.

Lemma getField_lookup h a k x :
  getField h a k = x → x ≠ VUndef → objAt h a !! k = Some x.
Proof.
  unfold getField. destruct (objAt h a !! k) as [y|]; simpl; congruence.
Qed.

(** What the copy-and-walk half of [updateState] leaves behind. *)
Lemma updateState_walk_spec path v (w w1 : @world L E) ns k ks :
  store_ok w → value_closed v (next w) →
  split_dot path = k :: ks →
  updateState_walk path v w = Some (w1, ns) →
  ns = next w ∧ cur w1 = cur w ∧ listeners w1 = listeners w ∧
  trace w1 = trace w ∧ env w1 = env w ∧
  heap_closed (heap w1) (next w1) ∧ next w < next w1 ∧
  heap w1 !! cur w = heap w !! cur w ∧
  (∀ k', k' ≠ k → objAt (heap w1) ns !! k' = stateObj w !! k') ∧
  objAt (heap w1) ns !! k =
    Some (match ks with
          | [] => v
          | _ => if truthy (field w k) then field w k else VRef (S (next w))
          end) ∧
  (∀ kl, last (k :: ks) = Some kl → kl ∉ removelast (k :: ks) →
         readPath (heap w1) (VRef ns) (k :: ks) = v).
Proof.
  intros (Hcl & Hcur & Hu) Hv Hsplit Hwalk.
  unfold updateState_walk in Hwalk. rewrite Hsplit in Hwalk.
  destruct (assignPath _ _ _ _ _) as [[h n]|] eqn:Hrun; [|done].
  injection Hwalk as <- <-.
  set (h0 := <[next w := stateObj w]> (heap w)) in *.
  assert (Hf0 : ∀ c k', getField h0 c k' =
            if decide (c = next w) then getField (heap w) (cur w) k'
            else getField (heap w) c k').
  { intros c k'. unfold h0, getField, objAt. case_decide as Hd.
    - subst c. by rewrite lookup_insert_eq.
    - by rewrite lookup_insert_ne. }
  assert (Hcl0 : heap_closed h0 (S (next w))).
  { destruct Hcl as [Hfresh Hrefs]. split.
    - intros m Hm. unfold h0. rewrite lookup_insert_ne by lia.
      apply Hfresh. lia.
    - intros c k' a. rewrite Hf0. case_decide; intros Ha%Hrefs; lia. }
  assert (Hu0 : ∀ a, a = next w ∨ a = cur w → unref h0 a).
  { intros a Ha c k'. rewrite Hf0. destruct Ha as [->| ->].
    - destruct Hcl as [_ Hrefs].
      case_decide; intros Hx%Hrefs; lia.
    - case_decide; apply Hu. }
  assert (Hobj0 : objAt h0 (next w) = stateObj w).
  { unfold h0, objAt. by rewrite lookup_insert_eq. }
  destruct (assignPath_closed _ _ _ _ _ _ _ Hrun Hcl0) as [Hcl1 Hle];
    [lia | destruct v; simpl in *; try done; lia |].
  assert (Hrb : ∀ kl, last (k :: ks) = Some kl → kl ∉ removelast (k :: ks) →
            readPath h (VRef (next w)) (k :: ks) = v).
  { intros kl Hlast Hkl.
    eapply assignPath_readback; [exact Hrun | done | lia | done | done]. }
  simpl. split_and!; try done; try lia; try exact Hrb.
  - erewrite assignPath_frame; [| exact Hrun | lia | by apply Hu0; right | lia].
    unfold h0. by rewrite lookup_insert_ne by lia.
  - intros k' Hk'.
    erewrite assignPath_start_other;
      [| exact Hrun | lia | by apply Hu0; left | done].
    by rewrite Hobj0.
  - erewrite assignPath_start_head; [| exact Hrun | lia | by apply Hu0; left].
    unfold field. rewrite Hf0. by rewrite decide_True.
Qed.

Lemma lookup_union_same (o1 o2 : obj) k :
  o1 !! k = o2 !! k → (o1 ∪ o2) !! k = o2 !! k.
Proof.
  intros Heq. rewrite lookup_union, Heq. by destruct (o2 !! k).
Qed.

Lemma lookup_union_left (o1 o2 : obj) k x :
  o1 !! k = Some x → (o1 ∪ o2) !! k = Some x.
Proof. intros Heq. rewrite lookup_union, Heq. by destruct (o2 !! k). Qed.

(** C10: when [updateState] is given a nested path whose top-level
    container exists, the walk mutates that container in place; the
    [prevState] handed to the subscribers then has the very same
    top-level fields as the new snapshot, and reading the updated path
    through [prevState] already yields the newly assigned value. *)
Theorem updateState_previous_shares_containers
    (fuel : nat) (path : string) (v : value) (w w1 : @world L E)
    (ns a : addr) (k : string) (ks : list string) :
  store_ok w → value_closed v (next w) →
  split_dot path = k :: ks → ks ≠ [] →
  field w k = VRef a →
  updateState_walk path v w = Some (w1, ns) →
  let w2 := assignState (objAt (heap w1) ns) w1 in
  updateState call fuel path v w =
    notifyListeners call fuel (cur w) (cur w2) ("update:" ++ path)%string w2 ∧
  (∀ k', getField (heap w2) (cur w) k' = getField (heap w2) (cur w2) k') ∧
  (∀ kl, last (k :: ks) = Some kl → kl ∉ removelast (k :: ks) →
     readPath (heap w2) (VRef (cur w)) (k :: ks) = v ∧
     readPath (heap w2) (VRef (cur w2)) (k :: ks) = v).
Proof.
  intros Hok Hv Hsplit Hks Hfield Hwalk w2.
  destruct (updateState_walk_spec path v w w1 ns k ks Hok Hv Hsplit Hwalk)
    as (-> & Hcur & _ & _ & _ & Hcl1 & Hlt & Hprev & Hother & Hhead & Hread).
  destruct Hok as (Hcl & Hcurlt & Hu).
  assert (Hhead' : objAt (heap w1) (next w) !! k = Some (VRef a)).
  { rewrite Hhead. destruct ks; [done|]. by rewrite Hfield. }
  assert (Hst1 : stateObj w1 = stateObj w).
  { unfold stateObj, objAt. by rewrite Hcur, Hprev. }
  assert (Hold : ∀ k', getField (heap w2) (cur w) k'
                       = default VUndef (stateObj w !! k')).
  { intros k'. unfold w2, assignState, getField, objAt. simpl.
    rewrite lookup_insert_ne by lia. by rewrite Hprev. }
  assert (Hnew : ∀ k', getField (heap w2) (cur w2) k'
                       = default VUndef (stateObj w !! k')).
  { intros k'. unfold w2. fold (field (assignState (objAt (heap w1) (next w)) w1) k').
    rewrite field_assignState, Hst1.
    destruct (decide (k' = k)) as [->|Hne].
    - rewrite (lookup_union_left _ _ _ _ Hhead').
      change (default VUndef (stateObj w !! k)) with (field w k).
      by rewrite Hfield.
    - by rewrite lookup_union_same by (by apply Hother). }
  split_and!.
  - unfold updateState. rewrite Hwalk. unfold setState. by rewrite Hcur.
  - intros k'. by rewrite Hold, Hnew.
  - intros kl Hlast Hkl.
    assert (Ha : a < next w1).
    { destruct Hcl as [_ Hrefs]. apply Hrefs in Hfield. lia. }
    assert (Hrest : readPath (heap w2) (VRef a) ks = v).
    { unfold w2, assignState. simpl.
      rewrite readPath_alloc by done.
      specialize (Hread kl Hlast Hkl). simpl in Hread.
      unfold getPropOpt in Hread. simpl in Hread.
      unfold getField in Hread. rewrite Hhead' in Hread. exact Hread. }
    assert (Hk : default VUndef (stateObj w !! k) = VRef a) by exact Hfield.
    split.
    + change (readPath (heap w2) (VRef (cur w)) (k :: ks))
        with (readPath (heap w2) (getField (heap w2) (cur w) k) ks).
      by rewrite Hold, Hk.
    + change (readPath (heap w2) (VRef (cur w2)) (k :: ks))
        with (readPath (heap w2) (getField (heap w2) (cur w2) k) ks).
      by rewrite Hnew, Hk.
Qed.

(** *** Sequences of mutations *)














End Mutations.

(** ** The sample stores *)

Section Samples.

Import Examples.

Lemma heap_closed_check (h : heapT) (n : addr) :
  map_Forall (λ c (o : obj),
      c < n ∧ map_Forall (λ _ x, match x with VRef a => a < n | _ => True end) o)
    h →
  heap_closed h n.
Proof.
  intros Hall. split.
  - intros m Hm. destruct (h !! m) as [o|] eqn:Hl; [|done].
    apply Hall in Hl as [Hlt _]. lia.
  - intros c k a Hf. unfold getField, objAt in Hf.
    destruct (h !! c) as [o|] eqn:Hl; simpl in Hf.
    + destruct (o !! k) as [x|] eqn:Hk; simpl in Hf; [|done]. subst x.
      apply Hall in Hl as [_ Ho]. by apply Ho in Hk.
    + by rewrite lookup_empty in Hf.
Qed.

Lemma initialHeap_closed : heap_closed App.initialHeap 4.
Proof.
  apply heap_closed_check.
  unfold App.initialHeap, App.initialState, App.initialParameters,
    App.initialConditions, App.num.
  repeat (apply map_Forall_insert_2; [split; [lia|] |]);
    try (apply map_Forall_singleton; split; [lia|]);
    repeat (apply map_Forall_insert_2; [simpl; (done || lia) |]);
    try (apply map_Forall_singleton; simpl; (done || lia));
    try apply map_Forall_empty.
Qed.

Lemma initialHeap_unref : unref App.initialHeap 0.
Proof.
  intros c k Hx. destruct initialHeap_closed as [Hfresh Hrefs].
  assert (Hc : c < 4).
  { destruct (decide (c < 4)) as [|Hge]; [done|].
    rewrite (getField_unallocated _ 4) in Hx by (done || lia). done. }
  unfold getField, objAt, App.initialHeap in Hx.
  destruct c as [|[|[|[|c]]]]; [| | | |lia].
  - rewrite lookup_insert_eq in Hx. simpl in Hx.
    unfold App.initialState in Hx.
    repeat (rewrite lookup_insert in Hx; case_decide; [done|]).
    rewrite lookup_singleton in Hx. case_decide; done.
  - rewrite lookup_insert_ne, lookup_insert_eq in Hx by done. done.
  - rewrite !lookup_insert_ne, lookup_insert_eq in Hx by done. simpl in Hx.
    unfold App.initialParameters in Hx.
    repeat (rewrite lookup_insert in Hx; case_decide; [done|]).
    rewrite lookup_singleton in Hx. case_decide; done.
  - rewrite !lookup_insert_ne, lookup_singleton_eq in Hx by done. simpl in Hx.
    unfold App.initialConditions in Hx.
    repeat (rewrite lookup_insert in Hx; case_decide; [done|]).
    rewrite lookup_singleton in Hx. case_decide; done.
Qed.

Lemma plainStore_ok : store_ok plainStore.
Proof.
  split_and!; [apply initialHeap_closed | simpl; lia | apply initialHeap_unref].
Qed.


Lemma probe_observers : observers probe.
Proof.
  intros l p n s w. exists w. split_and!; try done.
  unfold probe. case_decide; [by right | by left].
Qed.


Lemma updateState_previous_shares_containers_witness :
  ∃ w1 ns,
    updateState_walk "parameters.g" (VNum (Fin 1)) plainStore = Some (w1, ns) ∧
    let w2 := assignState (objAt (heap w1) ns) w1 in
    updateState silent 3 "parameters.g" (VNum (Fin 1)) plainStore =
      notifyListeners silent 3 (cur plainStore) (cur w2)
        "update:parameters.g" w2 ∧
    (∀ k', getField (heap w2) (cur plainStore) k'
           = getField (heap w2) (cur w2) k') ∧
    (∀ kl, last ["parameters"; "g"] = Some kl →
           kl ∉ removelast ["parameters"; "g"] →
       readPath (heap w2) (VRef (cur plainStore)) ["parameters"; "g"]
         = VNum (Fin 1) ∧
       readPath (heap w2) (VRef (cur w2)) ["parameters"; "g"] = VNum (Fin 1)).
Proof.
  destruct (updateState_walk "parameters.g" (VNum (Fin 1)) plainStore)
    as [[w1 ns]|] eqn:Hwalk; [|vm_compute in Hwalk; discriminate].
  exists w1, ns. split; [reflexivity|].
  apply (updateState_previous_shares_containers silent 3 "parameters.g"
           (VNum (Fin 1)) plainStore w1 ns 2 "parameters" ["g"]).
  - exact plainStore_ok.
  - exact I.
  - reflexivity.
  - discriminate.
  - vm_compute. reflexivity.
  - exact Hwalk.
Defined.


End Samples.

End StoreFacts.

(** * Properties of the page *)

Module AppFacts.

Import Store App StoreSpec Examples.
#[local] Open Scope list_scope.

(** ** Connection monitor *)



(** C1: the failure counter is reset only by the poll that recovers
    the connection.  After a first successful poll the page is Connected
    with counter 0; four failed polls leave it Connected with counter 4,
    a fifth one disconnects it and a success then reconnects it with
    counter 0.  But a successful poll after the four failures leaves the
    counter at 4, and a single further failure disconnects the page. *)
Theorem success_while_connected_keeps_failure_count :
  after connection (run 6 firstPoll (stateManager smallPage))
    = Some (VBool true, VNum (Fin 0)) ∧
  after connection (run 6 (firstPoll ++ fourFailures) (stateManager smallPage))
    = Some (VBool true, VNum (Fin 4)) ∧
  after connection
    (run 6 (firstPoll ++ fourFailures ++ [(250, Poll None)])
       (stateManager smallPage))
    = Some (VBool false, VNum (Fin 5)) ∧
  after connection
    (run 6 (firstPoll ++ fourFailures ++ [(250, Poll None)] ++
            [(300, Poll (Some (stateBody 5)))])
       (stateManager smallPage))
    = Some (VBool true, VNum (Fin 0)) ∧
  after connection
    (run 6 (firstPoll ++ fourFailures ++ oneSuccess) (stateManager smallPage))
    = Some (VBool true, VNum (Fin 4)) ∧
  after connection
    (run 6 (firstPoll ++ fourFailures ++ oneSuccess ++ oneFailure)
       (stateManager smallPage))
    = Some (VBool false, VNum (Fin 5)).
Proof. split_and!; vm_compute; reflexivity. Qed.

(** ** Display binder *)

Lemma update_label_is_not_local (path : string) :
  ("update:" ++ path)%string ≠ "local_update".
Proof. simpl. discriminate. Qed.

(** C2: the display binder does skip a notification labelled
    [local_update], but a slider input reaches the store through
    [updateState], whose notification is labelled [update:<path>], so the
    binder re-projects on it: after the user sets gravity to 3.71 the
    binder has run and has rewritten the connection status text. *)
Theorem local_edit_is_reprojected :
  (∀ call fuel prev nxt (w : worldT),
     displayBinder call fuel prev nxt "local_update" w = Ret w) ∧
  (∀ call fuel path v (w : worldT),
     updateState call fuel path v w =
       match updateState_walk path v w with
       | Some (w1, newState) =>
           setState call fuel (objAt (heap w1) newState)
             ("update:" ++ path)%string w1
       | None => Throw w
       end) ∧
  (∀ call fuel prev nxt path (w : worldT),
     displayBinder call fuel prev nxt ("update:" ++ path)%string w =
       updateAllDisplays call fuel w) ∧
  after (λ w, (calls (trace w), shownText "status-text" w))
    (run 6 [(0, InputParameter "g" (Fin (371 # 100)))] (stateManager smallPage))
    = Some ([(DisplayBinder, 0, 5, "update:parameters.g")],
            Some (TStr "Connection Lost")).
Proof.
  split_and!.
  - reflexivity.
  - reflexivity.
  - intros call fuel prev nxt path w. unfold displayBinder.
    rewrite decide_True; [done | apply update_label_is_not_local].
  - vm_compute. reflexivity.
Qed.

(** ** Debounce *)

(** C5: a timer callback writes back a copy of the [timeouts] object
    its closure captured.  After the edits of [sliderEdits] the third
    edit's timer (handle 3) is no longer in the map when the fourth edit
    arrives, is not cancelled, and two timers are live for field [g];
    the map only knows handle 4. *)
Theorem stale_timeouts_leave_two_live_timers :
  after liveTimers (run 6 sliderEdits (stateManager smallPage))
    = Some [(3, "g", Fin 3); (4, "g", Fin 4)] ∧
  after (pendingSlot "g") (run 6 sliderEdits (stateManager smallPage))
    = Some (VNum (ofNat 4)).
Proof. split; vm_compute; reflexivity. Qed.

(** C4: the two gravity edits made 40 ms apart at 120 ms and 160 ms
    are both sent, with values 3 and 4.  Edits to distinct fields are
    sent independently, and an undisturbed burst on one field is sent
    once, with the last value. *)
Theorem rapid_edits_are_sent_twice :
  after sent (run 6 sliderEdits (stateManager smallPage) >>> advance 6 1000)
    = Some [("g", Fin 1); ("length_rod_1", Fin 2); ("g", Fin 3); ("g", Fin 4)] ∧
  after sent
    (run 6 [(0, InputParameter "g" (Fin 1)); (20, InputParameter "g" (Fin 2));
            (40, InputParameter "g" (Fin (371 # 100)))]
       (stateManager smallPage) >>> advance 6 1000)
    = Some [("g", Fin (371 # 100))].
Proof. split; vm_compute; reflexivity. Qed.

(** ** Energy read-out *)

(** With a baseline of -2 and a later total of -3 the page shows 50%,
    where the formula with the absolute value on the numerator only
    gives -50. *)
Lemma energy_error_formula_refuted :
  after (shownText "energy-error")
    (run 6 [(0, Poll (Some (stateBody (-2)))); (50, Poll (Some (stateBody (-3))))]
       (stateManager smallPage))
    = Some (Some (TPercent (Fin (100 # 2)) 2)) ∧
  ¬ (100 # 2 == numeratorOnly (-3) (-2))%Q.
Proof. split; [vm_compute; reflexivity | vm_compute; discriminate]. Qed.

(** The update that captures the baseline computes the error from the
    snapshot it read before the capture: when the energy read-out first
    arrives on a connected page, [Infinity%] is shown. *)
Lemma capturing_update_shows_infinity :
  after (λ w, (shownText "energy-error" w, field w "initialEnergy"))
    (run 6 [(0, Poll (Some bareBody)); (50, Poll (Some (stateBody 5)))]
       (stateManager smallPage))
    = Some (Some (TPercent PInf 2), VNum (Fin 5)).
Proof. vm_compute. reflexivity. Qed.

Lemma withElement_spec (id : string) (f : node → node) (w : worldT) :
  ∃ w', withElement id (Some f) w = Ret w' ∧
        heap w' = heap w ∧ next w' = next w ∧ cur w' = cur w ∧
        (∀ id', id' ≠ id → dom (env w') !! id' = dom (env w) !! id') ∧
        dom (env w') !! id = f <$> dom (env w) !! id.
Proof.
  unfold withElement. destruct (dom (env w) !! id) as [el|] eqn:Hel.
  - eexists. split; [reflexivity|]. simpl. split_and!; try done.
    + intros id' Hne. by rewrite lookup_insert_ne.
    + by rewrite lookup_insert_eq.
  - exists w. by split_and!.
Qed.

Lemma error_value (t i : Q) :
  ¬ (i == 0)%Q →
  ∃ e, num_abs (num_mul (num_div (num_sub (Fin t) (Fin i)) (Fin i)) (ofNat 100))
         = Fin e ∧
       (e == Qabs ((t - i) / i) * 100)%Q ∧
       ((0 < i)%Q → (e == numeratorOnly t i)%Q).
Proof.
  intros Hi.
  exists (Qabs ((t + - i) / i * inject_Z (Z.of_nat 100))).
  split.
  { unfold num_sub, num_neg, num_add, num_div, is_zero.
    destruct (Qeq_bool i 0) eqn:Hz; [by apply Qeq_bool_eq in Hz|].
    reflexivity. }
  assert (H100 : (Qabs (inject_Z (Z.of_nat 100)) == 100)%Q) by reflexivity.
  split.
  - rewrite Qabs_Qmult, H100. reflexivity.
  - intros Hpos. unfold numeratorOnly.
    rewrite Qabs_Qmult, H100. unfold Qdiv.
    rewrite Qabs_Qmult, Qabs_Qinv, (Qabs_pos i) by (by apply Qlt_le_weak).
    reflexivity.
Qed.

(** C3 (amended): once [initialEnergy] holds a non-zero baseline, every
    run of [updateEnergyDisplay] leaves the baseline alone and shows
    [|(total − initialEnergy) / initialEnergy| × 100]; for a positive
    baseline this is [|total − initialEnergy| / initialEnergy × 100]. *)
Theorem energy_error_after_capture
    (call : listener → addr → addr → string → worldT → outcome worldT)
    (fuel : nat) (w : worldT) (a : addr) (kn pn : jsnum) (t i : Q)
    (el : node) :
  field w "latestEnergy" = VRef a →
  getField (heap w) a "kinetic" = VNum kn →
  getField (heap w) a "potential" = VNum pn →
  getField (heap w) a "total" = VNum (Fin t) →
  field w "initialEnergy" = VNum (Fin i) →
  ¬ (i == 0)%Q →
  dom (env w) !! "energy-error" = Some el →
  ∃ w' e,
    updateEnergyDisplay call fuel w = Ret w' ∧
    heap w' = heap w ∧ cur w' = cur w ∧
    shownText "energy-error" w' = Some (TPercent (Fin e) 2) ∧
    (e == Qabs ((t - i) / i) * 100)%Q ∧
    ((0 < i)%Q → (e == numeratorOnly t i)%Q).
Proof.
  intros Hle Hkn Hpn Ht Hinit Hi Hel.
  destruct (error_value t i Hi) as (e & He & Heq & Hpos).
  unfold field in Hle, Hinit.
  unfold updateEnergyDisplay, getState. cbv zeta.
  rewrite Hle. cbn [truthy negb].
  unfold getProp. rewrite Hkn. cbn [toFixed].
  destruct (withElement_spec "kinetic-energy" (setText (TFixed kn 2)) w)
    as (w1 & -> & Hh1 & _ & Hc1 & Hd1 & _).
  cbn [andThen]. rewrite Hh1, Hle, Hpn. cbn [toFixed].
  destruct (withElement_spec "potential-energy" (setText (TFixed pn 2)) w1)
    as (w2 & -> & Hh2 & _ & Hc2 & Hd2 & _).
  cbn [andThen]. rewrite Hh2, Hh1, Hle, Ht. cbn [toFixed].
  destruct (withElement_spec "total-energy" (setText (TFixed (Fin t) 2)) w2)
    as (w3 & -> & Hh3 & _ & Hc3 & Hd3 & _).
  cbn [andThen]. rewrite Hh3, Hh2, Hh1, Hinit. cbn [andThen].
  rewrite Hh3, Hh2, Hh1, Hle. unfold getPropOpt, getProp. rewrite Ht, Hinit. cbn [default from_option id].
  cbn [toNumber id]. rewrite He.
  match goal with
  | |- ∃ _ _, withElement ?id (Some ?f) ?w0 = _ ∧ _ =>
      destruct (withElement_spec id f w0) as (w4 & Hrun & Hh4 & _ & Hc4 & _ & Hd4)
  end.
  exists w4, e. split_and!; try done.
  - by rewrite Hh4, Hh3, Hh2, Hh1.
  - by rewrite Hc4, Hc3, Hc2, Hc1.
  - unfold shownText. rewrite Hd4, Hd3, Hd2, Hd1, Hel by done. reflexivity.
Qed.

Lemma energy_error_after_capture_witness :
  ∃ w' e,
    updateEnergyDisplay (runListener 3) 3
      (with_env
         (Page smallPage [] 1 [] [] [] 0)
         (constructor
            {[ 0%nat := ({[ "latestEnergy" := VRef 1;
                            "initialEnergy" := VNum (Fin 4) ]} : obj);
               1%nat := ({[ "kinetic" := VNum (Fin 1);
                            "potential" := VNum (Fin 2);
                            "total" := VNum (Fin 3) ]} : obj) ]}
            2 0 (Page ∅ [] 1 [] [] [] 0))) = Ret w' ∧
    shownText "energy-error" w' = Some (TPercent (Fin e) 2) ∧
    (e == 25)%Q.
Proof.
  destruct (energy_error_after_capture (runListener 3) 3
    (with_env
         (Page smallPage [] 1 [] [] [] 0)
         (constructor
            {[ 0%nat := ({[ "latestEnergy" := VRef 1;
                            "initialEnergy" := VNum (Fin 4) ]} : obj);
               1%nat := ({[ "kinetic" := VNum (Fin 1);
                            "potential" := VNum (Fin 2);
                            "total" := VNum (Fin 3) ]} : obj) ]}
            2 0 (Page ∅ [] 1 [] [] [] 0)))
    1 (Fin 1) (Fin 2) 3 4 blank)
    as (w' & e & Hrun & _ & _ & Hshown & He & _).
  - vm_compute. reflexivity.
  - vm_compute. reflexivity.
  - vm_compute. reflexivity.
  - vm_compute. reflexivity.
  - vm_compute. reflexivity.
  - vm_compute. discriminate.
  - vm_compute. reflexivity.
  - exists w', e. split_and!; [exact Hrun | exact Hshown |].
    rewrite He. vm_compute. reflexivity.
Defined.

(** ** What the display binder leaves alone *)

Section Frame.

Import AppSpec.

Variable R : worldT → worldT → Prop.
Hypothesis R_refl : ∀ w, R w w.
Hypothesis R_trans : ∀ w1 w2 w3, R w1 w2 → R w2 w3 → R w1 w3.
Hypothesis R_dom : ∀ w d, R w (on_page (set_dom d) w).
Hypothesis R_log : ∀ (w : worldT) e, R w (log e w).
Hypothesis R_energy :
  ∀ (w : worldT) x, R w (assignState {[ "initialEnergy" := x ]} w).

Lemma stays_andThen w0 m k :
  stays R w0 m →
  (∀ w1, R w0 w1 → stays R w0 (k w1)) →
  stays R w0 (m >>> k).
Proof. destruct m as [w1|w1|]; simpl; auto. Qed.

Lemma stays_withElement w0 id rhs w :
  R w0 w → stays R w0 (withElement id rhs w).
Proof.
  intros HR. unfold withElement.
  destruct (dom (env w) !! id); [destruct rhs|]; simpl; eauto.
Qed.

Lemma stays_syncInput w0 id x w :
  R w0 w → stays R w0 (syncInput id x w).
Proof.
  intros HR. unfold syncInput.
  destruct (dom (env w) !! id) as [el|]; [|exact HR].
  destruct x as [[| |b|m|a]|]; simpl; eauto.
  destruct (num_eqb _ _); simpl; eauto.
Qed.

Lemma stays_showFixed w0 id v d w :
  R w0 w → stays R w0 (showFixed id v d w).
Proof. apply stays_withElement. Qed.

Section WithCall.

Variable call : listener → addr → addr → string → worldT → outcome worldT.
Hypothesis call_stays : ∀ l p n s w, stays R w (call l p n s w).

Lemma stays_notifyFrom w0 fuel : ∀ i p n s w,
  R w0 w → stays R w0 (notifyFrom call fuel i p n s w).
Proof.
  induction fuel as [|fuel IH]; intros i p n s w HR; [done|]. simpl.
  destruct (listeners w !! i) as [[l|]|]; [| by apply IH | exact HR].
  pose proof (call_stays l p n s (log (Called l p n s) w)) as Hc.
  destruct (call l p n s (log (Called l p n s) w)) as [w1|w1|];
    [apply IH | apply IH | done]; simpl in Hc; eauto.
Qed.

Lemma stays_setState w0 fuel o s w :
  R w0 (assignState o w) → stays R w0 (setState call fuel o s w).
Proof. intros HR. unfold setState, notifyListeners. by apply stays_notifyFrom. Qed.

(** Closes the goals left by sequenced DOM steps. *)
Ltac stays_with tac :=
  repeat first
    [ assumption
    | apply stays_andThen; [|intros ? ?]
    | apply stays_withElement
    | apply stays_syncInput
    | apply stays_showFixed
    | tac
    | match goal with
      | |- stays _ _ (if ?c then _ else _) => destruct c
      | |- stays _ _ (Ret _) => simpl
      | |- stays _ _ (Throw _) => simpl
      end ].

Lemma stays_updateEnergyDisplay w0 fuel w :
  R w0 w → stays R w0 (updateEnergyDisplay call fuel w).
Proof.
  intros HR. unfold updateEnergyDisplay.
  destruct (negb _); [exact HR|]. stays_with fail.
  destruct (getField _ _ "initialEnergy"); stays_with fail.
  apply stays_setState. eauto.
Qed.

Lemma stays_updateAngularDisplay w0 sim w :
  R w0 w → stays R w0 (updateAngularDisplay sim w).
Proof.
  intros HR. unfold updateAngularDisplay.
  repeat (destruct (liveOrInitial _ _ _); [|exact HR]). stays_with fail.
Qed.

Lemma stays_updateParameterDisplays w0 w :
  R w0 w → stays R w0 (updateParameterDisplays w).
Proof. intros HR. unfold updateParameterDisplays. stays_with fail. Qed.

Lemma stays_updateSliderInputs w0 w :
  R w0 w → stays R w0 (updateSliderInputs w).
Proof. intros HR. unfold updateSliderInputs. stays_with fail. Qed.

Lemma stays_updateConnectionStatus w0 c w :
  R w0 w → stays R w0 (updateConnectionStatus c w).
Proof. intros HR. unfold updateConnectionStatus. stays_with fail. Qed.

Lemma stays_updateAllDisplays w0 fuel w :
  R w0 w → stays R w0 (updateAllDisplays call fuel w).
Proof.
  intros HR. unfold updateAllDisplays.
  stays_with ltac:(first
    [ apply stays_updateEnergyDisplay | apply stays_updateAngularDisplay
    | apply stays_updateParameterDisplays | apply stays_updateSliderInputs
    | apply stays_updateConnectionStatus ]).
Qed.

Lemma stays_displayBinder w0 fuel p n s w :
  R w0 w → stays R w0 (displayBinder call fuel p n s w).
Proof.
  intros HR. unfold displayBinder.
  case_decide; [by apply stays_updateAllDisplays | exact HR].
Qed.

End WithCall.

(** The display binder, whatever fuel it is given. *)
Lemma stays_runListener fuel : ∀ l p n s w,
  stays R w (runListener fuel l p n s w).
Proof.
  induction fuel as [|fuel IH]; intros l p n s w; [done|].
  destruct l. simpl. by apply stays_displayBinder.
Qed.

End Frame.

(** ** Trail buffers *)

Section Trails.

Import AppSpec.
#[local] Open Scope nat_scope.















Lemma andThen_Ret (m : outcome worldT) k w' :
  m >>> k = Ret w' → ∃ w1, m = Ret w1 ∧ k w1 = Ret w'.
Proof. destruct m as [w1| |]; simpl; [by eauto | done | done]. Qed.


Lemma shiftIfOver_id (t : list (value * value)) :
  length t ≤ MAX_TRAIL → shiftIfOver t = t.
Proof. intros Hlen. unfold shiftIfOver. case_decide; [lia | done]. Qed.






End Trails.

(** ** The connection monitor as a state machine *)

Section Monitor.

Import AppSpec.
#[local] Open Scope nat_scope.

Lemma same_connection_refl w : same_connection w w.
Proof. by split_and!. Qed.

Lemma same_connection_trans w1 w2 w3 :
  same_connection w1 w2 → same_connection w2 w3 → same_connection w1 w3.
Proof.
  intros (Hn12 & Hh12 & Hc12 & Hi12 & Hr12) (Hn23 & Hh23 & Hc23 & Hi23 & Hr23).
  split_and!; [lia | | by auto | congruence | congruence].
  intros a Ha. rewrite Hh23 by lia. by apply Hh12.
Qed.

(** A merge that does not mention the connection fields. *)
Lemma same_connection_assign (o : obj) (w : worldT) :
  o !! "isConnected" = None → o !! "connectionRetries" = None →
  same_connection w (assignState o w).
Proof.
  intros Hi Hr. unfold same_connection, isConnected, connectionRetries.
  rewrite !StoreFacts.field_assignState, !lookup_union_r by done.
  simpl. split_and!; try done; try lia.
  intros a Ha. by rewrite lookup_insert_ne by lia.
Qed.

Lemma connection_runListener fuel l p n s w :
  stays same_connection w (runListener fuel l p n s w).
Proof.
  apply stays_runListener.
  - apply same_connection_refl.
  - apply same_connection_trans.
  - intros w0 d. by split_and!.
  - intros w0 e. by split_and!.
  - intros w0 x. by apply same_connection_assign.
Qed.

(** What a merge leaves once the listeners have run. *)
Lemma setState_connection fuel fuel' o s (w w' : worldT) :
  setState (runListener fuel) fuel' o s w = Ret w' →
  same_connection (assignState o w) w'.
Proof.
  intros Hrun.
  assert (Hs : stays same_connection (assignState o w) (Ret w')); [|exact Hs].
  rewrite <- Hrun.
  apply (stays_setState same_connection same_connection_refl
           same_connection_trans).
  - intros w0 e. by split_and!.
  - intros l p n s0 w0. apply connection_runListener.
  - apply same_connection_refl.
Qed.

Lemma num_add_ofNat a : num_add (ofNat a) (ofNat 1) = ofNat (S a).
Proof.
  unfold ofNat, num_add, Qplus, inject_Z. simpl. do 2 f_equal. lia.
Qed.

Lemma num_geb_ofNat a b : num_geb (ofNat a) (ofNat b) = (b <=? a).
Proof.
  unfold ofNat, num_geb, Qle_bool, inject_Z. simpl.
  rewrite !Z.mul_1_r.
  destruct (Nat.leb_spec b a); [apply Z.leb_le | apply Z.leb_gt]; lia.
Qed.

(** Reading the snapshot captured before a merge, after the merge and
    its notifications. *)
Lemma stale_read (o : obj) (w w1 : worldT) k :
  cur w < next w → same_connection (assignState o w) w1 →
  getField (heap w1) (cur w) k = field w k.
Proof.
  intros Hcur (_ & Hh & _). unfold field, getField, objAt.
  rewrite Hh by (simpl; lia). simpl. by rewrite lookup_insert_ne by lia.
Qed.

Lemma assign_lookup (o : obj) (w : worldT) k x :
  o !! k = Some x → field (assignState o w) k = x.
Proof.
  intros Hk. by rewrite StoreFacts.field_assignState,
    (StoreFacts.lookup_union_left _ _ _ _ Hk).
Qed.

Lemma assign_other (o : obj) (w : worldT) k :
  o !! k = None → field (assignState o w) k = field w k.
Proof.
  intros Hk. by rewrite StoreFacts.field_assignState, lookup_union_r.
Qed.

(** A failed poll is a [Failure] step of the monitor. *)
Lemma handleConnectionError_monitor fuel (w w' : worldT) c r :
  cur w < next w → connection w = monitored (c, r) →
  handleConnectionError (runListener fuel) fuel w = Ret w' →
  cur w' < next w' ∧ connection w' = monitored (monitor (c, r) Failure).
Proof.
  intros Hcur [= Hc Hr] Hrun. unfold handleConnectionError in Hrun.
  unfold connectionRetries, isConnected, field in Hc, Hr.
  unfold getState in Hrun. rewrite Hr in Hrun. cbn [toNumber] in Hrun.
  rewrite num_add_ofNat in Hrun.
  apply andThen_Ret in Hrun as (w1 & H1 & H2).
  apply setState_connection in H1 as HR1.
  rewrite (stale_read _ _ _ _ Hcur HR1) in H2.
  unfold field in H2. rewrite Hc in H2.
  unfold maxRetries in H2. rewrite num_geb_ofNat in H2. cbn [truthy] in H2.
  destruct HR1 as (_ & _ & Hc1 & Hi1 & Hr1).
  unfold isConnected in Hi1. unfold connectionRetries in Hr1.
  rewrite assign_other in Hi1 by done.
  rewrite (assign_lookup _ _ _ (VNum (ofNat (S r)))) in Hr1
    by apply lookup_singleton_eq.
  unfold monitor, monitored, connection, isConnected, connectionRetries.
  cbn [fst snd].
  destruct (5 <=? S r) eqn:Hge; destruct c; cbn [andb negb] in *.
  - apply setState_connection in H2 as (_ & _ & Hc2 & Hi2 & Hr2).
    unfold isConnected in Hi2. unfold connectionRetries in Hr2.
    rewrite (assign_lookup _ _ _ (VBool false)) in Hi2
      by apply lookup_singleton_eq.
    rewrite assign_other in Hr2 by done.
    split; [apply Hc2; simpl; lia|]. by rewrite Hi2, Hr2, Hr1.
  - injection H2 as <-. split; [apply Hc1; simpl; lia|].
    rewrite Hi1, Hr1. unfold field. by rewrite Hc.
  - injection H2 as <-. split; [apply Hc1; simpl; lia|].
    rewrite Hi1, Hr1. unfold field. by rewrite Hc.
  - injection H2 as <-. split; [apply Hc1; simpl; lia|].
    rewrite Hi1, Hr1. unfold field. by rewrite Hc.
Qed.

(** *** Parsing a body leaves the allocated objects alone *)

Lemma json_nested_ind (P : json → Prop) :
  P JNull → (∀ b, P (JBool b)) → (∀ q, P (JNum q)) →
  (∀ items, Forall P items → P (JArr items)) →
  (∀ members, Forall (λ m, P m.2) members → P (JObj members)) →
  ∀ j, P j.
Proof.
  intros Hnull Hbool Hnum Harr Hobj.
  fix IH 1. intros [|b|q|items|members].
  - exact Hnull.
  - apply Hbool.
  - apply Hnum.
  - apply Harr. induction items as [|j items IHitems]; constructor.
    + apply IH.
    + exact IHitems.
  - apply Hobj. induction members as [|[k j] members IHmembers]; constructor.
    + apply IH.
    + exact IHmembers.
Qed.

Lemma allocItems_extends alloc items :
  Forall (λ j, ∀ h n, extends ((alloc j h n).1.2, (alloc j h n).2) h n) items →
  ∀ i o h n,
    extends ((allocItems alloc i o items h n).1.2,
             (allocItems alloc i o items h n).2) h n.
Proof.
  induction 1 as [|j items Hj _ IH]; intros i o h n; simpl.
  - by split.
  - specialize (Hj h n). destruct (alloc j h n) as [[v h1] n1].
    destruct Hj as [Hle Hsame]. simpl in Hle, Hsame.
    destruct (IH (S i) (<[pretty i := v]> o) h1 n1) as [Hle' Hsame'].
    split; [lia|]. intros a Ha. rewrite Hsame' by lia. by apply Hsame.
Qed.

Lemma allocMembers_extends alloc members :
  Forall (λ m, ∀ h n, extends ((alloc m.2 h n).1.2, (alloc m.2 h n).2) h n)
    members →
  ∀ o h n,
    extends ((allocMembers alloc o members h n).1.2,
             (allocMembers alloc o members h n).2) h n.
Proof.
  induction 1 as [|[k j] members Hj _ IH]; intros o h n; simpl.
  - by split.
  - specialize (Hj h n). simpl in Hj. destruct (alloc j h n) as [[v h1] n1].
    destruct Hj as [Hle Hsame]. simpl in Hle, Hsame.
    destruct (IH (<[k := v]> o) h1 n1) as [Hle' Hsame'].
    split; [lia|]. intros a Ha. rewrite Hsame' by lia. by apply Hsame.
Qed.

Lemma allocJson_extends j : ∀ h n,
  extends ((allocJson j h n).1.2, (allocJson j h n).2) h n.
Proof.
  induction j as [|b|q|items IH|members IH] using json_nested_ind;
    intros h n; simpl; try (by split).
  - pose proof (allocItems_extends allocJson items IH 0 ∅ h n) as [Hle Hsame].
    destruct (allocItems allocJson 0 ∅ items h n) as [[o h1] n1].
    simpl in *. split; simpl; [lia|].
    intros a Ha. rewrite lookup_insert_ne by lia. by apply Hsame.
  - pose proof (allocMembers_extends allocJson members IH ∅ h n)
      as [Hle Hsame].
    destruct (allocMembers allocJson ∅ members h n) as [[o h1] n1].
    simpl in *. split; simpl; [lia|].
    intros a Ha. rewrite lookup_insert_ne by lia. by apply Hsame.
Qed.

Lemma allocJson_nullish j h n :
  nullish (allocJson j h n).1.1 = match j with JNull => true | _ => false end.
Proof.
  destruct j; simpl; try done.
  - by destruct (allocItems _ _ _ _ _ _) as [[o h1] n1].
  - by destruct (allocMembers _ _ _ _ _) as [[o h1] n1].
Qed.

Lemma field_with_heap (w : worldT) h n k :
  h !! cur w = heap w !! cur w → field (with_heap h n w) k = field w k.
Proof. intros Hh. unfold field, getField, objAt. simpl. by rewrite Hh. Qed.

(** A completed poll is a step of the monitor. *)
Lemma pollState_monitor fuel response (w w' : worldT) c r :
  cur w < next w → connection w = monitored (c, r) →
  pollState (runListener fuel) fuel response w = Ret w' →
  cur w' < next w' ∧
  connection w' = monitored (monitor (c, r) (classify response)).
Proof.
  intros Hcur Hconn Hrun. destruct response as [body|];
    [|by apply (handleConnectionError_monitor fuel w)].
  unfold pollState in Hrun.
  pose proof (allocJson_extends body (heap w) (next w)) as [Hle Hsame].
  pose proof (allocJson_nullish body (heap w) (next w)) as Hnull.
  destruct (allocJson body (heap w) (next w)) as [[state h] n].
  simpl in Hle, Hsame, Hnull.
  assert (Hh : h !! cur w = heap w !! cur w) by (by apply Hsame).
  assert (Hconn2 : connection (with_heap h n w) = monitored (c, r)).
  { rewrite <- Hconn. unfold connection, isConnected, connectionRetries.
    by rewrite !field_with_heap. }
  rewrite Hnull in Hrun.
  destruct body as [|b|q|items|members];
    try (apply (handleConnectionError_monitor fuel (with_heap h n w));
         [simpl; lia | exact Hconn2 | exact Hrun]);
    clear Hnull.
  all: injection Hconn as Hc Hr; unfold isConnected in Hc;
       unfold connectionRetries in Hr.
  all: unfold alloc in Hrun; cbn [fst snd with_heap heap next cur] in Hrun.
  all: apply andThen_Ret in Hrun as (w1 & H1 & H2).
  all: apply setState_connection in H1 as HR1.
  all: match type of HR1 with
       | same_connection (assignState ?o ?w4) _ =>
           assert (Hcur4 : cur w4 < next w4) by (simpl; lia);
           assert (Hf4 : ∀ k, field w4 k = field w k)
             by (intros k; unfold field, getField, objAt; simpl;
                 rewrite !lookup_insert_ne by lia; by rewrite Hh);
           pose proof (stale_read o w4 w1 "isConnected" Hcur4 HR1) as Hstale;
           rewrite Hf4, Hc in Hstale;
           change (cur w4) with (cur w) in Hstale;
           destruct HR1 as (_ & _ & Hc1 & Hi1 & Hr1);
           unfold isConnected in Hi1; unfold connectionRetries in Hr1;
           rewrite assign_other, Hf4, Hc in Hi1 by done;
           rewrite assign_other, Hf4, Hr in Hr1 by done
       end.
  all: unfold getState in H2;
       change (cur (with_heap h n w)) with (cur w) in H2;
       rewrite Hstale in H2; cbn [truthy negb] in H2.
  all: unfold classify, monitor, monitored, connection, isConnected,
         connectionRetries; cbn [fst snd].
  all: destruct c; cbn [negb] in H2.
  all: try (injection H2 as <-; split; [apply Hc1; simpl; lia|];
            by rewrite Hi1, Hr1).
  all: apply setState_connection in H2 as (_ & _ & Hc2 & Hi2 & Hr2).
  all: unfold isConnected in Hi2; unfold connectionRetries in Hr2.
  all: rewrite (assign_lookup _ _ _ (VBool true)) in Hi2
         by apply lookup_insert_eq.
  all: rewrite (assign_lookup _ _ _ (VNum (ofNat 0))) in Hr2 by done.
  all: split; [apply Hc2; simpl; lia | by rewrite Hi2, Hr2].
Qed.

(** Every run of completed polls follows the monitor: a failure
    increments the counter and disconnects a connected page once the
    counter reaches 5; a success reconnects a disconnected page and
    resets the counter, and changes nothing on a connected page. *)
Lemma pollAll_monitor fuel responses : ∀ (w w' : worldT) c r,
  cur w < next w → connection w = monitored (c, r) →
  pollAll fuel responses w = Ret w' →
  connection w' = monitored (foldl monitor (c, r) (classify <$> responses)).
Proof.
  induction responses as [|response responses IH];
    intros w w' c r Hcur Hconn Hrun; simpl in Hrun.
  - by injection Hrun as <-.
  - apply andThen_Ret in Hrun as (w1 & Hpoll & Hrest).
    destruct (pollState_monitor _ _ _ _ _ _ Hcur Hconn Hpoll) as [Hcur1 Hconn1].
    simpl. destruct (monitor (c, r) (classify response)) as [c1 r1] eqn:Hm.
    by eapply IH.
Qed.

Lemma monitor_failures_from c r n :
  foldl monitor (c, r) (replicate (S n) Failure)
    = (c && (r + S n <? 5), r + S n).
Proof.
  revert c r. induction n as [|n IH]; intros c r.
  - cbn [replicate foldl]. unfold monitor. cbn [fst snd].
    f_equal; [|lia]. f_equal.
    destruct (Nat.leb_spec 5 (S r)), (Nat.ltb_spec (r + 1) 5);
      simpl; (done || (exfalso; lia)).
  - change (replicate (S (S n)) Failure)
      with (Failure :: replicate (S n) Failure).
    cbn [foldl]. unfold monitor at 2. cbn [fst snd]. rewrite IH.
    f_equal; [|lia].
    destruct c; cbn [andb]; [|done].
    destruct (Nat.leb_spec 5 (S r)), (Nat.ltb_spec (S r + S n) 5),
      (Nat.ltb_spec (r + S (S n)) 5); simpl; (done || (exfalso; lia)).
Qed.

(** On the monitor: from Connected with counter 0, [n] failures in a
    row leave the page connected exactly when [n < 5]. *)
Lemma monitor_failures n :
  foldl monitor (true, 0) (replicate n Failure) = (n <? 5, n).
Proof.
  destruct n as [|n]; [done|]. by rewrite monitor_failures_from.
Qed.

(** On the monitor: a success reconnects a disconnected page at once,
    and leaves the counter of a connected page as it is. *)
Lemma monitor_success c r :
  monitor (c, r) Success = if c then (true, r) else (true, 0).
Proof. by destruct c. Qed.

End Monitor.

End AppFacts.

(** * Further properties of the page *)


(** ** The display binder as a projection *)

Module PageFacts.

Import Store App StoreSpec AppSpec PageSpec Examples PageExamples.
#[local] Open Scope list_scope.
#[local] Open Scope nat_scope.

(** Membership in, and inclusion between, lists given by their
    elements. *)
Ltac listed :=
  first
    [ by apply (bool_decide_unpack _)
    | apply not_elem_of_nil
    | by intros ->%list_elem_of_singleton
    | intros ? ?; rewrite ?elem_of_cons, ?elem_of_nil in *; naive_solver ].

(** The keys of an object literal are among [ks]. *)
Ltac literal_keys :=
  let k := fresh "k" in let x := fresh "x" in let Hx := fresh "Hx" in
  intros k [x Hx];
  repeat (apply lookup_insert_Some in Hx as [[<- _]|[_ Hx]]; [listed|]);
  first [ apply lookup_singleton_Some in Hx as [<- _]; listed
        | by rewrite lookup_empty in Hx ].

Lemma andThen_assoc (m : outcome worldT) k1 k2 :
  m >>> (λ w, k1 w >>> k2) = m >>> k1 >>> k2.
Proof. by destruct m. Qed.

Lemma lands_stays R w0 r : lands R w0 r → stays R w0 r.
Proof. by destruct r. Qed.

Lemma lands_andThen R w0 m k :
  lands R w0 m →
  (∀ w1, R w0 w1 → lands R w0 (k w1)) →
  lands R w0 (m >>> k).
Proof. destruct m as [w1|w1|]; simpl; auto. Qed.

Lemma lands_andThen_from (R1 R : worldT → worldT → Prop) w0 m k :
  lands R1 w0 m →
  (∀ w1, R1 w0 w1 → R w0 w1) →
  (∀ w1, R1 w0 w1 → lands R w0 (k w1)) →
  lands R w0 (m >>> k).
Proof. destruct m as [w1|w1|]; simpl; auto. Qed.

(** A run that lands from a world already related to [w0]. *)
Lemma lands_from (R R' : worldT → worldT → Prop) w0 w1 r :
  (∀ w2, R' w1 w2 → R w0 w2) → lands R' w1 r → lands R w0 r.
Proof. intros HR. destruct r; simpl; auto. Qed.

(** *** Functions that only write to the document *)

Section Document.

Variable R : worldT → worldT → Prop.
Hypothesis R_trans : ∀ w1 w2 w3, R w1 w2 → R w2 w3 → R w1 w3.
Hypothesis R_write :
  ∀ (w : worldT) id el el', dom (env w) !! id = Some el →
    R w (on_page (set_dom (<[id := el']> (dom (env w)))) w).

Lemma lands_withElement w0 id rhs w :
  R w0 w → lands R w0 (withElement id rhs w).
Proof.
  intros HR. unfold withElement.
  destruct (dom (env w) !! id) eqn:Hel; [destruct rhs|]; simpl; eauto.
Qed.

Lemma lands_syncInput w0 id x w :
  R w0 w → lands R w0 (syncInput id x w).
Proof.
  intros HR. unfold syncInput.
  destruct (dom (env w) !! id) as [el|] eqn:Hel; [|exact HR].
  destruct x as [[| |b|m|a]|]; simpl; eauto.
  destruct (num_eqb _ _); simpl; eauto.
Qed.

Lemma lands_showFixed w0 id v d w :
  R w0 w → lands R w0 (showFixed id v d w).
Proof. apply lands_withElement. Qed.

Ltac lands_with tac :=
  repeat first
    [ assumption
    | apply lands_andThen; [|intros ? ?]
    | apply lands_withElement
    | apply lands_syncInput
    | apply lands_showFixed
    | tac
    | match goal with
      | |- lands _ _ (if ?c then _ else _) => destruct c
      | |- lands _ _ (Ret _) => simpl
      | |- lands _ _ (Throw _) => simpl
      end ].

Lemma lands_updateAngularDisplay w0 sim w :
  R w0 w → lands R w0 (updateAngularDisplay sim w).
Proof.
  intros HR. unfold updateAngularDisplay.
  repeat (destruct (liveOrInitial _ _ _); [|exact HR]). lands_with fail.
Qed.

Lemma lands_updateParameterDisplays w0 w :
  R w0 w → lands R w0 (updateParameterDisplays w).
Proof. intros HR. unfold updateParameterDisplays. lands_with fail. Qed.

Lemma lands_updateSliderInputs w0 w :
  R w0 w → lands R w0 (updateSliderInputs w).
Proof. intros HR. unfold updateSliderInputs. lands_with fail. Qed.

Lemma lands_updateConnectionStatus w0 c w :
  R w0 w → lands R w0 (updateConnectionStatus c w).
Proof. intros HR. unfold updateConnectionStatus. lands_with fail. Qed.

(** [updateAllDisplays] after its energy part. *)
Lemma lands_afterEnergy w0 sim c (b : bool) w :
  R w0 w →
  lands R w0
    ((if b then updateAngularDisplay sim w else Ret w) >>>
     updateParameterDisplays >>> updateSliderInputs >>>
     updateConnectionStatus c).
Proof.
  intros HR.
  lands_with ltac:(first
    [ apply lands_updateAngularDisplay | apply lands_updateParameterDisplays
    | apply lands_updateSliderInputs | apply lands_updateConnectionStatus ]).
Qed.

End Document.

(** *** The display binder, whatever the listeners do *)

Section Projection.

Variable R : worldT → worldT → Prop.
Hypothesis R_refl : ∀ w, R w w.
Hypothesis R_trans : ∀ w1 w2 w3, R w1 w2 → R w2 w3 → R w1 w3.
Hypothesis R_write :
  ∀ (w : worldT) id el el', dom (env w) !! id = Some el →
    R w (on_page (set_dom (<[id := el']> (dom (env w)))) w).
Hypothesis R_log : ∀ (w : worldT) e, R w (log e w).
Hypothesis R_energy :
  ∀ (w : worldT) x, R w (assignState {[ "initialEnergy" := x ]} w).

Lemma keeps_andThen w0 m k :
  stays R w0 m →
  (∀ w1, R w0 w1 → stays R w0 (k w1)) →
  stays R w0 (m >>> k).
Proof. destruct m as [w1|w1|]; simpl; auto. Qed.

Lemma keeps_withElement w0 id rhs w :
  R w0 w → stays R w0 (withElement id rhs w).
Proof. intros. by apply lands_stays, lands_withElement. Qed.

Section WithCall.

Variable call : listener → addr → addr → string → worldT → outcome worldT.
Hypothesis call_keeps : ∀ l p n s w, stays R w (call l p n s w).

Lemma keeps_notifyFrom w0 fuel : ∀ i p n s w,
  R w0 w → stays R w0 (notifyFrom call fuel i p n s w).
Proof.
  induction fuel as [|fuel IH]; intros i p n s w HR; [done|]. simpl.
  destruct (listeners w !! i) as [[l|]|]; [| by apply IH | exact HR].
  pose proof (call_keeps l p n s (log (Called l p n s) w)) as Hc.
  destruct (call l p n s (log (Called l p n s) w)) as [w1|w1|];
    [apply IH | apply IH | done]; simpl in Hc; eauto.
Qed.

Lemma keeps_setState w0 fuel o s w :
  R w0 (assignState o w) → stays R w0 (setState call fuel o s w).
Proof. intros HR. unfold setState, notifyListeners. by apply keeps_notifyFrom. Qed.

Lemma keeps_updateEnergyDisplay w0 fuel w :
  R w0 w → stays R w0 (updateEnergyDisplay call fuel w).
Proof.
  intros HR. unfold updateEnergyDisplay.
  destruct (negb _); [exact HR|].
  repeat (apply keeps_andThen; [|intros ? ?]);
    try (apply keeps_withElement; assumption).
  destruct (getField _ _ "initialEnergy"); try assumption.
  apply keeps_setState. eauto.
Qed.

Lemma keeps_updateAllDisplays w0 fuel w :
  R w0 w → stays R w0 (updateAllDisplays call fuel w).
Proof.
  intros HR. unfold updateAllDisplays.
  apply keeps_andThen.
  - destruct (truthy _); [by apply keeps_updateEnergyDisplay | exact HR].
  - intros w1 HR1. apply lands_stays. by apply lands_afterEnergy.
Qed.

Lemma keeps_displayBinder w0 fuel p n s w :
  R w0 w → stays R w0 (displayBinder call fuel p n s w).
Proof.
  intros HR. unfold displayBinder.
  case_decide; [by apply keeps_updateAllDisplays | exact HR].
Qed.

End WithCall.

Lemma keeps_runListener fuel : ∀ l p n s w,
  stays R w (runListener fuel l p n s w).
Proof.
  induction fuel as [|fuel IH]; intros l p n s w; [done|].
  destruct l. simpl. by apply keeps_displayBinder.
Qed.

End Projection.

(** *** The frame relation *)

Lemma changes_only_refl ks objs w : changes_only ks objs w w.
Proof. unfold changes_only. split_and!; auto. Qed.

Lemma changes_only_trans ks objs w1 w2 w3 :
  changes_only ks objs w1 w2 → changes_only ks objs w2 w3 →
  changes_only ks objs w1 w3.
Proof.
  intros (Hn & Hh & Hc & Hf & Hl & Hp & Hd & Hcu)
         (Hn' & Hh' & Hc' & Hf' & Hl' & Hp' & Hd' & Hcu').
  unfold changes_only. split_and!.
  - lia.
  - intros a Ha Hin. rewrite Hh' by (done || lia). by apply Hh.
  - auto.
  - intros k Hk. rewrite Hf' by done. by apply Hf.
  - congruence.
  - congruence.
  - intros id. rewrite Hd'. apply Hd.
  - lia.
Qed.

Lemma changes_only_mono ks ks' objs objs' w w' :
  ks ⊆ ks' → objs ⊆ objs' →
  changes_only ks objs w w' → changes_only ks' objs' w w'.
Proof.
  intros Hks Hobjs (Hn & Hh & Hc & Hf & Hl & Hp & Hd & Hcu).
  unfold changes_only. split_and!; auto.
Qed.

Lemma changes_only_write ks objs (w : worldT) id el el' :
  dom (env w) !! id = Some el →
  changes_only ks objs w (on_page (set_dom (<[id := el']> (dom (env w)))) w).
Proof.
  intros Hel. unfold changes_only. split_and!; simpl; auto.
  intros id'. destruct (decide (id = id')) as [<-|Hne].
  - rewrite lookup_insert_eq, Hel. split; eauto.
  - by rewrite lookup_insert_ne.
Qed.

Lemma changes_only_log ks objs (w : worldT) e :
  changes_only ks objs w (log e w).
Proof. unfold changes_only. split_and!; simpl; auto. Qed.

Lemma changes_only_assign ks objs (o : obj) (w : worldT) :
  (∀ k, is_Some (o !! k) → k ∈ ks) →
  changes_only ks objs w (assignState o w).
Proof.
  intros Ho. unfold changes_only. split_and!; simpl; auto.
  - intros a Ha _. rewrite lookup_insert_ne; [done|lia].
  - intros k Hk. apply AppFacts.assign_other.
    destruct (o !! k) eqn:E; [|done]. exfalso. apply Hk, Ho. eauto.
Qed.

Lemma changes_only_energy ks objs (w : worldT) x :
  "initialEnergy" ∈ ks →
  changes_only ks objs w (assignState {[ "initialEnergy" := x ]} w).
Proof.
  intros Hin. apply changes_only_assign. intros k [y Hy].
  apply lookup_singleton_Some in Hy as [<- _]. done.
Qed.

(** Notifying the subscribers after [setState(o, source)]. *)
Lemma changes_only_setState ks objs fuel o s (w0 w : worldT) :
  "initialEnergy" ∈ ks →
  changes_only ks objs w0 (assignState o w) →
  stays (changes_only ks objs) w0 (setState (runListener fuel) fuel o s w).
Proof.
  intros Hin HR.
  apply (keeps_setState (changes_only ks objs) (changes_only_refl ks objs)
           (changes_only_trans ks objs) (changes_only_log ks objs)); [|done].
  intros l p n s' w1.
  apply (keeps_runListener (changes_only ks objs));
    eauto using changes_only_refl, changes_only_trans, changes_only_write,
      changes_only_log, changes_only_energy.
Qed.

(** *** Steps that leave the store alone *)

Lemma document_only_refl w : document_only w w.
Proof.
  exists (dom (env w)). split; [by destruct w as [? ? ? ? ? []]|done].
Qed.

Lemma document_only_trans w1 w2 w3 :
  document_only w1 w2 → document_only w2 w3 → document_only w1 w3.
Proof.
  intros (d1 & -> & H1) (d2 & -> & H2). exists d2. split; [done|].
  intros id. rewrite H2. apply H1.
Qed.

Lemma document_only_write (w : worldT) id el el' :
  dom (env w) !! id = Some el →
  document_only w (on_page (set_dom (<[id := el']> (dom (env w)))) w).
Proof.
  intros Hel. eexists. split; [done|].
  intros id'. destruct (decide (id = id')) as [<-|Hne].
  - rewrite lookup_insert_eq, Hel. split; eauto.
  - by rewrite lookup_insert_ne.
Qed.

Lemma document_only_projected w w' : document_only w w' → projected w w'.
Proof. intros (d & -> & Hd). unfold projected. split_and!; auto. Qed.

Lemma projected_refl w : projected w w.
Proof. unfold projected. split_and!; auto. Qed.

Lemma projected_trans w1 w2 w3 :
  projected w1 w2 → projected w2 w3 → projected w1 w3.
Proof.
  intros (Hh & Hn & Hc & Hl & Hp & Hd) (Hh' & Hn' & Hc' & Hl' & Hp' & Hd').
  unfold projected. split_and!; try congruence.
  intros id. rewrite Hd'. apply Hd.
Qed.

Lemma projected_log (w : worldT) e : projected w (log e w).
Proof. unfold projected. split_and!; auto. Qed.

Lemma projected_field w w' k : projected w w' → field w' k = field w k.
Proof. intros (Hh & _ & Hc & _). unfold field. by rewrite Hh, Hc. Qed.

Lemma projected_changes_only ks objs w w' :
  projected w w' → changes_only ks objs w w'.
Proof.
  intros HP. pose proof (projected_field w w') as Hf.
  destruct HP as (Hh & Hn & Hc & Hl & Hp & Hd).
  unfold changes_only. split_and!; auto.
  - lia.
  - intros a _ _. by rewrite Hh.
  - intros. lia.
  - intros k _. apply Hf. unfold projected. split_and!; auto.
Qed.

Lemma projected_settled w w' : projected w w' → settled w → settled w'.
Proof.
  intros HP. unfold settled. by rewrite !(projected_field w w') by done.
Qed.

Lemma projected_settles w w' : projected w w' → settles w → settles w'.
Proof.
  intros HP [Hs|Ht]; [left; by eapply projected_settled|right].
  rewrite (projected_field w w') by done.
  by destruct HP as (-> & -> & _).
Qed.

(** *** The display binder on a settled store *)

Lemma updateEnergyDisplay_settled call fuel w0 w :
  field w0 "initialEnergy" ≠ VNull → document_only w0 w →
  lands document_only w0 (updateEnergyDisplay call fuel w).
Proof.
  intros Hie HR. unfold updateEnergyDisplay. cbv zeta.
  destruct (negb _); [exact HR|].
  pose proof (lands_withElement document_only document_only_trans
                document_only_write w0) as Hel.
  apply lands_andThen; [by apply Hel|intros w1 H1].
  apply lands_andThen; [by apply Hel|intros w2 H2].
  apply lands_andThen; [by apply Hel|intros w3 H3].
  assert (Hst : getField (heap w3) (getState w) "initialEnergy"
                = field w0 "initialEnergy").
  { destruct HR as (d & -> & _), H3 as (d3 & -> & _). done. }
  rewrite Hst.
  destruct (field w0 "initialEnergy") eqn:E; try done; simpl; by apply Hel.
Qed.

Lemma updateAllDisplays_settled call fuel w :
  settled w → lands document_only w (updateAllDisplays call fuel w).
Proof.
  intros Hs. unfold updateAllDisplays. cbv zeta.
  apply lands_andThen.
  - destruct (truthy (getField (heap w) (getState w) "latestEnergy")) eqn:E.
    + apply updateEnergyDisplay_settled; [|apply document_only_refl].
      destruct Hs as [H|H]; [done|]. unfold field, getState in *. congruence.
    + apply document_only_refl.
  - intros w1 H1.
    by apply (lands_afterEnergy document_only document_only_trans
                document_only_write).
Qed.

Lemma runListener_settled fuel l p n s w :
  settled w → lands document_only w (runListener (S fuel) l p n s w).
Proof.
  intros Hs. destruct l. simpl. unfold displayBinder.
  case_decide; [by apply updateAllDisplays_settled|apply document_only_refl].
Qed.

Lemma notifyFrom_S (call : listener → addr → addr → string → worldT →
                      outcome worldT) fuel i p n s (w : worldT) :
  notifyFrom call (S fuel) i p n s w =
  match listeners w !! i with
  | None => Ret w
  | Some None => notifyFrom call fuel (S i) p n s w
  | Some (Some l) =>
      match call l p n s (log (Called l p n s) w) with
      | Ret w' => notifyFrom call fuel (S i) p n s w'
      | Throw w' => notifyFrom call fuel (S i) p n s (log (ConsoleError l) w')
      | NoFuel => NoFuel
      end
  end.
Proof. reflexivity. Qed.

(** A notification round on a settled store: every subscriber runs and
    the round returns. *)
Lemma notifyFrom_settled fuel' p n s : ∀ fuel i w,
  settled w → length (listeners w) - i < fuel →
  ∃ w', notifyFrom (runListener (S fuel')) fuel i p n s w = Ret w' ∧
        projected w w'.
Proof.
  induction fuel as [|fuel IH]; intros i w Hs Hlen; [lia|].
  rewrite notifyFrom_S.
  destruct (listeners w !! i) as [[l|]|] eqn:Hi.
  - apply lookup_lt_Some in Hi.
    assert (Hs0 : settled (log (Called l p n s) w)).
    { eapply projected_settled; [apply projected_log|done]. }
    pose proof (runListener_settled fuel' l p n s _ Hs0) as Hrun.
    destruct (runListener (S fuel') l p n s (log (Called l p n s) w))
      as [w1|w1|]; [| |done]; simpl in Hrun;
      apply document_only_projected in Hrun.
    + assert (HP : projected w w1).
      { eapply projected_trans; [apply projected_log|done]. }
      destruct (IH (S i) w1) as (w' & Hr & HP').
      * by eapply projected_settled.
      * destruct HP as (_ & _ & _ & -> & _). lia.
      * exists w'. split; [done|]. by eapply projected_trans.
    + assert (HP : projected w (log (ConsoleError l) w1)).
      { eapply projected_trans; [apply projected_log|].
        eapply projected_trans; [done|apply projected_log]. }
      destruct (IH (S i) (log (ConsoleError l) w1)) as (w' & Hr & HP').
      * by eapply projected_settled.
      * destruct HP as (_ & _ & _ & -> & _). lia.
      * exists w'. split; [done|]. by eapply projected_trans.
  - apply lookup_lt_Some in Hi.
    destruct (IH (S i) w) as (w' & Hr & HP'); [done|lia|]. by exists w'.
  - exists w. split; [done|apply projected_refl].
Qed.

(** *** The display binder on a store that settles *)

Lemma capture_step_refl w : capture_step w w.
Proof. split; [apply changes_only_refl|done]. Qed.

Lemma capture_step_trans w1 w2 w3 :
  capture_step w1 w2 → capture_step w2 w3 → capture_step w1 w3.
Proof.
  intros [H1 S1] [H2 S2]. split; [by eapply changes_only_trans|auto].
Qed.

Lemma projected_capture_step w w' : projected w w' → capture_step w w'.
Proof.
  intros HP. split; [by apply projected_changes_only|].
  by apply projected_settles.
Qed.

Lemma capture_step_write (w : worldT) id el el' :
  dom (env w) !! id = Some el →
  capture_step w (on_page (set_dom (<[id := el']> (dom (env w)))) w).
Proof.
  intros Hel. apply projected_capture_step, document_only_projected.
  by eapply document_only_write.
Qed.

Lemma updateEnergyDisplay_settles fuel' w0 w :
  settles w0 → document_only w0 w → length (listeners w0) ≤ fuel' →
  lands capture_step w0
    (updateEnergyDisplay (runListener (S fuel')) (S fuel') w).
Proof.
  intros Hs HR Hlen. unfold updateEnergyDisplay. cbv zeta.
  assert (Hdoc : ∀ w1, document_only w0 w1 → capture_step w0 w1).
  { intros w1 H1. by apply projected_capture_step, document_only_projected. }
  destruct (negb _) eqn:Hle; [by apply Hdoc|].
  apply negb_false_iff in Hle.
  pose proof (lands_withElement document_only document_only_trans
                document_only_write w0) as Hel.
  pose proof (lands_withElement capture_step capture_step_trans
                capture_step_write w0) as Hel'.
  apply (lands_andThen_from document_only); [by apply Hel|done|intros w1 H1].
  apply (lands_andThen_from document_only); [by apply Hel|done|intros w2 H2].
  apply (lands_andThen_from document_only); [by apply Hel|done|intros w3 H3].
  assert (Hst : ∀ k, getField (heap w3) (getState w) k = field w0 k).
  { destruct HR as (d & -> & _), H3 as (d3 & -> & _). done. }
  assert (Hle0 : truthy (field w0 "latestEnergy") = true).
  { destruct HR as (d & -> & _). exact Hle. }
  rewrite !Hst.
  destruct (field w0 "initialEnergy") eqn:E;
    try (simpl; apply Hel'; by apply Hdoc).
  set (x := getPropOpt (heap w3) (field w0 "latestEnergy") "total").
  assert (Hx : x ≠ VNull).
  { destruct Hs as [[Hs|Hs]|Hs]; [congruence..|].
    unfold x. destruct H3 as (d3 & -> & _). simpl.
    destruct (field w0 "latestEnergy"); try done. simpl. apply Hs. }
  unfold setState, notifyListeners.
  destruct (notifyFrom_settled fuel' (cur w3)
              (cur (assignState {[ "initialEnergy" := x ]} w3))
              "energy_init" (S fuel') 0
              (assignState {[ "initialEnergy" := x ]} w3))
    as (w4 & -> & HP).
  { left. by rewrite (AppFacts.assign_lookup _ _ _ x)
      by apply lookup_singleton_eq. }
  { simpl. destruct H3 as (d3 & -> & _). simpl. lia. }
  simpl. apply Hel'. split.
  - eapply changes_only_trans; [by apply Hdoc|].
    eapply changes_only_trans;
      [apply changes_only_energy; listed|by apply projected_changes_only].
  - intros _. left. left. rewrite (projected_field _ _ _ HP).
    by rewrite (AppFacts.assign_lookup _ _ _ x) by apply lookup_singleton_eq.
Qed.

Lemma updateAllDisplays_settles fuel' w :
  settles w → length (listeners w) ≤ fuel' →
  lands capture_step w (updateAllDisplays (runListener (S fuel')) (S fuel') w).
Proof.
  intros Hs Hlen. unfold updateAllDisplays. cbv zeta.
  apply lands_andThen.
  - destruct (truthy _).
    + apply updateEnergyDisplay_settles; [done|apply document_only_refl|done].
    + apply capture_step_refl.
  - intros w1 H1.
    by apply (lands_afterEnergy capture_step capture_step_trans
                capture_step_write).
Qed.

Lemma runListener_lands fuel l p n s w :
  settles w → length (listeners w) + 2 ≤ fuel →
  lands capture_step w (runListener fuel l p n s w).
Proof.
  intros Hs Hlen. destruct fuel as [|[|fuel']]; [lia..|].
  destruct l. change (runListener (S (S fuel')) DisplayBinder p n s w)
    with (displayBinder (runListener (S fuel')) (S fuel') p n s w).
  unfold displayBinder.
  case_decide; [apply updateAllDisplays_settles; [done|lia]
               |apply capture_step_refl].
Qed.

Lemma capture_step_log (w : worldT) e : capture_step w (log e w).
Proof. apply projected_capture_step, projected_log. Qed.

(** A notification round on a store that settles: every subscriber
    runs and the round returns. *)
Lemma notifyFrom_lands fuel' p n s : ∀ fuel i w,
  settles w → length (listeners w) + 2 ≤ fuel' →
  length (listeners w) - i < fuel →
  ∃ w', notifyFrom (runListener fuel') fuel i p n s w = Ret w' ∧
        capture_step w w'.
Proof.
  induction fuel as [|fuel IH]; intros i w Hs Hf Hlen; [lia|].
  rewrite notifyFrom_S.
  destruct (listeners w !! i) as [[l|]|] eqn:Hi.
  - apply lookup_lt_Some in Hi.
    assert (Hs0 : settles (log (Called l p n s) w)).
    { by apply (capture_step_log w). }
    pose proof (runListener_lands fuel' l p n s _ Hs0 Hf) as Hrun.
    destruct (runListener fuel' l p n s (log (Called l p n s) w))
      as [w1|w1|]; [| |done]; simpl in Hrun.
    + assert (HP : capture_step w w1).
      { eapply capture_step_trans; [apply capture_step_log|done]. }
      assert (Hl : listeners w1 = listeners w) by apply HP.
      destruct (IH (S i) w1) as (w' & Hr & HP').
      * by apply HP.
      * rewrite Hl. lia.
      * rewrite Hl. lia.
      * exists w'. split; [done|]. by eapply capture_step_trans.
    + assert (HP : capture_step w (log (ConsoleError l) w1)).
      { eapply capture_step_trans; [apply capture_step_log|].
        eapply capture_step_trans; [done|apply capture_step_log]. }
      assert (Hl : listeners (log (ConsoleError l) w1) = listeners w)
        by apply HP.
      destruct (IH (S i) (log (ConsoleError l) w1)) as (w' & Hr & HP').
      * by apply HP.
      * rewrite Hl. lia.
      * rewrite Hl. lia.
      * exists w'. split; [done|]. by eapply capture_step_trans.
  - apply lookup_lt_Some in Hi.
    destruct (IH (S i) w) as (w' & Hr & HP'); [done|lia|lia|]. by exists w'.
  - exists w. split; [done|apply capture_step_refl].
Qed.

(** [setState] returns, given fuel for one round over the subscribers
    and the nested round of the capture. *)
Lemma setState_lands fuel o s (w : worldT) :
  settles (assignState o w) → length (listeners w) + 2 ≤ fuel →
  ∃ w', setState (runListener fuel) fuel o s w = Ret w' ∧
        capture_step (assignState o w) w'.
Proof.
  intros Hs Hlen. unfold setState, notifyListeners.
  apply notifyFrom_lands; [done|simpl; lia|simpl; lia].
Qed.

Lemma changes_only_settles ks w w' :
  "initialEnergy" ∉ ks → "latestEnergy" ∉ ks →
  changes_only ks [] w w' → settles w → settles w'.
Proof.
  intros Hie Hle (Hn & Hh & _ & Hf & _) Hs.
  unfold settles, settled in *. rewrite !Hf by done.
  destruct Hs as [Hs|Hs]; [by left|right].
  destruct (field w "latestEnergy") as [| | | |a]; try done.
  destruct Hs as [Ha Ht]. split; [lia|].
  unfold getField, objAt in *. rewrite Hh; [done|done|listed].
Qed.

(** [setState(o, s)] in full: it returns, the fields of [o] hold the
    values given, and apart from them only the baseline may differ. *)
Lemma setState_changes fuel ks o s (w : worldT) :
  "initialEnergy" ∈ ks → (∀ k, is_Some (o !! k) → k ∈ ks) →
  settles (assignState o w) → length (listeners w) + 2 ≤ fuel →
  ∃ w', setState (runListener fuel) fuel o s w = Ret w' ∧
        changes_only ks [] w w' ∧ settles w' ∧
        (∀ k x, o !! k = Some x → k ≠ "initialEnergy" → field w' k = x).
Proof.
  intros Hie Ho Hs Hlen.
  destruct (setState_lands fuel o s w Hs Hlen) as (w' & Hr & [Hc Hs']).
  exists w'. split_and!; [done| |by apply Hs'|].
  - eapply changes_only_trans; [by apply changes_only_assign|].
    eapply changes_only_mono; [| |exact Hc]; [|done].
    by intros k ->%list_elem_of_singleton.
  - intros k x Hk Hne. destruct Hc as (_ & _ & _ & Hf & _).
    rewrite Hf by listed. by apply AppFacts.assign_lookup.
Qed.

(** *** Connection monitor *)

Lemma handleConnectionError_lands fuel (w : worldT) :
  settles w → length (listeners w) + 2 ≤ fuel →
  ∃ w', handleConnectionError (runListener fuel) fuel w = Ret w' ∧
        changes_only ["connectionRetries"; "isConnected"; "initialEnergy"]
          [] w w' ∧
        settles w'.
Proof.
  intros Hs Hlen. unfold handleConnectionError. cbv zeta.
  set (o := {[ "connectionRetries" := _ ]} : obj).
  destruct (setState_changes fuel
              ["connectionRetries"; "isConnected"; "initialEnergy"]
              o "connection_error" w) as (w1 & -> & Hc1 & Hs1 & _).
  { listed. }
  { literal_keys. }
  { eapply (changes_only_settles ["connectionRetries"]); [listed..| |done].
    apply changes_only_assign. literal_keys. }
  { done. }
  simpl. destruct (_ && _); [|by exists w1].
  set (o2 := {[ "isConnected" := _ ]} : obj).
  assert (Hl : listeners w1 = listeners w) by apply Hc1.
  destruct (setState_changes fuel
              ["connectionRetries"; "isConnected"; "initialEnergy"]
              o2 "connection_lost" w1) as (w2 & -> & Hc2 & Hs2 & _).
  { listed. }
  { literal_keys. }
  { eapply (changes_only_settles ["isConnected"]); [listed..| |done].
    apply changes_only_assign. literal_keys. }
  { by rewrite Hl. }
  exists w2. split_and!; [done| |done]. by eapply changes_only_trans.
Qed.

Lemma pollState_failure_lands fuel response (w : worldT) :
  classify response = Failure →
  settles w → length (listeners w) + 2 ≤ fuel →
  ∃ w', pollState (runListener fuel) fuel response w = Ret w' ∧
        changes_only ["connectionRetries"; "isConnected"; "initialEnergy"]
          [] w w' ∧
        settles w'.
Proof.
  intros Hcl Hs Hlen. destruct response as [[| | | |]|]; try done.
  - destruct w as [h n c ls tr e]. by apply handleConnectionError_lands.
  - by apply handleConnectionError_lands.
Qed.

(** *** Parsing a body keeps the heap closed *)

Lemma heap_closed_insert h n o :
  heap_closed h n → obj_closed o (S n) → heap_closed (<[n := o]> h) (S n).
Proof.
  intros [Hfree Hrefs] Ho. split.
  - intros m Hm. rewrite lookup_insert_ne by lia. apply Hfree. lia.
  - intros c k a. unfold getField, objAt.
    destruct (decide (c = n)) as [->|Hne].
    + rewrite lookup_insert_eq. simpl. intros Hk.
      destruct (o !! k) as [x|] eqn:E; [|done]. simpl in Hk. subst x.
      by eapply Ho.
    + rewrite lookup_insert_ne by done. intros Hk.
      specialize (Hrefs c k a Hk). lia.
Qed.

Lemma obj_closed_insert o k v n :
  obj_closed o n → value_closed v n → obj_closed (<[k := v]> o) n.
Proof.
  intros Ho Hv k' a. destruct (decide (k = k')) as [<-|Hne].
  - rewrite lookup_insert_eq. by intros [= ->].
  - rewrite lookup_insert_ne by done. apply Ho.
Qed.

Lemma obj_closed_mono o n n' : obj_closed o n → n ≤ n' → obj_closed o n'.
Proof. intros Ho Hle k a Hk. specialize (Ho k a Hk). lia. Qed.

Lemma value_closed_num n x : value_closed (VNum x) n.
Proof. done. Qed.

Definition alloc_closed (alloc : json → heapT → addr → value * heapT * addr)
    (j : json) : Prop :=
  ∀ h n, heap_closed h n →
    heap_closed (alloc j h n).1.2 (alloc j h n).2 ∧
    value_closed (alloc j h n).1.1 (alloc j h n).2 ∧
    n ≤ (alloc j h n).2.

Lemma allocItems_closed alloc items :
  Forall (alloc_closed alloc) items →
  ∀ i o h n, heap_closed h n → obj_closed o n →
    heap_closed (allocItems alloc i o items h n).1.2
                (allocItems alloc i o items h n).2 ∧
    obj_closed (allocItems alloc i o items h n).1.1
               (allocItems alloc i o items h n).2 ∧
    n ≤ (allocItems alloc i o items h n).2.
Proof.
  induction 1 as [|j items Hj _ IH]; intros i o h n Hh Ho; simpl.
  - by split_and!.
  - specialize (Hj h n Hh). destruct (alloc j h n) as [[v h1] n1].
    simpl in Hj. destruct Hj as (Hh1 & Hv & Hle).
    destruct (IH (S i) (<[pretty i := v]> o) h1 n1) as (Hh2 & Ho2 & Hle2).
    + done.
    + apply obj_closed_insert; [by eapply obj_closed_mono|done].
    + split_and!; [done..|lia].
Qed.

Lemma allocMembers_closed alloc members :
  Forall (λ m, alloc_closed alloc m.2) members →
  ∀ o h n, heap_closed h n → obj_closed o n →
    heap_closed (allocMembers alloc o members h n).1.2
                (allocMembers alloc o members h n).2 ∧
    obj_closed (allocMembers alloc o members h n).1.1
               (allocMembers alloc o members h n).2 ∧
    n ≤ (allocMembers alloc o members h n).2.
Proof.
  induction 1 as [|[k j] members Hj _ IH]; intros o h n Hh Ho; simpl.
  - by split_and!.
  - specialize (Hj h n Hh). simpl in Hj.
    destruct (alloc j h n) as [[v h1] n1].
    simpl in Hj. destruct Hj as (Hh1 & Hv & Hle).
    destruct (IH (<[k := v]> o) h1 n1) as (Hh2 & Ho2 & Hle2).
    + done.
    + apply obj_closed_insert; [by eapply obj_closed_mono|done].
    + split_and!; [done..|lia].
Qed.

Lemma allocJson_closed j : alloc_closed allocJson j.
Proof.
  induction j as [|b|q|items IH|members IH] using AppFacts.json_nested_ind;
    intros h n Hh; simpl; try (by split_and!).
  - pose proof (allocItems_closed allocJson items IH 0 ∅ h n Hh) as Hi.
    destruct (allocItems allocJson 0 ∅ items h n) as [[o h1] n1].
    simpl in *. destruct Hi as (Hh1 & Ho1 & Hle); [done|].
    split_and!; [|lia|lia].
    apply heap_closed_insert; [done|].
    apply obj_closed_insert; [apply (obj_closed_mono o n1); [done|lia]|done].
  - pose proof (allocMembers_closed allocJson members IH ∅ h n Hh) as Hi.
    destruct (allocMembers allocJson ∅ members h n) as [[o h1] n1].
    simpl in *. destruct Hi as (Hh1 & Ho1 & Hle); [done|].
    split_and!; [|lia|lia].
    apply heap_closed_insert; [done|]. apply (obj_closed_mono o n1); [done|lia].
Qed.

(** *** A poll that succeeds *)

(** Lookups in an object literal. *)
Ltac literal_lookup :=
  repeat first
    [ rewrite lookup_insert_eq
    | rewrite lookup_insert_ne by done
    | rewrite lookup_singleton_eq
    | rewrite lookup_singleton_ne by done ].

Lemma changes_only_with_heap ks objs (w : worldT) h n :
  extends (h, n) (heap w) (next w) → cur w < next w →
  changes_only ks objs w (with_heap h n w).
Proof.
  intros [Hle Hsame] Hc. simpl in *.
  unfold changes_only. split_and!; simpl; auto.
  - intros. lia.
  - intros k _. apply AppFacts.field_with_heap. by apply Hsame.
Qed.

Lemma getPropOpt_agree (h h' : heapT) n v k :
  (∀ a, a < n → h' !! a = h !! a) → value_closed v n →
  getPropOpt h' v k = getPropOpt h v k.
Proof.
  intros Hsame Hv. destruct v as [| | | |a]; try done.
  unfold getPropOpt, getProp, getField, objAt. simpl in *.
  by rewrite Hsame.
Qed.

(** Reading [state.g.k] when [state.g] is the object [G]. *)
Lemma readPath_two (w : worldT) g G a k x :
  field w g = VRef a → heap w !! a = Some G → G !! k = Some x →
  readPath (heap w) (VRef (cur w)) [g; k] = x.
Proof.
  intros Hg HG Hk. simpl. unfold getPropOpt at 2, getProp.
  fold (field w g). rewrite Hg. unfold getPropOpt, getProp, getField, objAt.
  simpl. rewrite HG. simpl. by rewrite Hk.
Qed.

Lemma pollState_success_eq call fuel body (w : worldT) :
  pollState call fuel (Some body) w =
  let '(state, h, n) := allocJson body (heap w) (next w) in
  let rd k := getPropOpt h state k in
  if nullish state then handleConnectionError call fuel (with_heap h n w)
  else
    setState call fuel
      {[ "latestCoords" := rd "coords";
         "latestEnergy" := rd "energy";
         "simulationState" := state;
         "parameters" := VRef n;
         "conditions" := VRef (S n) ]}
      "server_update"
      (with_heap
         (<[S n := {[ "theta_1" := rd "theta_1";
                      "theta_2" := rd "theta_2";
                      "omega_1" := rd "omega_1";
                      "omega_2" := rd "omega_2" ]}]>
            (<[n := {[ "length_rod_1" := rd "length_rod_1";
                       "length_rod_2" := rd "length_rod_2";
                       "mass_bob_1" := rd "mass_bob_1";
                       "mass_bob_2" := rd "mass_bob_2";
                       "g" := rd "g" ]}]> h))
         (S (S n)) w) >>> λ w2,
    if negb (truthy (getField (heap w2) (cur w) "isConnected"))
    then setState call fuel
           {[ "isConnected" := VBool true;
              "connectionRetries" := VNum (ofNat 0) ]}
           "connection_recovered" w2
    else Ret w2.
Proof.
  unfold pollState. destruct (allocJson body (heap w) (next w)) as [[st h] n].
  reflexivity.
Qed.

Lemma pollState_success_lands fuel body (w : worldT) :
  classify (Some body) = Success →
  heap_closed (heap w) (next w) → cur w < next w →
  length (listeners w) + 2 ≤ fuel →
  field w "initialEnergy" ≠ VNull
  ∨ parsedPath body w ["energy"; "total"] ≠ VNull →
  ∃ w', pollState (runListener fuel) fuel (Some body) w = Ret w' ∧
        changes_only pollFields [] w w' ∧
        settles w' ∧
        field w' "simulationState" = parsedPath body w [] ∧
        field w' "latestCoords" = parsedPath body w ["coords"] ∧
        field w' "latestEnergy" = parsedPath body w ["energy"] ∧
        (∀ k, k ∈ parameterKeys →
           readPath (heap w') (VRef (cur w')) ["parameters"; k]
           = parsedPath body w [k]) ∧
        (∀ k, k ∈ conditionKeys →
           readPath (heap w') (VRef (cur w')) ["conditions"; k]
           = parsedPath body w [k]) ∧
        truthy (field w' "isConnected") = true.
Proof.
  intros Hcl Hclosed Hcur Hlen Hcap.
  rewrite pollState_success_eq. unfold parsedPath in *.
  pose proof (AppFacts.allocJson_extends body (heap w) (next w)) as Hext.
  pose proof (allocJson_closed body (heap w) (next w) Hclosed) as Hjc.
  pose proof (AppFacts.allocJson_nullish body (heap w) (next w)) as Hnull.
  destruct (allocJson body (heap w) (next w)) as [[st h] n].
  simpl in Hext, Hjc, Hnull, Hcap. cbv zeta.
  destruct Hext as [Hle Hsame]. simpl in Hle, Hsame.
  destruct Hjc as ([Hfree Hrefs] & Hst & _).
  assert (Hnn : nullish st = false) by (rewrite Hnull; by destruct body).
  rewrite Hnn. clear Hnull.
  set (P := ({[ "length_rod_1" := _; "length_rod_2" := _; "mass_bob_1" := _;
                "mass_bob_2" := _; "g" := _ ]} : obj)).
  set (C := ({[ "theta_1" := _; "theta_2" := _; "omega_1" := _;
                "omega_2" := _ ]} : obj)).
  set (o := ({[ "latestCoords" := _; "latestEnergy" := _;
                "simulationState" := _; "parameters" := _;
                "conditions" := _ ]} : obj)).
  set (w1 := with_heap (<[S n := C]> (<[n := P]> h)) (S (S n)) w).
  assert (H01 : ∀ ks, changes_only ks [] w w1).
  { intros ks. apply changes_only_with_heap; [|done]. split; simpl; [lia|].
    intros a Ha. rewrite !lookup_insert_ne by lia. by apply Hsame. }
  assert (Hbelow1 : ∀ a, a < n → heap w1 !! a = h !! a).
  { intros a Ha. unfold w1. simpl. by rewrite !lookup_insert_ne by lia. }
  set (ks1 := ["latestCoords"; "latestEnergy"; "simulationState";
               "parameters"; "conditions"; "initialEnergy"]).
  destruct (setState_changes fuel ks1 o "server_update" w1)
    as (w2 & -> & Hc2 & Hs2 & Hf2).
  { listed. }
  { literal_keys. }
  { unfold settles, settled.
    rewrite (AppFacts.assign_other o w1 "initialEnergy") by done.
    rewrite (AppFacts.assign_lookup o w1 "latestEnergy"
               (getPropOpt h st "energy")) by (unfold o; by literal_lookup).
    assert (Hie : field w1 "initialEnergy" = field w "initialEnergy").
    { apply (H01 []). listed. }
    rewrite Hie.
    destruct Hcap as [Hcap|Hcap]; [by left; left|right].
    destruct (getPropOpt h st "energy") as [| | | |a] eqn:He; try done.
    assert (Ha : a < n).
    { destruct st as [| | | |s]; try done. by apply (Hrefs s "energy"). }
    split; [simpl; lia|].
    intros Hbad. apply Hcap.
    unfold getPropOpt, getProp. simpl. rewrite <- Hbad.
    unfold getField, objAt. simpl.
    rewrite lookup_insert_ne by lia. by rewrite Hbelow1. }
  { done. }
  assert (Hl2 : listeners w2 = listeners w) by (etrans; [apply Hc2|done]).
  assert (Hn12 : S (S n) ≤ next w2) by apply Hc2.
  assert (Hbelow2 : ∀ a, a < S (S n) → heap w2 !! a = heap w1 !! a).
  { intros a Ha. apply Hc2; [done|listed]. }
  assert (Hstale : getField (heap w2) (cur w) "isConnected"
                   = field w "isConnected").
  { unfold field, getField, objAt.
    rewrite Hbelow2, Hbelow1 by lia. by rewrite Hsame. }
  assert (HP : heap w1 !! n = Some P).
  { unfold w1. simpl. rewrite lookup_insert_ne by lia.
    by rewrite lookup_insert_eq. }
  assert (HC : heap w1 !! S n = Some C).
  { unfold w1. simpl. by rewrite lookup_insert_eq. }
  assert (HPk : ∀ k, k ∈ parameterKeys → P !! k = Some (getPropOpt h st k)).
  { intros k Hk. unfold parameterKeys in Hk.
    rewrite !elem_of_cons, elem_of_nil in Hk.
    destruct Hk as [->|[->|[->|[->|[->|[]]]]]]; unfold P; by literal_lookup. }
  assert (HCk : ∀ k, k ∈ conditionKeys → C !! k = Some (getPropOpt h st k)).
  { intros k Hk. unfold conditionKeys in Hk.
    rewrite !elem_of_cons, elem_of_nil in Hk.
    destruct Hk as [->|[->|[->|[->|[]]]]]; unfold C; by literal_lookup. }
  simpl. rewrite Hstale.
  destruct (truthy (field w "isConnected")) eqn:Hconn; simpl.
  - exists w2. split_and!; [done| |done| | | | | |].
    + eapply changes_only_trans; [exact (H01 _)|].
      eapply changes_only_mono; [| |exact Hc2]; [listed|done].
    + apply (Hf2 "simulationState"); [unfold o; by literal_lookup|done].
    + apply (Hf2 "latestCoords"); [unfold o; by literal_lookup|done].
    + apply (Hf2 "latestEnergy"); [unfold o; by literal_lookup|done].
    + intros k Hk.
      apply (readPath_two w2 "parameters" P n); [|by rewrite Hbelow2 by lia|auto].
      apply (Hf2 "parameters"); [unfold o; by literal_lookup|done].
    + intros k Hk.
      apply (readPath_two w2 "conditions" C (S n));
        [|by rewrite Hbelow2 by lia|auto].
      apply (Hf2 "conditions"); [unfold o; by literal_lookup|done].
    + destruct Hc2 as (_ & _ & _ & Hf & _).
      rewrite Hf by listed.
      destruct (H01 []) as (_ & _ & _ & Hf0 & _). rewrite Hf0 by listed. done.
  - set (o2 := ({[ "isConnected" := _; "connectionRetries" := _ ]} : obj)).
    set (ks2 := ["isConnected"; "connectionRetries"; "initialEnergy"]).
    destruct (setState_changes fuel ks2 o2 "connection_recovered" w2)
      as (w3 & -> & Hc3 & Hs3 & Hf3).
    { listed. }
    { literal_keys. }
    { eapply (changes_only_settles ["isConnected"; "connectionRetries"]);
        [listed..| |done].
      apply changes_only_assign. literal_keys. }
    { by rewrite Hl2. }
    assert (Hbelow3 : ∀ a, a < S (S n) → heap w3 !! a = heap w1 !! a).
    { intros a Ha. rewrite <- Hbelow2 by done. apply Hc3; [lia|listed]. }
    assert (Hf23 : ∀ k, k ∉ ks2 → field w3 k = field w2 k) by apply Hc3.
    exists w3. split_and!; [done| |done| | | | | |].
    + eapply changes_only_trans; [exact (H01 _)|].
      eapply changes_only_trans.
      * eapply changes_only_mono; [| |exact Hc2]; [listed|done].
      * eapply changes_only_mono; [| |exact Hc3]; [listed|done].
    + rewrite Hf23 by listed.
      apply (Hf2 "simulationState"); [unfold o; by literal_lookup|done].
    + rewrite Hf23 by listed.
      apply (Hf2 "latestCoords"); [unfold o; by literal_lookup|done].
    + rewrite Hf23 by listed.
      apply (Hf2 "latestEnergy"); [unfold o; by literal_lookup|done].
    + intros k Hk.
      apply (readPath_two w3 "parameters" P n); [|by rewrite Hbelow3 by lia|auto].
      rewrite Hf23 by listed.
      apply (Hf2 "parameters"); [unfold o; by literal_lookup|done].
    + intros k Hk.
      apply (readPath_two w3 "conditions" C (S n));
        [|by rewrite Hbelow3 by lia|auto].
      rewrite Hf23 by listed.
      apply (Hf2 "conditions"); [unfold o; by literal_lookup|done].
    + by rewrite (Hf3 "isConnected" (VBool true))
        by (done || (unfold o2; by literal_lookup)).
Qed.

(** *** What a parsed object holds *)

Lemma allocMembers_lookup k : ∀ ms o h n,
  (member k ms = None →
   (allocMembers allocJson o ms h n).1.1 !! k = o !! k) ∧
  (∀ j x, member k ms = Some j → scalar j = Some x →
   (allocMembers allocJson o ms h n).1.1 !! k = Some x).
Proof.
  induction ms as [|[k' j] ms IH]; intros o h n; simpl.
  - by split.
  - destruct (allocJson j h n) as [[v h1] n1] eqn:Hj.
    destruct (IH (<[k' := v]> o) h1 n1) as [IHnone IHsc].
    destruct (member k ms) as [j'|] eqn:Hm.
    + split; [done|]. intros j0 x [= ->]. by apply IHsc.
    + case_decide as Hk.
      * subst k'. split; [done|]. intros j0 x [= ->] Hx.
        rewrite IHnone by done. rewrite lookup_insert_eq.
        destruct j0; simpl in Hx, Hj; try done;
          injection Hx as <-; by injection Hj as <- _ _.
      * split; [|done]. intros _. rewrite IHnone by done.
        by rewrite lookup_insert_ne.
Qed.

(** A scalar member of a parsed object. *)
Lemma allocJson_member ms k j x h n :
  member k ms = Some j → scalar j = Some x →
  getProp (allocJson (JObj ms) h n).1.2 (allocJson (JObj ms) h n).1.1 k
  = Some x.
Proof.
  intros Hm Hx. simpl.
  pose proof (allocMembers_lookup k ms ∅ h n) as [_ Hsc].
  specialize (Hsc j x Hm Hx).
  destruct (allocMembers allocJson ∅ ms h n) as [[o h1] n1].
  simpl in *. unfold getField, objAt.
  rewrite lookup_insert_eq. simpl. by rewrite Hsc.
Qed.

Lemma parsedPath_member ms k q (w : worldT) :
  member k ms = Some (JNum q) → parsedPath (JObj ms) w [k] = num q.
Proof.
  intros Hm. unfold parsedPath.
  pose proof (allocJson_member ms k (JNum q) (num q) (heap w) (next w)
                Hm eq_refl) as Hp.
  destruct (allocJson (JObj ms) (heap w) (next w)) as [[st h] n].
  simpl in *. unfold getPropOpt. by rewrite Hp.
Qed.

(** *** Runs of failed polls *)

Lemma pollAll_failures_land fuel : ∀ responses (w : worldT) c r,
  Forall (λ x, classify x = Failure) responses →
  settles w → cur w < next w → length (listeners w) + 2 ≤ fuel →
  connection w = monitored (c, r) →
  ∃ w', pollAll fuel responses w = Ret w' ∧
        changes_only ["connectionRetries"; "isConnected"; "initialEnergy"]
          [] w w' ∧
        connection w'
        = monitored (foldl monitor (c, r) (classify <$> responses)).
Proof.
  induction responses as [|x responses IH]; intros w c r Hall Hs Hc Hlen Hconn.
  - exists w. split_and!; [done|apply changes_only_refl|done].
  - inversion Hall as [|? ? Hx Hrest]; subst. simpl.
    destruct (pollState_failure_lands fuel x w Hx Hs Hlen)
      as (w1 & Hr & Hc1 & Hs1).
    destruct (AppFacts.pollState_monitor fuel x w w1 c r Hc Hconn Hr)
      as [Hcur1 Hconn1].
    rewrite Hr. simpl.
    assert (Hl : listeners w1 = listeners w) by apply Hc1.
    destruct (IH w1 (monitor (c, r) (classify x)).1
                    (monitor (c, r) (classify x)).2)
      as (w' & Hr' & Hc' & Hconn').
    { assumption. }
    { exact Hs1. }
    { exact Hcur1. }
    { by rewrite Hl. }
    { rewrite Hconn1. by destruct (monitor (c, r) (classify x)). }
    exists w'. split_and!; [done|by eapply changes_only_trans|].
    rewrite Hconn'. by destruct (monitor (c, r) (classify x)).
Qed.

(** *** Results *)

(** X1: one run of the display binder, for any notification, in any
    state and with any fuel, leaves every existing object of the heap
    as it is, keeps the listeners, the timers, the requests sent, the
    trail buffers and the clock, writes only to elements that exist, and
    can change no field of the state other than [initialEnergy]. *)
Theorem display_binder_changes_only_baseline fuel p n s (w : worldT) :
  stays (changes_only ["initialEnergy"] []) w
    (runListener fuel DisplayBinder p n s w).
Proof.
  apply (keeps_runListener (changes_only ["initialEnergy"] []));
    eauto using changes_only_refl, changes_only_trans, changes_only_write,
      changes_only_log.
  intros w1 x. apply changes_only_energy. listed.
Qed.

(** X2: [setState(o, s)] returns whenever the total of the energy
    reading in the merged state is not [null] (or the baseline is
    captured, or there is no reading), given fuel for one round over the
    subscribers and the nested round of the capture.  The state it
    leaves is the merge [{...state, ...o}] up to [initialEnergy]: the
    notification round changes nothing else, and the store it leaves
    settles again. *)
Theorem setState_returns_merged_state fuel o s (w : worldT) :
  settles (assignState o w) → length (listeners w) + 2 ≤ fuel →
  ∃ w', setState (runListener fuel) fuel o s w = Ret w' ∧
        changes_only ["initialEnergy"] [] (assignState o w) w' ∧
        settles w' ∧
        (∀ k x, o !! k = Some x → k ≠ "initialEnergy" → field w' k = x) ∧
        (∀ k, o !! k = None → k ≠ "initialEnergy" → field w' k = field w k).
Proof.
  intros Hs Hlen.
  destruct (setState_lands fuel o s w Hs Hlen) as (w' & Hr & [Hc Hs']).
  exists w'. split_and!; [done|done|by apply Hs'| |].
  - intros k x Hk Hne. destruct Hc as (_ & _ & _ & Hf & _).
    rewrite Hf by listed. by apply AppFacts.assign_lookup.
  - intros k Hk Hne. destruct Hc as (_ & _ & _ & Hf & _).
    rewrite Hf by listed. by apply AppFacts.assign_other.
Qed.

Lemma setState_returns_merged_state_witness :
  ∃ w', setState (runListener 3) 3 {[ "latestEnergy" := VRef 4 ]}
          "server_update" pageWithReading = Ret w' ∧
        changes_only ["initialEnergy"] []
          (assignState {[ "latestEnergy" := VRef 4 ]} pageWithReading) w' ∧
        settles w' ∧
        (∀ k x, ({[ "latestEnergy" := VRef 4 ]} : obj) !! k = Some x →
                k ≠ "initialEnergy" → field w' k = x) ∧
        (∀ k, ({[ "latestEnergy" := VRef 4 ]} : obj) !! k = None →
              k ≠ "initialEnergy" → field w' k = field pageWithReading k).
Proof.
  apply (setState_returns_merged_state 3 {[ "latestEnergy" := VRef 4 ]}
           "server_update" pageWithReading).
  - right. vm_compute. split; [lia|discriminate].
  - vm_compute. lia.
Defined.

(** X3: once the baseline is captured, or while there is no energy
    reading, [setState(o, s)] returns with exactly the merged state:
    the subscribers write to the document and the console only. *)
Theorem setState_on_settled_store_is_exact fuel o s (w : worldT) :
  settled (assignState o w) → length (listeners w) < fuel →
  ∃ w', setState (runListener fuel) fuel o s w = Ret w' ∧
        projected (assignState o w) w'.
Proof.
  intros Hs Hlen. destruct fuel as [|fuel']; [lia|].
  unfold setState, notifyListeners.
  apply notifyFrom_settled; [done|simpl; lia].
Qed.

Lemma setState_on_settled_store_is_exact_witness :
  ∃ w', setState (runListener 2) 2 {[ "isPaused" := VBool true ]}
          "pause_toggle" (stateManager smallPage) = Ret w' ∧
        projected
          (assignState {[ "isPaused" := VBool true ]} (stateManager smallPage))
          w'.
Proof.
  apply (setState_on_settled_store_is_exact 2 {[ "isPaused" := VBool true ]}
           "pause_toggle" (stateManager smallPage)).
  - right. vm_compute. reflexivity.
  - vm_compute. lia.
Defined.

(** X4: a poll that fails (the request fails, the status is not ok, the
    body does not parse, or the body is [null]) returns, advances the
    connection monitor by one failure, and keeps the data: no field of
    the state other than [connectionRetries], [isConnected] and
    [initialEnergy] changes, no existing object is touched, and the
    timers, requests and trails stay as they are. *)
Theorem failed_poll_keeps_the_data fuel response (w : worldT) c r :
  classify response = Failure →
  settles w → cur w < next w → length (listeners w) + 2 ≤ fuel →
  connection w = monitored (c, r) →
  ∃ w', pollState (runListener fuel) fuel response w = Ret w' ∧
        changes_only ["connectionRetries"; "isConnected"; "initialEnergy"]
          [] w w' ∧
        connection w' = monitored (monitor (c, r) Failure).
Proof.
  intros Hx Hs Hc Hlen Hconn.
  destruct (pollState_failure_lands fuel response w Hx Hs Hlen)
    as (w1 & Hr & Hc1 & Hs1).
  destruct (AppFacts.pollState_monitor fuel response w w1 c r Hc Hconn Hr)
    as [_ Hconn1].
  exists w1. split_and!; [done..|]. by rewrite Hconn1, Hx.
Qed.

Lemma failed_poll_keeps_the_data_witness :
  ∃ w', pollState (runListener 3) 3 (Some JNull) connectedPage = Ret w' ∧
        changes_only ["connectionRetries"; "isConnected"; "initialEnergy"]
          [] connectedPage w' ∧
        connection w' = monitored (monitor (true, 0) Failure).
Proof.
  apply (failed_poll_keeps_the_data 3 (Some JNull) connectedPage true 0).
  - reflexivity.
  - left. right. vm_compute. reflexivity.
  - vm_compute. lia.
  - vm_compute. lia.
  - vm_compute. reflexivity.
Defined.

(** X5: from a connected page with no failure counted, [n] failed
    polls in a row return with [connectionRetries = n] and with
    [isConnected] true exactly while [n < 5]; nothing but the monitor
    fields and [initialEnergy] changes on the way. *)
Theorem connection_is_lost_at_the_fifth_failure fuel n (w : worldT) :
  settles w → cur w < next w → length (listeners w) + 2 ≤ fuel →
  connection w = monitored (true, 0) →
  ∃ w', pollAll fuel (replicate n None) w = Ret w' ∧
        connection w' = (VBool (n <? 5), VNum (ofNat n)) ∧
        changes_only ["connectionRetries"; "isConnected"; "initialEnergy"]
          [] w w'.
Proof.
  intros Hs Hc Hlen Hconn.
  destruct (pollAll_failures_land fuel (replicate n None) w true 0)
    as (w' & Hr & Hc' & Hconn'); [|done..|].
  { apply Forall_replicate. reflexivity. }
  exists w'. split_and!; [done| |done].
  rewrite Hconn', fmap_replicate. simpl.
  by rewrite AppFacts.monitor_failures.
Qed.

Lemma connection_is_lost_at_the_fifth_failure_witness :
  ∃ w', pollAll 3 (replicate 5 None) connectedPage = Ret w' ∧
        connection w' = (VBool (5 <? 5), VNum (ofNat 5)) ∧
        changes_only ["connectionRetries"; "isConnected"; "initialEnergy"]
          [] connectedPage w'.
Proof.
  apply (connection_is_lost_at_the_fifth_failure 3 5 connectedPage).
  - left. right. vm_compute. reflexivity.
  - vm_compute. lia.
  - vm_compute. lia.
  - vm_compute. reflexivity.
Defined.

(** X6: a poll answered with a JSON object returns, given a closed
    heap and a reading whose total is not [null] (or a captured
    baseline).  Afterwards [parameters] and [conditions] are fresh
    objects holding the numbers the server sent, whatever was edited
    locally before; [latestEnergy] and [latestCoords] are the body's;
    the page counts as connected; and nothing but the fields a poll owns
    and [initialEnergy] has changed: no timer, request or trail point. *)
Theorem successful_poll_installs_server_values fuel ms (w : worldT) :
  heap_closed (heap w) (next w) → cur w < next w →
  length (listeners w) + 2 ≤ fuel →
  field w "initialEnergy" ≠ VNull
  ∨ parsedPath (JObj ms) w ["energy"; "total"] ≠ VNull →
  ∃ w', pollState (runListener fuel) fuel (Some (JObj ms)) w = Ret w' ∧
        changes_only pollFields [] w w' ∧
        (∀ k q, k ∈ parameterKeys → member k ms = Some (JNum q) →
           readPath (heap w') (VRef (cur w')) ["parameters"; k] = num q) ∧
        (∀ k q, k ∈ conditionKeys → member k ms = Some (JNum q) →
           readPath (heap w') (VRef (cur w')) ["conditions"; k] = num q) ∧
        field w' "latestEnergy" = parsedPath (JObj ms) w ["energy"] ∧
        field w' "latestCoords" = parsedPath (JObj ms) w ["coords"] ∧
        truthy (field w' "isConnected") = true.
Proof.
  intros Hclosed Hc Hlen Hcap.
  destruct (pollState_success_lands fuel (JObj ms) w)
    as (w' & Hr & Hc' & _ & _ & Hco & Hen & Hp & Hcd & Hconn); [done..|].
  exists w'. split_and!; [done|done| | |done|done|done].
  - intros k q Hk Hm. rewrite Hp by done. by apply parsedPath_member.
  - intros k q Hk Hm. rewrite Hcd by done. by apply parsedPath_member.
Qed.

Lemma successful_poll_installs_server_values_witness :
  ∃ w', pollState (runListener 3) 3 (Some (JObj stateMembers))
          (stateManager smallPage) = Ret w' ∧
        changes_only pollFields [] (stateManager smallPage) w' ∧
        (∀ k q, k ∈ parameterKeys → member k stateMembers = Some (JNum q) →
           readPath (heap w') (VRef (cur w')) ["parameters"; k] = num q) ∧
        (∀ k q, k ∈ conditionKeys → member k stateMembers = Some (JNum q) →
           readPath (heap w') (VRef (cur w')) ["conditions"; k] = num q) ∧
        field w' "latestEnergy"
        = parsedPath (JObj stateMembers) (stateManager smallPage) ["energy"] ∧
        field w' "latestCoords"
        = parsedPath (JObj stateMembers) (stateManager smallPage) ["coords"] ∧
        truthy (field w' "isConnected") = true.
Proof.
  apply (successful_poll_installs_server_values 3 stateMembers
           (stateManager smallPage)).
  - exact StoreFacts.initialHeap_closed.
  - vm_compute. lia.
  - vm_compute. lia.
  - right. vm_compute. discriminate.
Defined.

End PageFacts.

(** * Further properties of the store *)


Module StoreEdgeFacts.

Import Store StoreSpec StoreEdgeSpec Examples.
#[local] Open Scope list_scope.
#[local] Open Scope nat_scope.

(** ** Paths *)

Lemma split_dot_nonempty s : split_dot s ≠ [].
Proof.
  destruct s as [|c r]; simpl; [done|].
  destruct (Ascii.eqb c "."); [done|]. by destruct (split_dot r).
Qed.

Lemma join_dot_cons k k' ks :
  join_dot (k :: k' :: ks) = (k ++ "." ++ join_dot (k' :: ks))%string.
Proof. reflexivity. Qed.

Lemma join_dot_push c k ks :
  join_dot (String c k :: ks) = String c (join_dot (k :: ks)).
Proof. by destruct ks. Qed.

Lemma join_split_dot s : join_dot (split_dot s) = s.
Proof.
  induction s as [|c r IH]; [done|].
  pose proof (split_dot_nonempty r) as Hne.
  cbn [split_dot]. destruct (Ascii.eqb c ".") eqn:Hc.
  - apply Ascii.eqb_eq in Hc as ->.
    destruct (split_dot r) as [|k ks]; [done|].
    rewrite join_dot_cons, IH. done.
  - destruct (split_dot r) as [|k ks]; [done|].
    by rewrite join_dot_push, IH.
Qed.

Lemma split_dot_dotless s : Forall (λ k, dotless k = true) (split_dot s).
Proof.
  induction s as [|c r IH]; simpl; [by constructor|].
  destruct (Ascii.eqb c ".") eqn:Hc; [by constructor|].
  pose proof (split_dot_nonempty r) as Hne.
  destruct (split_dot r) as [|k ks]; [done|].
  apply Forall_cons in IH as [Hk Hks]. constructor; [|done].
  simpl. by rewrite Hc, Hk.
Qed.

Lemma split_dot_segment k : dotless k = true → split_dot k = [k].
Proof.
  induction k as [|c r IH]; [done|]. simpl.
  intros [Hc Hr]%andb_true_iff. apply negb_true_iff in Hc.
  rewrite Hc, IH by done. done.
Qed.

Lemma split_dot_app k r :
  dotless k = true → split_dot (k ++ "." ++ r)%string = k :: split_dot r.
Proof.
  induction k as [|c k IH]; [done|]. simpl.
  intros [Hc Hk]%andb_true_iff. apply negb_true_iff in Hc.
  rewrite Hc. simpl in IH. by rewrite IH.
Qed.

Lemma split_join_dot ks :
  ks ≠ [] → Forall (λ k, dotless k = true) ks → split_dot (join_dot ks) = ks.
Proof.
  induction ks as [|k ks IH]; [done|]. intros _ [Hk Hks]%Forall_cons.
  destruct ks as [|k' ks].
  - simpl. by apply split_dot_segment.
  - rewrite join_dot_cons, split_dot_app by done. by rewrite IH.
Qed.






Section Throws.

Context {L E : Type} `{EqDecision L}.
Variable call : L → addr → addr → string → @world L E → outcome (@world L E).



End Throws.


(** X8: a path and its list of segments determine each other:
    [path.split(".")] is never empty, its segments hold no dot, and
    joining them with dots gives the path back. *)
Theorem split_dot_round_trip path :
  split_dot path ≠ [] ∧
  Forall (λ k, dotless k = true) (split_dot path) ∧
  join_dot (split_dot path) = path.
Proof.
  split_and!; [apply split_dot_nonempty|apply split_dot_dotless
              |apply join_split_dot].
Qed.

(** X9: every non-empty list of dot-free segments is the split of the
    path that joins them, so [updateState] walks exactly these
    segments. *)
Theorem join_dot_round_trip ks :
  ks ≠ [] → Forall (λ k, dotless k = true) ks →
  split_dot (join_dot ks) = ks.
Proof. apply split_join_dot. Qed.

Lemma join_dot_round_trip_witness :
  split_dot (join_dot ["parameters"; ""; "g"]) = ["parameters"; ""; "g"].
Proof.
  apply (join_dot_round_trip ["parameters"; ""; "g"]); [done|].
  repeat constructor.
Defined.

(** ** The listener set *)

Section Listeners.

Context {L E : Type} `{EqDecision L}.
Variable call : L → addr → addr → string → @world L E → outcome (@world L E).

Lemma notifyFrom_live p n s :
  observers call →
  ∀ fuel i (w : @world L E),
    length (listeners w) - i < fuel →
    ∃ w', notifyFrom call fuel i p n s w = Ret w' ∧
          calls (trace w') =
            calls (trace w) ++
            ((λ l, (l, p, n, s)) <$> omap id (drop i (listeners w))) ∧
          heap w' = heap w ∧ next w' = next w ∧ cur w' = cur w ∧
          listeners w' = listeners w.
Proof.
  intros Hobs. induction fuel as [|fuel IH]; intros i w Hlen; [lia|]. simpl.
  destruct (listeners w !! i) as [[l|]|] eqn:Hi.
  - rewrite (drop_S _ _ _ Hi). apply lookup_lt_Some in Hi.
    destruct (Hobs l p n s (log (Called l p n s) w))
      as (w1 & Hcall & Hl1 & Ht1 & Hh1 & Hn1 & Hc1).
    simpl in Hl1, Ht1, Hh1, Hn1, Hc1.
    destruct Hcall as [Hcall|Hcall]; rewrite Hcall.
    + destruct (IH (S i) w1) as (w' & Hr & Hc & Hh & Hn & Hcu & Hl).
      { rewrite Hl1. lia. }
      exists w'. split; [done|]. split.
      { rewrite Hc, Ht1, Hl1, StoreFacts.calls_app. simpl.
        by rewrite <- app_assoc. }
      by rewrite Hh, Hn, Hcu, Hl, Hh1, Hn1, Hc1, Hl1.
    + destruct (IH (S i) (log (ConsoleError l) w1))
        as (w' & Hr & Hc & Hh & Hn & Hcu & Hl).
      { simpl. rewrite Hl1. lia. }
      exists w'. split; [done|]. split.
      { rewrite Hc. simpl. rewrite Ht1, Hl1, !StoreFacts.calls_app. simpl.
        rewrite app_nil_r. by rewrite <- app_assoc. }
      simpl in *. by rewrite Hh, Hn, Hcu, Hl, Hh1, Hn1, Hc1, Hl1.
  - rewrite (drop_S _ _ _ Hi). apply lookup_lt_Some in Hi.
    destruct (IH (S i) w) as (w' & Hr & Hc & Hrest); [lia|].
    exists w'. by split.
  - apply lookup_ge_None in Hi. rewrite drop_ge by done. simpl.
    exists w. rewrite app_nil_r. by split_and!.
Qed.

Lemma live_map_delete (l : L) (ls : list (option L)) :
  omap id (map (λ e, if decide (e = Some l) then None else e) ls)
  = filter (λ l', l' ≠ l) (omap id ls).
Proof.
  unfold omap. induction ls as [|[l'|] ls IH]; simpl; [done| |].
  - case_decide as Heq.
    + injection Heq as ->. simpl. by rewrite filter_cons_False by auto.
    + simpl. rewrite filter_cons_True by congruence. by rewrite IH.
  - try (case_decide; [done|]). exact IH.
Qed.

Lemma elem_of_live (l : L) (ls : list (option L)) :
  l ∈ omap id ls ↔ Some l ∈ ls.
Proof.
  rewrite list_elem_of_omap. split.
  - intros (y & Hy & Hid). simpl in Hid. by subst y.
  - intros Hin. by exists (Some l).
Qed.

(** X10: [setState] calls every listener that is in the set when the
    round starts, once and in insertion order, also after removals;
    listeners that only observe leave the store as [setState] made
    it. *)
Theorem notification_reaches_the_live_listeners
    fuel o s (w : @world L E) :
  observers call → length (listeners w) < fuel →
  ∃ w', setState call fuel o s w = Ret w' ∧
        calls (trace w') =
          calls (trace w) ++ ((λ l, (l, cur w, cur w', s)) <$> live w) ∧
        heap w' = heap (assignState o w) ∧ cur w' = cur (assignState o w) ∧
        listeners w' = listeners w.
Proof.
  intros Hobs Hlen. unfold setState, notifyListeners.
  destruct (notifyFrom_live (cur w) (cur (assignState o w)) s Hobs fuel 0
              (assignState o w))
    as (w' & Hr & Hc & Hh & Hn & Hcu & Hl); [simpl; lia|].
  exists w'. split; [done|]. rewrite Hcu. by split_and!.
Qed.

(** X11: the listeners form a set kept in insertion order: subscribing
    a listener that is already in the set changes nothing, a new one
    goes last; the function [subscribe] returns removes exactly that
    listener; and a set without repetition stays so. *)
Theorem listeners_behave_as_an_ordered_set (l : L) (w : @world L E) :
  live (subscribe l w)
  = (if decide (l ∈ live w) then live w else live w ++ [l]) ∧
  live (unsubscribe l w) = filter (λ l', l' ≠ l) (live w) ∧
  (NoDup (live w) →
   NoDup (live (subscribe l w)) ∧ NoDup (live (unsubscribe l w))).
Proof.
  assert (Hsub : live (subscribe l w)
                 = if decide (l ∈ live w) then live w else live w ++ [l]).
  { unfold live, subscribe.
    destruct (decide (Some l ∈ listeners w)) as [Hin|Hnin].
    - rewrite decide_True; [done|]. by apply elem_of_live.
    - rewrite decide_False by (by rewrite elem_of_live).
      simpl. by rewrite omap_app. }
  assert (Hun : live (unsubscribe l w) = filter (λ l', l' ≠ l) (live w)).
  { unfold live, unsubscribe. simpl. apply live_map_delete. }
  split_and!; [done|done|]. intros Hnd. split.
  - rewrite Hsub. case_decide as Hin; [done|].
    apply NoDup_app. split_and!; [done| |apply NoDup_singleton].
    intros x Hx ->%list_elem_of_singleton. done.
  - rewrite Hun. by apply NoDup_filter.
Qed.

End Listeners.

Lemma notification_reaches_the_live_listeners_witness :
  ∃ w', setState probe 4 {[ "fps" := VNum (Fin 60) ]} "fps_update"
          (unsubscribe 1 (subscribeAll [0; 1; 2] emptyStore)) = Ret w' ∧
        calls (trace w') =
          calls (trace (unsubscribe 1 (subscribeAll [0; 1; 2] emptyStore))) ++
          ((λ l, (l, cur (unsubscribe 1 (subscribeAll [0; 1; 2] emptyStore)),
                  cur w', "fps_update"))
             <$> live (unsubscribe 1 (subscribeAll [0; 1; 2] emptyStore))) ∧
        heap w' = heap (assignState {[ "fps" := VNum (Fin 60) ]}
                          (unsubscribe 1 (subscribeAll [0; 1; 2] emptyStore))) ∧
        cur w' = cur (assignState {[ "fps" := VNum (Fin 60) ]}
                        (unsubscribe 1 (subscribeAll [0; 1; 2] emptyStore))) ∧
        listeners w'
        = listeners (unsubscribe 1 (subscribeAll [0; 1; 2] emptyStore)).
Proof.
  apply (notification_reaches_the_live_listeners probe 4
           {[ "fps" := VNum (Fin 60) ]} "fps_update"
           (unsubscribe 1 (subscribeAll [0; 1; 2] emptyStore))).
  - exact StoreFacts.probe_observers.
  - vm_compute. lia.
Defined.

End StoreEdgeFacts.

(** * The control buttons *)


Module ControlFacts.

Import Store App StoreSpec AppSpec PageSpec StoreEdgeSpec Controls.
Import ControlSpec Examples PageExamples.
#[local] Open Scope list_scope.
#[local] Open Scope nat_scope.

Ltac listed := PageFacts.listed.
Ltac literal_keys := PageFacts.literal_keys.
Ltac literal_lookup := PageFacts.literal_lookup.

(** ** Writing through a two-segment path *)

Lemma updateState_nested {L E : Type}
    (call : L → addr → addr → string → @world L E → outcome (@world L E))
    fuel g k v (w : @world L E) a path :
  split_dot path = [g; k] → field w g = VRef a → a ≠ next w →
  updateState call fuel path v w =
  setState call fuel (stateObj w) ("update:" ++ path)
    (with_heap
       (<[a := <[k := v]> (objAt (heap w) a)]>
          (<[next w := stateObj w]> (heap w)))
       (S (next w)) w).
Proof.
  intros Hsplit Hg Ha. unfold updateState, updateState_walk.
  rewrite Hsplit, StoreFacts.assignPath_step.
  assert (Hk : getField (<[next w := stateObj w]> (heap w)) (next w) g
               = VRef a).
  { unfold getField, objAt. rewrite lookup_insert_eq. exact Hg. }
  rewrite Hk. simpl. unfold setField.
  assert (Ho : objAt (<[next w := stateObj w]> (heap w)) a
               = objAt (heap w) a).
  { unfold objAt. by rewrite lookup_insert_ne. }
  rewrite Ho. f_equal. unfold objAt. simpl.
  rewrite lookup_insert_ne by done. by rewrite lookup_insert_eq.
Qed.

Lemma updateState_nested_lands fuel g k v (w : worldT) a path :
  split_dot path = [g; k] → field w g = VRef a →
  a < next w → a ≠ cur w → cur w < next w →
  settles w → length (listeners w) + 2 ≤ fuel →
  ∃ w', updateState (runListener fuel) fuel path (VNum v) w = Ret w' ∧
        changes_only ["initialEnergy"] [a] w w' ∧
        heap w' !! a = Some (<[k := VNum v]> (objAt (heap w) a)) ∧
        settles w'.
Proof.
  intros Hsplit Hg Ha Hac Hcur Hs Hlen.
  rewrite (updateState_nested _ fuel g k (VNum v) w a path) by (done || lia).
  set (w1 := with_heap _ _ w).
  assert (Hobj : stateObj w1 = stateObj w).
  { unfold stateObj, objAt, w1. simpl.
    by rewrite !lookup_insert_ne by (done || lia). }
  assert (Hfield : ∀ k', field (assignState (stateObj w) w1) k' = field w k').
  { intros k'. rewrite StoreFacts.field_assignState, Hobj.
    unfold field, getField. unfold stateObj.
    rewrite lookup_union. by destruct (objAt (heap w) (cur w) !! k'). }
  assert (Hheap : ∀ b, b < next w → b ≠ a →
            heap (assignState (stateObj w) w1) !! b = heap w !! b).
  { intros b Hb Hba. unfold w1. simpl.
    by rewrite !lookup_insert_ne by (done || lia). }
  assert (Hata : heap (assignState (stateObj w) w1) !! a
                 = Some (<[k := VNum v]> (objAt (heap w) a))).
  { unfold w1. simpl. rewrite lookup_insert_ne by lia.
    by rewrite lookup_insert_eq. }
  assert (Hs1 : settles (assignState (stateObj w) w1)).
  { unfold settles, settled. rewrite !Hfield.
    destruct Hs as [Hs|Hs]; [by left|right].
    destruct (field w "latestEnergy") as [| | | |e]; try done.
    destruct Hs as [He Ht]. split; [simpl; lia|].
    unfold getField, objAt. destruct (decide (e = a)) as [->|Hea].
    - rewrite Hata. simpl. destruct (decide (k = "total")) as [->|Hk].
      + by rewrite lookup_insert_eq.
      + rewrite lookup_insert_ne by done. exact Ht.
    - rewrite Hheap by done. exact Ht. }
  destruct (PageFacts.setState_lands fuel (stateObj w) ("update:" ++ path)
              w1 Hs1) as (w' & Hr & [Hc Hs']); [done|].
  exists w'. split_and!; [done| | |by apply Hs'].
  - apply (PageFacts.changes_only_trans _ _ w
             (assignState (stateObj w) w1) w').
    + unfold changes_only. split_and!.
      * unfold w1. simpl. lia.
      * intros b Hb Hba. apply Hheap; [done|].
        intros ->. apply Hba. by apply list_elem_of_singleton.
      * intros _. unfold w1. simpl. lia.
      * intros k' _. apply Hfield.
      * done.
      * done.
      * done.
      * right. unfold w1. simpl. lia.
    + eapply PageFacts.changes_only_mono; [| |exact Hc]; [done|].
      intros x Hx. by apply elem_of_nil in Hx.
  - destruct Hc as (_ & Hh & _).
    rewrite Hh; [done|unfold w1; simpl; lia|listed].
Qed.

(** ** Writes to one element *)

Lemma withElement_returns id f (w : worldT) :
  ∃ w', withElement id (Some f) w = Ret w' ∧ document_only w w' ∧
        dom (env w') !! id = f <$> dom (env w) !! id ∧
        (∀ id', id' ≠ id → dom (env w') !! id' = dom (env w) !! id').
Proof.
  unfold withElement. destruct (dom (env w) !! id) as [el|] eqn:Hel.
  - eexists. split; [done|]. split_and!.
    + by eapply PageFacts.document_only_write.
    + simpl. by rewrite lookup_insert_eq.
    + intros id' Hne. simpl. by rewrite lookup_insert_ne.
  - exists w. split_and!; [done|apply PageFacts.document_only_refl| |done].
    by rewrite Hel.
Qed.

Lemma document_only_changes_only ks objs w w' :
  document_only w w' → changes_only ks objs w w'.
Proof.
  intros Hd.
  by apply PageFacts.projected_changes_only, PageFacts.document_only_projected.
Qed.

Lemma document_only_settles w w' :
  document_only w w' → settles w → settles w'.
Proof.
  intros Hd. by apply PageFacts.projected_settles,
               PageFacts.document_only_projected.
Qed.

Lemma document_only_field w w' k :
  document_only w w' → field w' k = field w k.
Proof.
  intros Hd. by apply PageFacts.projected_field,
               PageFacts.document_only_projected.
Qed.

(** ** Pause and trail switches *)

Lemma togglePause_lands fuel (w : worldT) :
  settles w → length (listeners w) + 2 ≤ fuel →
  ∃ w', togglePause (runListener fuel) fuel w = Ret w' ∧
        field w' "isPaused" = VBool (negb (truthy (field w "isPaused"))) ∧
        changes_only ["isPaused"; "initialEnergy"] [] w w' ∧
        settles w' ∧
        (is_Some (dom (env w) !! "pause-btn") →
         textContent <$> dom (env w') !! "pause-btn"
         = Some (TStr (if truthy (field w "isPaused")
                       then "Pause" else "Resume"))).
Proof.
  intros Hs Hlen. unfold togglePause. cbv zeta.
  change (getField (heap w) (getState w) "isPaused")
    with (field w "isPaused").
  set (o := ({[ "isPaused" := _ ]} : obj)).
  destruct (PageFacts.setState_changes fuel ["isPaused"; "initialEnergy"]
              o "pause_toggle" w) as (w1 & -> & Hc1 & Hs1 & Hf1).
  { listed. }
  { literal_keys. }
  { eapply (PageFacts.changes_only_settles ["isPaused"]); [listed..| |done].
    apply PageFacts.changes_only_assign. literal_keys. }
  { done. }
  cbn [andThen].
  destruct (withElement_returns "pause-btn"
              (setText (TStr (if negb (truthy (field w "isPaused"))
                              then "Resume" else "Pause"))) w1)
    as (w' & -> & Hd & Hel & _).
  exists w'. split_and!; [done| | | |].
  - rewrite (document_only_field _ _ _ Hd).
    apply (Hf1 "isPaused"); [unfold o; by literal_lookup|done].
  - eapply PageFacts.changes_only_trans; [exact Hc1|].
    by apply document_only_changes_only.
  - by eapply document_only_settles.
  - intros Hbtn. rewrite Hel.
    assert (Hbtn1 : is_Some (dom (env w1) !! "pause-btn")) by by apply Hc1.
    destruct Hbtn1 as [el ->]. simpl.
    by destruct (truthy (field w "isPaused")).
Qed.

(** X12: [togglePause()] returns with [isPaused] negated and the
    button, when the page has one, relabelled ("Resume" once paused,
    "Pause" once running); nothing else in the state changes apart from
    [initialEnergy]; and a second call restores the pause flag. *)
Theorem togglePause_flips_and_restores fuel (w : worldT) :
  settles w → length (listeners w) + 2 ≤ fuel →
  ∃ w', togglePause (runListener fuel) fuel w = Ret w' ∧
        field w' "isPaused" = VBool (negb (truthy (field w "isPaused"))) ∧
        changes_only ["isPaused"; "initialEnergy"] [] w w' ∧
        (is_Some (dom (env w) !! "pause-btn") →
         textContent <$> dom (env w') !! "pause-btn"
         = Some (TStr (if truthy (field w "isPaused")
                       then "Pause" else "Resume"))) ∧
        ∃ w'', togglePause (runListener fuel) fuel w' = Ret w'' ∧
               field w'' "isPaused" = VBool (truthy (field w "isPaused")).
Proof.
  intros Hs Hlen.
  destruct (togglePause_lands fuel w Hs Hlen)
    as (w' & Hr & Hp & Hc & Hs' & Hbtn).
  assert (Hl : listeners w' = listeners w) by apply Hc.
  destruct (togglePause_lands fuel w' Hs') as (w'' & Hr' & Hp' & _).
  { by rewrite Hl. }
  exists w'. split_and!; [done..|].
  exists w''. split; [done|]. rewrite Hp', Hp. simpl.
  by rewrite negb_involutive.
Qed.

Lemma togglePause_flips_and_restores_witness :
  ∃ w', togglePause (runListener 3) 3 (stateManager smallPage) = Ret w' ∧
        field w' "isPaused"
        = VBool (negb (truthy (field (stateManager smallPage) "isPaused"))) ∧
        changes_only ["isPaused"; "initialEnergy"] []
          (stateManager smallPage) w' ∧
        (is_Some (dom (env (stateManager smallPage)) !! "pause-btn") →
         textContent <$> dom (env w') !! "pause-btn"
         = Some (TStr (if truthy (field (stateManager smallPage) "isPaused")
                       then "Pause" else "Resume"))) ∧
        ∃ w'', togglePause (runListener 3) 3 w' = Ret w'' ∧
               field w'' "isPaused"
               = VBool (truthy (field (stateManager smallPage) "isPaused")).
Proof.
  apply (togglePause_flips_and_restores 3 (stateManager smallPage)).
  - left. right. vm_compute. reflexivity.
  - vm_compute. lia.
Defined.

(** X13: [toggleTrails()] returns with [showTrails] negated and changes
    nothing else in the state apart from [initialEnergy]; in
    particular the points recorded in the two trail buffers are kept
    while the trails are hidden. *)
Theorem toggleTrails_keeps_the_buffers fuel (w : worldT) :
  settles w → length (listeners w) + 2 ≤ fuel →
  ∃ w', toggleTrails (runListener fuel) fuel w = Ret w' ∧
        field w' "showTrails" = VBool (negb (truthy (field w "showTrails"))) ∧
        changes_only ["showTrails"; "initialEnergy"] [] w w' ∧
        trails_of w' = trails_of w.
Proof.
  intros Hs Hlen. unfold toggleTrails. cbv zeta.
  change (getField (heap w) (getState w) "showTrails")
    with (field w "showTrails").
  set (o := ({[ "showTrails" := _ ]} : obj)).
  destruct (PageFacts.setState_changes fuel ["showTrails"; "initialEnergy"]
              o "trail_toggle" w) as (w1 & -> & Hc1 & Hs1 & Hf1).
  { listed. }
  { literal_keys. }
  { eapply (PageFacts.changes_only_settles ["showTrails"]); [listed..| |done].
    apply PageFacts.changes_only_assign. literal_keys. }
  { done. }
  exists w1. split_and!; [done| |done|].
  - apply (Hf1 "showTrails"); [unfold o; by literal_lookup|done].
  - destruct Hc1 as (_ & _ & _ & _ & _ & Hoff & _).
    unfold offDocument in Hoff. unfold trails_of. congruence.
Qed.

Lemma toggleTrails_keeps_the_buffers_witness :
  ∃ w', toggleTrails (runListener 3) 3 (stateManager smallPage) = Ret w' ∧
        field w' "showTrails"
        = VBool (negb (truthy (field (stateManager smallPage) "showTrails"))) ∧
        changes_only ["showTrails"; "initialEnergy"] []
          (stateManager smallPage) w' ∧
        trails_of w' = trails_of (stateManager smallPage).
Proof.
  apply (toggleTrails_keeps_the_buffers 3 (stateManager smallPage)).
  - left. right. vm_compute. reflexivity.
  - vm_compute. lia.
Defined.

(** ** Presets *)


Lemma readPath_group (w : worldT) g a k :
  field w g = VRef a →
  readPath (heap w) (VRef (cur w)) [g; k] = getField (heap w) a k.
Proof.
  intros Hg. simpl. unfold getPropOpt at 2, getProp.
  change (getField (heap w) (cur w) g) with (field w g). by rewrite Hg.
Qed.

Lemma updateUISliders_returns : ∀ params (w : worldT),
  ∃ w', updateUISliders params w = Ret w' ∧ document_only w w'.
Proof.
  induction params as [|[key v] params IH]; intros w.
  - exists w. split; [done|apply PageFacts.document_only_refl].
  - simpl. unfold updateUISlider.
    destruct (withElement_returns (inputIdOf key) (setValue (VNum v)) w)
      as (w1 & -> & Hd1 & _).
    cbn [andThen].
    destruct (withElement_returns (displayKeyOf key)
                (setText (TFixed v (if decide (key = "g") then 1 else 0))) w1)
      as (w2 & -> & Hd2 & _).
    cbn [andThen].
    assert (H3 : ∃ w3, (if isCondition key
                        then withElement key (Some (setText (TFixed v 2))) w2
                        else Ret w2) = Ret w3 ∧ document_only w2 w3).
    { destruct (isCondition key).
      - destruct (withElement_returns key (setText (TFixed v 2)) w2)
          as (w3 & -> & Hd3 & _). by exists w3.
      - exists w2. split; [done|apply PageFacts.document_only_refl]. }
    destruct H3 as (w3 & -> & Hd3). cbn [andThen].
    destruct (IH w3) as (w' & -> & Hd'). exists w'. split; [done|].
    eauto using PageFacts.document_only_trans.
Qed.








(** ** Capture of the baseline *)

Lemma reading_projected e t w w' :
  projected w w' → reading e t w → reading e t w'.
Proof.
  intros HP (Hle & He & Hkp & Ht). unfold reading.
  rewrite (PageFacts.projected_field _ _ _ HP).
  destruct HP as (-> & -> & _). done.
Qed.

Lemma updateEnergyDisplay_captures fuel' e t (w : worldT) :
  field w "initialEnergy" = VNull → reading e t w →
  length (listeners w) ≤ fuel' →
  ∃ w', updateEnergyDisplay (runListener (S fuel')) (S fuel') w = Ret w' ∧
        field w' "initialEnergy" = VNum t ∧ capture_step w w'.
Proof.
  intros Hie (Hle & He & (k & p & Hk & Hp) & Ht) Hlen.
  unfold updateEnergyDisplay. cbv zeta.
  assert (Hneg : negb (truthy (getField (heap w) (getState w) "latestEnergy"))
                 = false).
  { change (getField (heap w) (getState w) "latestEnergy")
      with (field w "latestEnergy"). by rewrite Hle. }
  rewrite Hneg.
  assert (Hfix : ∀ key x (w1 : worldT), heap w1 = heap w →
            getField (heap w) e key = VNum x →
            toFixed (getProp (heap w1)
                       (getField (heap w1) (getState w) "latestEnergy") key) 2
            = Some (setText (TFixed x 2))).
  { intros key x w1 Hh Hx. rewrite Hh.
    change (getField (heap w) (getState w) "latestEnergy")
      with (field w "latestEnergy").
    rewrite Hle. simpl. by rewrite Hx. }
  rewrite (Hfix "kinetic" k w) by done.
  destruct (withElement_returns "kinetic-energy" (setText (TFixed k 2)) w)
    as (w1 & -> & Hd1 & _). cbn [andThen].
  assert (Hh1 : heap w1 = heap w) by (by destruct Hd1 as (d & -> & _)).
  rewrite (Hfix "potential" p w1) by done.
  destruct (withElement_returns "potential-energy" (setText (TFixed p 2)) w1)
    as (w2 & -> & Hd2 & _). cbn [andThen].
  assert (Hd02 : document_only w w2)
    by eauto using PageFacts.document_only_trans.
  assert (Hh2 : heap w2 = heap w) by (by destruct Hd02 as (d & -> & _)).
  rewrite (Hfix "total" t w2) by done.
  destruct (withElement_returns "total-energy" (setText (TFixed t 2)) w2)
    as (w3 & -> & Hd3 & _). cbn [andThen].
  assert (Hd03 : document_only w w3)
    by eauto using PageFacts.document_only_trans.
  assert (Hh3 : heap w3 = heap w) by (by destruct Hd03 as (d & -> & _)).
  assert (Hl3 : listeners w3 = listeners w)
    by (by destruct Hd03 as (d & -> & _)).
  rewrite Hh3.
  change (getField (heap w) (getState w) "initialEnergy")
    with (field w "initialEnergy").
  change (getField (heap w) (getState w) "latestEnergy")
    with (field w "latestEnergy").
  rewrite Hie, Hle.
  assert (Htot : getPropOpt (heap w) (VRef e) "total" = VNum t) by exact Ht.
  rewrite Htot.
  set (o := ({[ "initialEnergy" := VNum t ]} : obj)).
  unfold setState, notifyListeners.
  destruct (PageFacts.notifyFrom_settled fuel' (cur w3) (cur (assignState o w3))
              "energy_init" (S fuel') 0 (assignState o w3))
    as (w4 & -> & HP).
  { left. by rewrite (AppFacts.assign_lookup o w3 "initialEnergy" (VNum t))
      by apply lookup_singleton_eq. }
  { simpl. rewrite Hl3. lia. }
  cbn [andThen].
  match goal with
  | |- ∃ w', withElement ?id (Some ?f) w4 = Ret w' ∧ _ =>
      destruct (withElement_returns id f w4) as (w5 & -> & Hd5 & _)
  end.
  assert (Hie4 : field w4 "initialEnergy" = VNum t).
  { rewrite (PageFacts.projected_field _ _ _ HP).
    by apply AppFacts.assign_lookup, lookup_singleton_eq. }
  exists w5. split_and!; [done| |].
  - by rewrite (document_only_field _ _ _ Hd5).
  - split.
    + eapply PageFacts.changes_only_trans;
        [by apply document_only_changes_only|].
      eapply PageFacts.changes_only_trans;
        [apply PageFacts.changes_only_energy; listed|].
      eapply PageFacts.changes_only_trans;
        [by apply PageFacts.projected_changes_only|].
      by apply document_only_changes_only.
    + intros _. left. left. rewrite (document_only_field _ _ _ Hd5), Hie4.
      done.
Qed.

Lemma binder_captures fuel' p n s e t (w : worldT) :
  s ≠ "local_update" →
  field w "initialEnergy" = VNull → reading e t w →
  length (listeners w) ≤ fuel' →
  lands (λ w0 w', field w' "initialEnergy" = VNum t ∧ capture_step w0 w') w
    (runListener (S (S fuel')) DisplayBinder p n s w).
Proof.
  intros Hsrc Hie Hrd Hlen.
  change (runListener (S (S fuel')) DisplayBinder p n s w)
    with (displayBinder (runListener (S fuel')) (S fuel') p n s w).
  unfold displayBinder. rewrite decide_True by done.
  unfold updateAllDisplays. cbv zeta.
  assert (Htr : truthy (getField (heap w) (getState w) "latestEnergy") = true).
  { change (getField (heap w) (getState w) "latestEnergy")
      with (field w "latestEnergy"). destruct Hrd as (-> & _). done. }
  rewrite Htr.
  destruct (updateEnergyDisplay_captures fuel' e t w Hie Hrd Hlen)
    as (w1 & -> & Hie1 & Hc1).
  cbn [andThen].
  eapply (PageFacts.lands_from _ document_only w w1).
  - intros w2 Hd2. split.
    + by rewrite (document_only_field _ _ _ Hd2).
    + eapply PageFacts.capture_step_trans; [exact Hc1|].
      by apply PageFacts.projected_capture_step,
               PageFacts.document_only_projected.
  - apply (PageFacts.lands_afterEnergy document_only
             PageFacts.document_only_trans PageFacts.document_only_write).
    apply PageFacts.document_only_refl.
Qed.

(** A round that reaches the display binder captures the baseline. *)
Lemma notifyFrom_captures fuel' p n s e t :
  s ≠ "local_update" →
  ∀ fuel i (w : worldT),
    field w "initialEnergy" = VNull → reading e t w →
    (∃ j, i ≤ j ∧ listeners w !! j = Some (Some DisplayBinder)) →
    length (listeners w) ≤ fuel' → length (listeners w) - i < fuel →
    ∃ w', notifyFrom (runListener (S (S fuel'))) fuel i p n s w = Ret w' ∧
          field w' "initialEnergy" = VNum t ∧ capture_step w w'.
Proof.
  intros Hsrc. induction fuel as [|fuel IH];
    intros i w Hie Hrd (j & Hij & Hj) Hlen Hfuel; [lia|].
  rewrite PageFacts.notifyFrom_S.
  destruct (listeners w !! i) as [[l|]|] eqn:Hi.
  - apply lookup_lt_Some in Hi. destruct l.
    assert (Hrd0 : reading e t (log (Called DisplayBinder p n s) w))
      by (eapply reading_projected; [apply PageFacts.projected_log|done]).
    pose proof (binder_captures fuel' p n s e t
                  (log (Called DisplayBinder p n s) w) Hsrc Hie Hrd0 Hlen)
      as Hrun.
    assert (Hrest : ∀ w1 : worldT,
              field w1 "initialEnergy" = VNum t → capture_step w w1 →
              ∃ w', notifyFrom (runListener (S (S fuel'))) fuel (S i) p n s w1
                    = Ret w' ∧
                    field w' "initialEnergy" = VNum t ∧ capture_step w w').
    { intros w1 Hie1 Hc1.
      assert (Hl1 : listeners w1 = listeners w) by apply Hc1.
      destruct (PageFacts.notifyFrom_settled (S fuel') p n s fuel (S i) w1)
        as (w' & Hr & HP).
      { left. by rewrite Hie1. }
      { rewrite Hl1. lia. }
      exists w'. split_and!; [done| |].
      - by rewrite (PageFacts.projected_field _ _ _ HP).
      - eapply PageFacts.capture_step_trans; [exact Hc1|].
        by apply PageFacts.projected_capture_step. }
    destruct (runListener (S (S fuel')) DisplayBinder p n s
                (log (Called DisplayBinder p n s) w)) as [w1|w1|];
      simpl in Hrun; [| |done]; destruct Hrun as [Hie1 Hc1].
    + apply Hrest; [done|].
      eapply PageFacts.capture_step_trans;
        [apply PageFacts.capture_step_log|done].
    + apply Hrest; [done|].
      eapply PageFacts.capture_step_trans;
        [apply PageFacts.capture_step_log|].
      eapply PageFacts.capture_step_trans;
        [done|apply PageFacts.capture_step_log].
  - assert (Hne : i ≠ j) by (intros ->; congruence).
    apply lookup_lt_Some in Hi. apply IH; [done|done| |done|lia].
    exists j. split; [lia|done].
  - apply lookup_ge_None in Hi. apply lookup_lt_Some in Hj. lia.
Qed.

(** ** Reset *)

Lemma resetPendulum_returns (w : worldT) :
  ∃ w', resetPendulum w = Ret w' ∧
        document_only (on_page (set_trails [] []) w) w'.
Proof.
  unfold resetPendulum. cbv zeta.
  set (w0 := on_page (set_trails [] []) w).
  destruct (withElement_returns "kinetic-energy" (setText (TStr "0.00")) w0)
    as (w1 & -> & Hd1 & _). cbn [andThen].
  destruct (withElement_returns "potential-energy" (setText (TStr "0.00")) w1)
    as (w2 & -> & Hd2 & _). cbn [andThen].
  destruct (withElement_returns "total-energy" (setText (TStr "0.00")) w2)
    as (w3 & -> & Hd3 & _). cbn [andThen].
  match goal with
  | |- ∃ w', withElement ?id (Some ?f) w3 = Ret w' ∧ _ =>
      destruct (withElement_returns id f w3) as (w4 & -> & Hd4 & _)
  end.
  exists w4. split; [done|]. eauto using PageFacts.document_only_trans.
Qed.

(** X15: when the server confirms a reset, the callback of
    [resetToDefaults] returns with both trails empty and with
    [updateTimeouts] a fresh empty object, but it cancels no pending
    timer and sends nothing; and with the display binder subscribed and
    an energy reading in the state, [initialEnergy], set to [null] by
    the callback, is captured again at once from that earlier reading.
    No other field of the state changes. *)
Theorem reset_response_recaptures_the_baseline fuel e t (w : worldT) :
  reading e t w → Some DisplayBinder ∈ listeners w → cur w < next w →
  length (listeners w) + 2 ≤ fuel →
  ∃ w', resetResponse (runListener fuel) fuel true w = Ret w' ∧
        trails_of w' = ([], []) ∧
        timers (env w') = timers (env w) ∧
        requests (env w') = requests (env w) ∧
        field w' "updateTimeouts" = VRef (next w) ∧
        heap w' !! next w = Some ∅ ∧
        field w' "initialEnergy" = VNum t ∧
        (∀ k, k ∉ ["initialEnergy"; "updateTimeouts"] →
              field w' k = field w k) ∧
        (∀ b, b < next w → heap w' !! b = heap w !! b).
Proof.
  intros Hrd Hin Hcur Hlen. unfold resetResponse.
  destruct (updateUISliders_returns defaults w) as (w1 & -> & Hd1).
  cbn [andThen].
  destruct (resetPendulum_returns w1) as (w2 & -> & Hd2). cbn [andThen].
  destruct (withElement_returns "theta-1"
              (setText (TFixed (Fin (157 # 100)) 2)) w2)
    as (w3 & -> & Hd3 & _). cbn [andThen].
  destruct (withElement_returns "theta-2"
              (setText (TFixed (Fin (157 # 100)) 2)) w3)
    as (w4 & -> & Hd4 & _). cbn [andThen].
  destruct (withElement_returns "omega-1" (setText (TFixed (Fin 0) 2)) w4)
    as (w5 & -> & Hd5 & _). cbn [andThen].
  destruct (withElement_returns "omega-2" (setText (TFixed (Fin 0) 2)) w5)
    as (w6 & -> & Hd6 & _). cbn [andThen].
  assert (Hd26 : document_only w2 w6)
    by eauto using PageFacts.document_only_trans.
  assert (Hd16 : document_only (on_page (set_trails [] []) w1) w6)
    by eauto using PageFacts.document_only_trans.
  (* the store part of [w6] is that of [w] *)
  assert (Hstore : heap w6 = heap w ∧ next w6 = next w ∧ cur w6 = cur w
                   ∧ listeners w6 = listeners w).
  { destruct Hd16 as (d6 & -> & _), Hd1 as (d1 & -> & _). done. }
  destruct Hstore as (Hh6 & Hn6 & Hc6 & Hl6).
  assert (Hpage : timers (env w6) = timers (env w)
                  ∧ requests (env w6) = requests (env w)
                  ∧ trails_of w6 = ([], [])).
  { destruct Hd16 as (d6 & -> & _), Hd1 as (d1 & -> & _). done. }
  destruct Hpage as (Ht6 & Hr6 & Htr6).
  unfold alloc. cbv zeta. rewrite Hn6, Hh6.
  set (w7 := with_heap (<[next w := ∅]> (heap w)) (S (next w)) w6).
  set (o := ({[ "initialEnergy" := VNull;
                "updateTimeouts" := VRef (next w) ]} : obj)).
  assert (Hf7 : ∀ k, field w7 k = field w k).
  { intros k. unfold field, getField, objAt, w7. simpl.
    rewrite Hc6, lookup_insert_ne by lia. done. }
  assert (Hrd8 : reading e t (assignState o w7)).
  { destruct Hrd as (Hle & He & (k & p & Hk & Hp) & Ht).
    assert (Hge : ∀ key, getField (heap (assignState o w7)) e key
                         = getField (heap w) e key).
    { intros key. unfold getField, objAt, w7. simpl.
      by rewrite !lookup_insert_ne by lia. }
    unfold reading. rewrite !Hge.
    rewrite (AppFacts.assign_other o w7 "latestEnergy") by done.
    rewrite Hf7. split_and!; [done|simpl; lia|by exists k, p|done]. }
  apply list_elem_of_lookup in Hin as [j Hj].
  unfold setState, notifyListeners.
  destruct fuel as [|[|fuel']]; [lia..|].
  destruct (notifyFrom_captures fuel' (cur w7) (cur (assignState o w7))
              "reset" e t ltac:(done) (S (S fuel')) 0 (assignState o w7))
    as (w' & -> & Hie' & [Hc' _]).
  { apply AppFacts.assign_lookup. unfold o. by literal_lookup. }
  { done. }
  { exists j. split; [lia|]. simpl. by rewrite Hl6. }
  { simpl. rewrite Hl6. lia. }
  { simpl. rewrite Hl6. lia. }
  destruct Hc' as (Hn' & Hh' & _ & Hf' & _ & Hoff' & _).
  unfold offDocument in Hoff'. simpl in Hoff'.
  exists w'. split_and!; [done| | | | | |done| |].
  - unfold trails_of in *. congruence.
  - congruence.
  - congruence.
  - rewrite Hf' by listed.
    apply AppFacts.assign_lookup. unfold o. by literal_lookup.
  - rewrite Hh'; [|simpl; lia|listed]. simpl.
    rewrite lookup_insert_ne by lia. by rewrite lookup_insert_eq.
  - intros k Hk. rewrite Hf'.
    + rewrite AppFacts.assign_other, Hf7; [done|].
      unfold o. apply not_elem_of_cons in Hk as [Hk1 Hk2].
      apply not_elem_of_cons in Hk2 as [Hk2 _].
      rewrite lookup_insert_ne by done. by rewrite lookup_singleton_ne.
    + intros Hx. apply Hk. apply list_elem_of_singleton in Hx as ->. listed.
  - intros b Hb. rewrite Hh'; [|simpl; lia|listed]. simpl.
    by rewrite !lookup_insert_ne by lia.
Qed.

Lemma reset_response_recaptures_the_baseline_witness :
  ∃ w', resetResponse (runListener 3) 3 true pageShowingReading = Ret w' ∧
        trails_of w' = ([], []) ∧
        timers (env w') = timers (env pageShowingReading) ∧
        requests (env w') = requests (env pageShowingReading) ∧
        field w' "updateTimeouts" = VRef (next pageShowingReading) ∧
        heap w' !! next pageShowingReading = Some ∅ ∧
        field w' "initialEnergy" = VNum (Fin 5) ∧
        (∀ k, k ∉ ["initialEnergy"; "updateTimeouts"] →
              field w' k = field pageShowingReading k) ∧
        (∀ b, b < next pageShowingReading →
              heap w' !! b = heap pageShowingReading !! b).
Proof.
  apply (reset_response_recaptures_the_baseline 3 4 (Fin 5)
           pageShowingReading).
  - unfold reading. vm_compute.
    split_and!; [reflexivity|lia| |reflexivity].
    exists (Fin 1), (Fin 2). by split.
  - apply (bool_decide_unpack _). vm_compute. exact I.
  - vm_compute. lia.
  - vm_compute. lia.
Defined.

End ControlFacts.

(** * The command dispatcher and the animation frame *)

Module DispatchFacts.

Import Store App StoreSpec AppSpec PageSpec StoreEdgeSpec Controls.
Import ControlSpec Examples PageExamples.
#[local] Open Scope list_scope.
#[local] Open Scope nat_scope.

Ltac listed := PageFacts.listed.
Ltac literal_keys := PageFacts.literal_keys.
Ltac literal_lookup := PageFacts.literal_lookup.

(** ** One edit of a slider *)

Lemma syncInput_returns id n (w : worldT) :
  ∃ w', syncInput id (Some (VNum n)) w = Ret w' ∧ document_only w w'.
Proof.
  unfold syncInput. destruct (dom (env w) !! id) as [el|] eqn:Hel.
  - destruct (num_eqb _ _).
    + exists w. split; [done|apply PageFacts.document_only_refl].
    + eexists. split; [done|]. by eapply PageFacts.document_only_write.
  - exists w. split; [done|apply PageFacts.document_only_refl].
Qed.

(** The part shared by [updateParameter] and [updateInitialCondition]:
    the write through the path and the debounce. *)
Lemma edit_lands fuel e g name v ag tm state (w0 w : worldT) :
  dotless name = true → g = "parameters" ∨ g = "conditions" →
  document_only w0 w → state = cur w0 →
  editable g ag tm w0 →
  settles w0 → length (listeners w0) + 2 ≤ fuel →
  ∃ w', (updateState (runListener fuel) fuel (g ++ "." ++ name) (VNum v) w
         >>> debounce e state name v) = Ret w' ∧
        scheduled e g name v ag tm w0 w'.
Proof.
  intros Hname Hg Hd -> (Hgf & Hag & Hagc & Htf & Htm & Htmc & Hta & Hcur)
         Hs Hlen.
  unfold scheduled. fold (trails_of w0).
  change (∃ w', (updateState (runListener fuel) fuel (g ++ "." ++ name)
                   (VNum v) w >>> debounce e (cur w0) name v) = Ret w' ∧
    readPath (heap w') (VRef (cur w')) [g; name] = VNum v ∧
    readPath (heap w') (VRef (cur w')) ["updateTimeouts"; name]
    = VNum (ofNat (nextHandle (env w0))) ∧
    timers (env w')
    = timers (if truthy (getField (heap w0) tm name)
              then clearTimeout (getField (heap w0) tm name) (env w0)
              else env w0)
      ++ [Timer (nextHandle (env w0)) e name v (VRef tm)
            (clock (env w0) + 100)] ∧
    nextHandle (env w') = S (nextHandle (env w0)) ∧
    requests (env w') = requests (env w0) ∧
    trails_of w' = trails_of w0 ∧
    (∀ k, k ≠ "initialEnergy" → field w' k = field w0 k) ∧
    (∀ b, b < next w0 → b ≠ ag → b ≠ tm → heap w' !! b = heap w0 !! b)).
  assert (Hw : heap w = heap w0 ∧ next w = next w0 ∧ cur w = cur w0
               ∧ listeners w = listeners w0
               ∧ timers (env w) = timers (env w0)
               ∧ nextHandle (env w) = nextHandle (env w0)
               ∧ requests (env w) = requests (env w0)
               ∧ clock (env w) = clock (env w0)
               ∧ trails_of w = trails_of w0).
  { destruct Hd as (d & -> & _). by split_and!. }
  destruct Hw as (Hh & Hn & Hc & Hl & Hti & Hnh & Hrq & Hcl & Htr).
  assert (Hf : ∀ k, field w k = field w0 k).
  { intros k. by apply ControlFacts.document_only_field. }
  assert (Hsplit : split_dot (g ++ "." ++ name) = [g; name]).
  { rewrite StoreEdgeFacts.split_dot_app
      by (destruct Hg as [->| ->]; reflexivity).
    by rewrite StoreEdgeFacts.split_dot_segment. }
  destruct (ControlFacts.updateState_nested_lands fuel g name v w ag
              (g ++ "." ++ name))
    as (w1 & -> & Hc1 & Hh1 & Hs1).
  { done. } { by rewrite Hf. } { lia. } { congruence. } { lia. }
  { by eapply ControlFacts.document_only_settles. } { by rewrite Hl. }
  cbn [andThen].
  destruct Hc1 as (Hn1 & Hheap1 & Hcur1 & Hf1 & Hl1 & Hoff1 & _ & Hfresh1).
  assert (Hbelow : ∀ b, b < next w0 → b ≠ ag → heap w1 !! b = heap w0 !! b).
  { intros b Hb Hba. rewrite Hheap1, Hh; [done|lia|].
    by intros ->%list_elem_of_singleton. }
  unfold offDocument in Hoff1.
  assert (Hpage : timers (env w1) = timers (env w0)
                  ∧ nextHandle (env w1) = nextHandle (env w0)
                  ∧ requests (env w1) = requests (env w0)
                  ∧ clock (env w1) = clock (env w0)
                  ∧ trails_of w1 = trails_of w0).
  { unfold trails_of in *. split_and!; congruence. }
  destruct Hpage as (Hti1 & Hnh1 & Hrq1 & Hcl1 & Htr1).
  assert (Htm1 : getField (heap w1) (cur w0) "updateTimeouts" = VRef tm).
  { unfold getField, objAt. rewrite Hbelow by done. exact Htf. }
  assert (Hpend : getField (heap w1) tm name = getField (heap w0) tm name).
  { unfold getField, objAt. by rewrite Hbelow. }
  unfold debounce. cbv zeta. rewrite Htm1. cbn [getProp]. rewrite Hpend.
  set (pending := getField (heap w0) tm name).
  set (w2 := if truthy pending then on_page (clearTimeout pending) w1 else w1).
  assert (Hw2 : heap w2 = heap w1 ∧ next w2 = next w1 ∧ cur w2 = cur w1
                ∧ nextHandle (env w2) = nextHandle (env w0)
                ∧ clock (env w2) = clock (env w0)
                ∧ requests (env w2) = requests (env w0)
                ∧ trails_of w2 = trails_of w0
                ∧ timers (env w2)
                  = timers (if truthy pending
                            then clearTimeout pending (env w0) else env w0)).
  { unfold w2. destruct (truthy pending); simpl.
    - unfold trails_of in *. simpl. split_and!; try done. by rewrite Hti1.
    - by split_and!. }
  destruct Hw2 as (Hh2 & Hn2 & Hc2 & Hnh2 & Hcl2 & Hrq2 & Htr2 & Hti2).
  unfold setTimeout. cbv zeta.
  set (handle := nextHandle (env w2)).
  set (w' := assignProp (VRef tm) name (VNum (ofNat handle)) _).
  exists w'. split; [reflexivity|].
  assert (Hh' : heap w'
                = <[tm := <[name := VNum (ofNat handle)]> (objAt (heap w1) tm)]>
                    (heap w1)).
  { unfold w'. simpl. unfold setField. by rewrite Hh2. }
  assert (Hc' : cur w' = cur w1) by (unfold w'; simpl; done).
  assert (Hcur1' : cur w1 ≠ tm ∧ cur w1 ≠ ag).
  { specialize (Hcur1 ltac:(lia)). destruct Hfresh1 as [Heq|Hge]; lia. }
  destruct Hcur1' as [Hc1t Hc1a].
  assert (Hfin : ∀ k, k ≠ "initialEnergy" → field w' k = field w0 k).
  { intros k Hk. rewrite <- Hf, <- Hf1 by (by intros ->%list_elem_of_singleton).
    unfold field, getField, objAt. rewrite Hh', Hc'.
    by rewrite lookup_insert_ne by done. }
  split_and!.
  - rewrite (ControlFacts.readPath_group _ g ag).
    + unfold getField, objAt. rewrite Hh', lookup_insert_ne, Hh1 by done.
      simpl. by rewrite lookup_insert_eq.
    + rewrite Hfin; [done|]. by destruct Hg as [->| ->].
  - rewrite (ControlFacts.readPath_group _ "updateTimeouts" tm).
    + unfold getField, objAt. rewrite Hh', lookup_insert_eq. simpl.
      rewrite lookup_insert_eq. simpl. unfold handle. by rewrite Hnh2.
    + by rewrite Hfin.
  - unfold w', handle. simpl. by rewrite Hti2, Hnh2, Hcl2.
  - unfold w', handle. simpl. by rewrite Hnh2.
  - unfold w'. simpl. done.
  - unfold w', trails_of in *. simpl. done.
  - exact Hfin.
  - intros b Hb Hba Hbt. rewrite Hh'.
    rewrite lookup_insert_ne by done. by apply Hbelow.
Qed.

(** X16: [updateParameter(param, value)] on a dot-free name returns
    with the value stored under [state.parameters] at once, before any
    answer of the server; it cancels the timer recorded for that
    parameter, starts exactly one timer due 100 ms later that carries
    the name and the value, records its handle in the slot, and sends
    nothing yet; no other field than [initialEnergy], no trail point
    and no object other than [parameters] and [updateTimeouts]
    changes. *)
Theorem updateParameter_schedules_one_request
    fuel param v ap tm (w : worldT) :
  dotless param = true → editable "parameters" ap tm w →
  settles w → length (listeners w) + 2 ≤ fuel →
  ∃ w', updateParameter (runListener fuel) fuel param v w = Ret w' ∧
        scheduled UpdateParameter "parameters" param v ap tm w w'.
Proof.
  intros Hname Hed Hs Hlen. unfold updateParameter. cbv zeta.
  match goal with
  | |- ∃ w', withElement ?id (Some ?f) w >>> _ >>> _ >>> _ = Ret w' ∧ _ =>
      destruct (ControlFacts.withElement_returns id f w)
        as (w1 & -> & Hd1 & _)
  end.
  cbn [andThen].
  destruct (syncInput_returns (replaceUnderscore param ++ "-input") v w1)
    as (w2 & -> & Hd2).
  cbn [andThen].
  apply (edit_lands fuel UpdateParameter "parameters" param v ap tm
           (getState w) w w2); auto.
  eauto using PageFacts.document_only_trans.
Qed.

Lemma updateParameter_schedules_one_request_witness :
  ∃ w', updateParameter (runListener 3) 3 "g" (Fin (162 # 100))
          (stateManager smallPage) = Ret w' ∧
        scheduled UpdateParameter "parameters" "g" (Fin (162 # 100)) 2 1
          (stateManager smallPage) w'.
Proof.
  apply (updateParameter_schedules_one_request 3 "g" (Fin (162 # 100)) 2 1
           (stateManager smallPage)).
  - reflexivity.
  - unfold editable. vm_compute. split_and!; (reflexivity || lia).
  - left. right. vm_compute. reflexivity.
  - vm_compute. lia.
Defined.

(** X17: [updateInitialCondition(condition, value)] behaves in the same
    way on [state.conditions]: the value is stored at once, the timer
    recorded for that condition is cancelled, exactly one new timer is
    started and recorded, and nothing is sent yet. *)
Theorem updateInitialCondition_schedules_one_request
    fuel condition v ac tm (w : worldT) :
  dotless condition = true → editable "conditions" ac tm w →
  settles w → length (listeners w) + 2 ≤ fuel →
  ∃ w', updateInitialCondition (runListener fuel) fuel condition v w
        = Ret w' ∧
        scheduled UpdateInitialCondition "conditions" condition v ac tm w w'.
Proof.
  intros Hname Hed Hs Hlen. unfold updateInitialCondition. cbv zeta.
  destruct (ControlFacts.withElement_returns (condition ++ "-display")
              (setText (TFixed v 1)) w) as (w1 & -> & Hd1 & _).
  cbn [andThen].
  destruct (ControlFacts.withElement_returns condition
              (setText (TFixed v 2)) w1) as (w2 & -> & Hd2 & _).
  cbn [andThen].
  destruct (syncInput_returns (condition ++ "-input") v w2)
    as (w3 & -> & Hd3).
  cbn [andThen].
  apply (edit_lands fuel UpdateInitialCondition "conditions" condition v
           ac tm (getState w) w w3); auto.
  eauto using PageFacts.document_only_trans.
Qed.

Lemma updateInitialCondition_schedules_one_request_witness :
  ∃ w', updateInitialCondition (runListener 3) 3 "theta_1" (Fin 1)
          (stateManager smallPage) = Ret w' ∧
        scheduled UpdateInitialCondition "conditions" "theta_1" (Fin 1) 3 1
          (stateManager smallPage) w'.
Proof.
  apply (updateInitialCondition_schedules_one_request 3 "theta_1" (Fin 1) 3 1
           (stateManager smallPage)).
  - reflexivity.
  - unfold editable. vm_compute. split_and!; (reflexivity || lia).
  - left. right. vm_compute. reflexivity.
  - vm_compute. lia.
Defined.

(** ** A timer that fires *)

Lemma settles_store (w w' : worldT) :
  (∀ k, field w' k = field w k) → next w ≤ next w' →
  (∀ b, b < next w → heap w' !! b = heap w !! b) →
  settles w → settles w'.
Proof.
  intros Hf Hn Hh Hs. unfold settles, settled in *. rewrite !Hf.
  destruct Hs as [Hs|Hs]; [by left|right].
  destruct (field w "latestEnergy") as [| | | |a]; try done.
  destruct Hs as [Ha Ht]. split; [lia|].
  unfold getField, objAt in *. by rewrite Hh.
Qed.

(** X18: a debounce timer that fires sends exactly one request, the
    one for the field and the value captured when it was started, and
    leaves the list of live timers without itself.  It then replaces
    [updateTimeouts] by a fresh copy of the map it captured, with its
    own slot cleared; no field other than [updateTimeouts] and
    [initialEnergy], no existing object and no trail point changes. *)
Theorem timer_sends_its_request_once fuel t (w : worldT) :
  settles w → cur w < next w → length (listeners w) + 2 ≤ fuel →
  ∃ w', fireTimer (runListener fuel) fuel t w = Ret w' ∧
        requests (env w')
        = requests (env w)
          ++ [Request (t_endpoint t) (t_field t) (t_value t)] ∧
        timers (env w')
        = filter (λ t', t_handle t' ≠ t_handle t) (timers (env w)) ∧
        field w' "updateTimeouts" = VRef (next w) ∧
        heap w' !! next w
        = Some (clearedSlot (heap w) (t_timeouts t) (t_field t)) ∧
        (∀ k, k ∉ ["updateTimeouts"; "initialEnergy"] →
              field w' k = field w k) ∧
        (∀ b, b < next w → heap w' !! b = heap w !! b) ∧
        trails_of w' = trails_of w.
Proof.
  intros Hs Hcur Hlen. unfold fireTimer, alloc. cbv zeta.
  set (w1 := with_heap _ _ _).
  set (o := ({[ "updateTimeouts" := _ ]} : obj)).
  assert (Hf1 : ∀ k, field w1 k = field w k).
  { intros k. unfold field, getField, objAt, w1. simpl.
    by rewrite lookup_insert_ne by lia. }
  assert (Hh1 : ∀ b, b < next w → heap w1 !! b = heap w !! b).
  { intros b Hb. unfold w1. simpl. by rewrite lookup_insert_ne by lia. }
  assert (Hs1 : settles w1).
  { apply (settles_store w w1); [done| |done|done]. unfold w1. simpl. lia. }
  destruct (PageFacts.setState_changes fuel
              ["updateTimeouts"; "initialEnergy"] o "timeout_cleanup" w1)
    as (w' & Hr & Hc & Hs' & Hfo).
  { listed. }
  { literal_keys. }
  { eapply (PageFacts.changes_only_settles ["updateTimeouts"]);
      [listed..| |done].
    apply PageFacts.changes_only_assign. literal_keys. }
  { done. }
  exists w'. split; [exact Hr|].
  destruct Hc as (Hn & Hh & _ & Hf & _ & Hoff & _).
  unfold offDocument in Hoff. simpl in Hoff.
  split_and!.
  - congruence.
  - congruence.
  - apply (Hfo "updateTimeouts"); [unfold o; by literal_lookup|done].
  - rewrite Hh; [|unfold w1; simpl; lia|listed].
    unfold w1. simpl. by rewrite lookup_insert_eq.
  - intros k Hk. by rewrite Hf, Hf1.
  - intros b Hb. rewrite Hh; [by apply Hh1|unfold w1; simpl; lia|listed].
  - unfold trails_of. congruence.
Qed.

Lemma timer_sends_its_request_once_witness :
  ∃ w', fireTimer (runListener 3) 3
          (Timer 1 UpdateParameter "g" (Fin 3) (VRef 1) 100)
          (stateManager smallPage) = Ret w' ∧
        requests (env w')
        = requests (env (stateManager smallPage))
          ++ [Request UpdateParameter "g" (Fin 3)] ∧
        timers (env w')
        = filter (λ t', t_handle t' ≠ 1)
            (timers (env (stateManager smallPage))) ∧
        field w' "updateTimeouts" = VRef (next (stateManager smallPage)) ∧
        heap w' !! next (stateManager smallPage)
        = Some (clearedSlot (heap (stateManager smallPage)) (VRef 1) "g") ∧
        (∀ k, k ∉ ["updateTimeouts"; "initialEnergy"] →
              field w' k = field (stateManager smallPage) k) ∧
        (∀ b, b < next (stateManager smallPage) →
              heap w' !! b = heap (stateManager smallPage) !! b) ∧
        trails_of w' = trails_of (stateManager smallPage).
Proof.
  apply (timer_sends_its_request_once 3
           (Timer 1 UpdateParameter "g" (Fin 3) (VRef 1) 100)
           (stateManager smallPage)).
  - left. right. vm_compute. reflexivity.
  - vm_compute. lia.
  - vm_compute. lia.
Defined.

(** ** One animation frame *)


(** The frame counter of [animate]. *)
Lemma animate_counter_lands fuel (w : worldT) :
  settles w → length (listeners w) + 2 ≤ fuel →
  let now := ofNat (clock (env w)) in
  let newFrameCount :=
    num_add (toNumber (field w "frameCount")) (ofNat 1) in
  ∃ w1,
    (if secondElapsed w
     then setState (runListener fuel) fuel
            {[ "fps" := VNum newFrameCount;
               "frameCount" := VNum (ofNat 0);
               "lastFpsUpdate" := VNum now ]} "fps_update" w >>>
          withElement "fps" (Some (setText (TOf (VNum newFrameCount))))
     else setState (runListener fuel) fuel
            {[ "frameCount" := VNum newFrameCount ]} "frame_count" w)
    = Ret w1 ∧
    changes_only ["fps"; "frameCount"; "lastFpsUpdate"; "initialEnergy"]
      [] w w1 ∧
    settles w1 ∧
    (if secondElapsed w
     then field w1 "fps" = VNum newFrameCount ∧
          field w1 "frameCount" = VNum (ofNat 0) ∧
          field w1 "lastFpsUpdate" = VNum now
     else field w1 "frameCount" = VNum newFrameCount ∧
          field w1 "fps" = field w "fps" ∧
          field w1 "lastFpsUpdate" = field w "lastFpsUpdate").
Proof.
  intros Hs Hlen now newFrameCount.
  set (ks := ["fps"; "frameCount"; "lastFpsUpdate"; "initialEnergy"]).
  destruct (secondElapsed w).
  - set (o := ({[ "fps" := _; "frameCount" := _; "lastFpsUpdate" := _ ]}
               : obj)).
    destruct (PageFacts.setState_changes fuel ks o "fps_update" w)
      as (w1 & -> & Hc1 & Hs1 & Hf1).
    { listed. }
    { literal_keys. }
    { eapply (PageFacts.changes_only_settles
                ["fps"; "frameCount"; "lastFpsUpdate"]); [listed..| |done].
      apply PageFacts.changes_only_assign. literal_keys. }
    { done. }
    cbn [andThen].
    destruct (ControlFacts.withElement_returns "fps"
                (setText (TOf (VNum newFrameCount))) w1)
      as (w2 & -> & Hd2 & _).
    exists w2. split; [done|]. split; [|split].
    + eapply PageFacts.changes_only_trans; [exact Hc1|].
      by apply ControlFacts.document_only_changes_only.
    + by eapply ControlFacts.document_only_settles.
    + rewrite !(ControlFacts.document_only_field _ _ _ Hd2).
      split_and!; [apply (Hf1 "fps")|apply (Hf1 "frameCount")
                  |apply (Hf1 "lastFpsUpdate")];
        (done || (unfold o; by literal_lookup)).
  - set (o := ({[ "frameCount" := _ ]} : obj)).
    destruct (PageFacts.setState_changes fuel
                ["frameCount"; "initialEnergy"] o "frame_count" w)
      as (w1 & -> & Hc1 & Hs1 & Hf1).
    { listed. }
    { literal_keys. }
    { eapply (PageFacts.changes_only_settles ["frameCount"]);
        [listed..| |done].
      apply PageFacts.changes_only_assign. literal_keys. }
    { done. }
    exists w1. split; [done|]. split; [|split; [done|]].
    + eapply PageFacts.changes_only_mono; [| |exact Hc1]; listed.
    + destruct Hc1 as (_ & _ & _ & Hf & _).
      split_and!; [apply (Hf1 "frameCount")| |];
        first [done | unfold o; by literal_lookup | apply Hf; listed].
Qed.

Lemma animate_eq call fuel (w : worldT) :
  animate call fuel w =
  (if secondElapsed w
   then setState call fuel
          {[ "fps" := VNum (num_add (toNumber (field w "frameCount"))
                              (ofNat 1));
             "frameCount" := VNum (ofNat 0);
             "lastFpsUpdate" := VNum (ofNat (clock (env w))) ]}
          "fps_update" w >>>
        withElement "fps"
          (Some (setText (TOf (VNum (num_add (toNumber (field w "frameCount"))
                                       (ofNat 1))))))
   else setState call fuel
          {[ "frameCount" := VNum (num_add (toNumber (field w "frameCount"))
                                     (ofNat 1)) ]} "frame_count" w) >>>
  λ w1,
    let coords := getField (heap w1) (cur w) "latestCoords" in
    if truthy coords && negb (truthy (getField (heap w1) (cur w) "isPaused"))
    then
      match sample (heap w1) coords 0 with
      | None => Throw w1
      | Some p1 =>
          let w2 := on_page (λ p, set_trails (trail1 p ++ [p1]) (trail2 p) p)
                      w1 in
          match sample (heap w2) coords 1 with
          | None => Throw w2
          | Some p2 =>
              Ret (on_page (λ p,
                     set_trails (shiftIfOver (trail1 p))
                                (shiftIfOver (trail2 p ++ [p2])) p) w2)
          end
      end
    else Ret w1.
Proof. reflexivity. Qed.



(** X20: the frame counter.  Every frame, recording or not, returning
    or throwing, counts itself: once a second has passed since
    [lastFpsUpdate] (taken as 0 while unset) it publishes
    [fps = frameCount + 1], restarts [frameCount] at 0 and stamps
    [lastFpsUpdate] with the clock; otherwise it increments
    [frameCount] and leaves the other two.  No other field of the state
    than these and [initialEnergy] changes, and no timer or request. *)
Theorem animate_counts_frames fuel (w : worldT) :
  settles w → length (listeners w) + 2 ≤ fuel →
  lands (λ w w',
      (if secondElapsed w
       then field w' "fps"
            = VNum (num_add (toNumber (field w "frameCount")) (ofNat 1)) ∧
            field w' "frameCount" = VNum (ofNat 0) ∧
            field w' "lastFpsUpdate" = VNum (ofNat (clock (env w)))
       else field w' "frameCount"
            = VNum (num_add (toNumber (field w "frameCount")) (ofNat 1)) ∧
            field w' "fps" = field w "fps" ∧
            field w' "lastFpsUpdate" = field w "lastFpsUpdate") ∧
      (∀ k, k ∉ ["fps"; "frameCount"; "lastFpsUpdate"; "initialEnergy"] →
            field w' k = field w k) ∧
      timers (env w') = timers (env w) ∧
      requests (env w') = requests (env w))
    w (animate (runListener fuel) fuel w).
Proof.
  intros Hs Hlen. rewrite animate_eq.
  destruct (animate_counter_lands fuel w Hs Hlen)
    as (w1 & -> & Hc1 & _ & Hcount).
  cbn [andThen]. cbv zeta.
  destruct Hc1 as (_ & _ & _ & Hf1 & _ & Hoff1 & _).
  unfold offDocument in Hoff1.
  assert (Hpage : timers (env w1) = timers (env w)
                  ∧ requests (env w1) = requests (env w)) by
    (split; congruence).
  destruct Hpage as [Hti Hrq].
  assert (Hany : ∀ f1 f2 : page → list (value * value),
            let w2 := on_page (λ p, set_trails (f1 p) (f2 p) p) w1 in
            (∀ k, field w2 k = field w1 k)
            ∧ timers (env w2) = timers (env w1)
            ∧ requests (env w2) = requests (env w1)) by done.
  destruct (_ && _); [|simpl; by split_and!].
  destruct (sample (heap w1) _ 0) as [p1|]; [|simpl; by split_and!].
  destruct (sample _ _ 1) as [p2|]; simpl; by split_and!.
Qed.

Lemma animate_counts_frames_witness :
  lands (λ w w',
      (if secondElapsed w
       then field w' "fps"
            = VNum (num_add (toNumber (field w "frameCount")) (ofNat 1)) ∧
            field w' "frameCount" = VNum (ofNat 0) ∧
            field w' "lastFpsUpdate" = VNum (ofNat (clock (env w)))
       else field w' "frameCount"
            = VNum (num_add (toNumber (field w "frameCount")) (ofNat 1)) ∧
            field w' "fps" = field w "fps" ∧
            field w' "lastFpsUpdate" = field w "lastFpsUpdate") ∧
      (∀ k, k ∉ ["fps"; "frameCount"; "lastFpsUpdate"; "initialEnergy"] →
            field w' k = field w k) ∧
      timers (env w') = timers (env w) ∧
      requests (env w') = requests (env w))
    (stateManager smallPage)
    (animate (runListener 3) 3 (stateManager smallPage)).
Proof.
  apply (animate_counts_frames 3 (stateManager smallPage)).
  - left. right. vm_compute. reflexivity.
  - vm_compute. lia.
Defined.

End DispatchFacts.

(** * The document as a projection of the state *)

Module DisplayFacts.

Import Store App StoreSpec AppSpec PageSpec DisplaySpec.
Import Examples PageExamples.
#[local] Open Scope list_scope.
#[local] Open Scope nat_scope.

(** ** Writes *)

Lemma world_eta (w : worldT) : on_page (set_dom (dom (env w))) w = w.
Proof. by destruct w as [h n c ls tr []]. Qed.

Lemma writeAll_nil (w : worldT) : writeAll [] w = w.
Proof. apply world_eta. Qed.

Lemma writeAll_app ws1 ws2 (w : worldT) :
  writeAll ws2 (writeAll ws1 w) = writeAll (ws1 ++ ws2) w.
Proof. unfold writeAll. simpl. by rewrite foldl_app. Qed.

Lemma withElement_write id f (w : worldT) :
  withElement id (Some f) w = Ret (writeAll [(id, f)] w).
Proof.
  unfold withElement, writeAll, applyWrite. simpl.
  destruct (dom (env w) !! id); [done|]. by rewrite world_eta.
Qed.

Lemma syncInput_write id x (w : worldT) :
  syncInput id (Some x) w = Ret (writeAll [(id, syncWrite x)] w).
Proof.
  unfold syncInput, writeAll, applyWrite, syncWrite. simpl.
  destruct (dom (env w) !! id) as [el|] eqn:Hel; [|by rewrite world_eta].
  destruct x as [| | |n|]; try done.
  destruct (num_eqb _ _); [|done].
  by rewrite insert_id, world_eta.
Qed.

Lemma numberAt_toFixed h v k n d :
  numberAt h v k = Some n →
  toFixed (getProp h v k) d = Some (setText (TFixed n d)).
Proof.
  unfold numberAt. destruct (getProp h v k) as [[| | |m|]|]; try done.
  by intros [= ->].
Qed.

Lemma numberOrZero_toFixed v n d :
  numberOrZero v = Some n →
  toFixed (orZero <$> Some v) d = Some (setText (TFixed n d)).
Proof.
  unfold numberOrZero. simpl. destruct (orZero v); try done.
  by intros [= ->].
Qed.

Lemma toFixed_nested ws0 (w : worldT) g k n d :
  numberAt (heap w) (field w g) k = Some n →
  toFixed (nested (writeAll ws0 w) g k) d = Some (setText (TFixed n d)).
Proof. apply numberAt_toFixed. Qed.

(** One write of a chain, folded into the list of writes made. *)
Ltac write_step :=
  first [ rewrite withElement_write | rewrite syncInput_write ];
  cbn [andThen]; rewrite ?writeAll_app.




Lemma angular_part ws0 ws (w : worldT) :
  angularWrites w = Some ws →
  (if truthy (field w "simulationState")
   then updateAngularDisplay (field w "simulationState") (writeAll ws0 w)
   else Ret (writeAll ws0 w))
  = Ret (writeAll (ws0 ++ ws) w).
Proof.
  unfold angularWrites, angular. intros Hws.
  destruct (truthy (field w "simulationState")).
  2:{ injection Hws as <-. by rewrite app_nil_r. }
  unfold updateAngularDisplay.
  assert (Hl : ∀ k, liveOrInitial (writeAll ws0 w)
                      (field w "simulationState") k
                    = liveOrInitial w (field w "simulationState") k) by done.
  rewrite !Hl.
  assert (Hnone : ∀ (f : jsnum → option (list write)),
            (None : option jsnum) ≫= f = None) by done.
  destruct (liveOrInitial w _ "theta_1") as [t1|]; [|done].
  destruct (liveOrInitial w _ "theta_2") as [t2|];
    [|exfalso; simpl in Hws; by destruct (numberOrZero t1)].
  destruct (liveOrInitial w _ "omega_1") as [o1|];
    [|exfalso; simpl in Hws;
      by destruct (numberOrZero t1), (numberOrZero t2)].
  destruct (liveOrInitial w _ "omega_2") as [o2|];
    [|exfalso; simpl in Hws;
      by destruct (numberOrZero t1), (numberOrZero t2), (numberOrZero o1)].
  simpl in Hws.
  destruct (numberOrZero t1) as [n1|] eqn:H1; [|done].
  destruct (numberOrZero t2) as [n2|] eqn:H2; [|done].
  destruct (numberOrZero o1) as [n3|] eqn:H3; [|done].
  destruct (numberOrZero o2) as [n4|] eqn:H4; [|done].
  simpl in Hws. injection Hws as <-.
  unfold showFixed.
  rewrite !(numberOrZero_toFixed t1 n1), !(numberOrZero_toFixed t2 n2),
    !(numberOrZero_toFixed o1 n3), !(numberOrZero_toFixed o2 n4) by done.
  do 8 write_step.
  by rewrite <- !app_assoc.
Qed.

Lemma energy_part call fuel ws (w : worldT) :
  settled w → energyWrites w = Some ws →
  (if truthy (field w "latestEnergy")
   then updateEnergyDisplay call fuel w else Ret w)
  = Ret (writeAll ws w).
Proof.
  unfold energyWrites. cbv zeta. intros Hs Hws.
  destruct (truthy (field w "latestEnergy")) eqn:Hle.
  2:{ injection Hws as <-. by rewrite writeAll_nil. }
  destruct Hs as [Hie|Hs]; [|congruence].
  destruct (numberAt _ _ "kinetic") as [k|] eqn:Hk; [|done].
  destruct (numberAt _ _ "potential") as [p|] eqn:Hp; [|done].
  destruct (numberAt _ _ "total") as [t|] eqn:Ht; [|done].
  simpl in Hws. injection Hws as <-.
  assert (Htot : getPropOpt (heap w) (field w "latestEnergy") "total"
                 = VNum t).
  { unfold numberAt in Ht. unfold getPropOpt.
    destruct (getProp (heap w) (field w "latestEnergy") "total")
      as [[| | |m|]|]; try done. by injection Ht as ->. }
  unfold updateEnergyDisplay. cbv beta zeta.
  change (getField (heap w) (getState w)) with (field w).
  rewrite Hle. cbn [negb].
  rewrite (numberAt_toFixed _ _ "kinetic" k) by done.
  rewrite withElement_write.
  cbn beta iota delta [andThen heap writeAll on_page with_env].
  change (getField (heap w) (getState w)) with (field w).
  rewrite (numberAt_toFixed _ _ "potential" p) by done.
  rewrite withElement_write.
  cbn beta iota delta [andThen heap writeAll on_page with_env].
  change (getField (heap w) (getState w)) with (field w).
  rewrite (numberAt_toFixed _ _ "total" t) by done.
  rewrite withElement_write.
  cbn beta iota delta [andThen heap writeAll on_page with_env].
  change (getField (heap w) (getState w)) with (field w).
  rewrite Htot.
  destruct (field w "initialEnergy") eqn:Hx; try done;
    cbn beta iota delta [andThen toNumber heap writeAll on_page with_env];
    change (getField (heap w) (getState w)) with (field w);
    rewrite ?Htot, ?Hx; cbn [toNumber];
    rewrite withElement_write; reflexivity.
Qed.



(** ** What the page shows after the writes *)

Lemma applyWrite_keys d x id :
  is_Some (applyWrite d x !! id) ↔ is_Some (d !! id).
Proof.
  unfold applyWrite. destruct (d !! x.1) as [el|] eqn:Hel; [|done].
  destruct (decide (x.1 = id)) as [<-|Hne].
  - rewrite lookup_insert_eq, Hel. split; eauto.
  - by rewrite lookup_insert_ne.
Qed.

Lemma foldl_applyWrite_keys ws : ∀ d id,
  is_Some (foldl applyWrite d ws !! id) ↔ is_Some (d !! id).
Proof.
  induction ws as [|x ws IH]; intros d id; [done|]. simpl.
  rewrite IH. apply applyWrite_keys.
Qed.

Lemma writeAll_document_only ws (w : worldT) :
  document_only w (writeAll ws w).
Proof. eexists. split; [done|]. apply foldl_applyWrite_keys. Qed.


Ltac unbind H :=
  repeat (apply bind_Some in H as (? & _ & H)); injection H as <-.

Lemma energyWrites_ids (w : worldT) ws :
  energyWrites w = Some ws →
  ws.*1 = [] ∨
  ws.*1 = ["kinetic-energy"; "potential-energy"; "total-energy";
           "energy-error"].
Proof.
  unfold energyWrites. cbv zeta. intros Hws.
  destruct (truthy _); [unbind Hws; by right|injection Hws as <-; by left].
Qed.

Lemma angularWrites_ids (w : worldT) ws :
  angularWrites w = Some ws →
  ws.*1 = [] ∨
  ws.*1 = ["theta-1"; "theta-2"; "omega-1"; "omega-2"; "theta-1-display";
           "theta-2-display"; "omega-1-display"; "omega-2-display"].
Proof.
  unfold angularWrites. intros Hws.
  destruct (truthy _); [unbind Hws; by right|injection Hws as <-; by left].
Qed.








(** ** A value the binder cannot show *)

Lemma writeAll_other ws (w : worldT) id :
  id ∉ ws.*1 →
  dom (env (writeAll ws w)) !! id = dom (env w) !! id.
Proof.
  unfold writeAll. simpl. generalize (dom (env w)).
  induction ws as [|x ws IH]; intros d Hid; [done|]. simpl.
  apply not_elem_of_cons in Hid as [Hne Hid]. rewrite IH by done.
  unfold applyWrite. destruct (d !! x.1); [|done].
  by rewrite lookup_insert_ne.
Qed.

Lemma withElement_throws id (w : worldT) :
  is_Some (dom (env w) !! id) → withElement id None w = Throw w.
Proof. intros [el Hel]. unfold withElement. by rewrite Hel. Qed.

Lemma toFixed_nested_None ws0 (w : worldT) g k d :
  numberAt (heap w) (field w g) k = None →
  toFixed (nested (writeAll ws0 w) g k) d = None.
Proof.
  unfold numberAt, nested.
  change (getProp (heap (writeAll ws0 w))
            (getField (heap (writeAll ws0 w)) (getState (writeAll ws0 w)) g) k)
    with (getProp (heap w) (field w g) k).
  by destruct (getProp (heap w) (field w g) k) as [[| | |m|]|].
Qed.

Lemma exists_after_writes ws (w : worldT) id :
  is_Some (dom (env w) !! id) → is_Some (dom (env (writeAll ws w)) !! id).
Proof. intros Hid. by apply foldl_applyWrite_keys. Qed.

(** With its five elements on the page, [updateParameterDisplays]
    throws at the first parameter that is not a number. *)
Lemma updateParameterDisplays_throws ws0 (w : worldT) :
  parameterWrites w = None →
  (∀ id, id ∈ parameterReadouts → is_Some (dom (env w) !! id)) →
  ∃ ws1, updateParameterDisplays (writeAll ws0 w)
         = Throw (writeAll (ws0 ++ ws1) w) ∧
         ws1.*1 ⊆ parameterReadouts.
Proof.
  unfold parameterWrites. cbv zeta. intros Hws Hel.
  assert (Hthrow : ∀ ws1 id, id ∈ parameterReadouts →
            withElement id None (writeAll ws1 w) = Throw (writeAll ws1 w)).
  { intros ws1 id Hid. apply withElement_throws, exists_after_writes.
    by apply Hel. }
  unfold updateParameterDisplays.
  destruct (numberAt _ _ "length_rod_1") as [l1|] eqn:H1.
  2:{ rewrite toFixed_nested_None, Hthrow by (done || PageFacts.listed).
      exists []. split; [by rewrite app_nil_r|]. simpl. PageFacts.listed. }
  erewrite toFixed_nested by exact H1. write_step.
  destruct (numberAt _ _ "length_rod_2") as [l2|] eqn:H2.
  2:{ rewrite toFixed_nested_None, Hthrow by (done || PageFacts.listed).
      eexists [_]. split; [done|]. simpl. PageFacts.listed. }
  erewrite toFixed_nested by exact H2. write_step.
  destruct (numberAt _ _ "mass_bob_1") as [m1|] eqn:H3.
  2:{ rewrite toFixed_nested_None, Hthrow by (done || PageFacts.listed).
      rewrite <- app_assoc. eexists [_; _]. split; [done|]. simpl.
      PageFacts.listed. }
  erewrite toFixed_nested by exact H3. write_step.
  destruct (numberAt _ _ "mass_bob_2") as [m2|] eqn:H4.
  2:{ rewrite toFixed_nested_None, Hthrow by (done || PageFacts.listed).
      rewrite <- !app_assoc. eexists [_; _; _]. split; [done|]. simpl.
      PageFacts.listed. }
  erewrite toFixed_nested by exact H4. write_step.
  destruct (numberAt _ _ "g") as [g|] eqn:H5; [done|].
  rewrite toFixed_nested_None, Hthrow by (done || PageFacts.listed).
  rewrite <- !app_assoc. eexists [_; _; _; _]. split; [done|]. simpl.
  PageFacts.listed.
Qed.

Lemma earlier_not_later id :
  id ∈ laterElements → id ∉ earlierElements.
Proof.
  intros Hin.
  assert (Hall : Forall (λ id, id ∉ earlierElements) laterElements).
  { apply (bool_decide_unpack _). vm_compute. exact I. }
  rewrite Forall_forall in Hall. by apply Hall.
Qed.

Lemma energy_ids_earlier :
  ["kinetic-energy"; "potential-energy"; "total-energy"; "energy-error"]
  ⊆ earlierElements.
Proof. apply (bool_decide_unpack _). vm_compute. exact I. Qed.

Lemma angular_ids_earlier :
  ["theta-1"; "theta-2"; "omega-1"; "omega-2"; "theta-1-display";
   "theta-2-display"; "omega-1-display"; "omega-2-display"]
  ⊆ earlierElements.
Proof. apply (bool_decide_unpack _). vm_compute. exact I. Qed.

(** One run of the display binder on a state it cannot show: it throws
    after the energy and angle read-outs and the parameters before the
    bad one, having written to none of the later elements. *)
Lemma runListener_stalls fuel p n s (w : worldT) :
  s ≠ "local_update" → stalls w →
  ∃ ws, runListener (S fuel) DisplayBinder p n s w = Throw (writeAll ws w) ∧
        ws.*1 ⊆ earlierElements.
Proof.
  intros Hsrc (Hs & [e He] & [a Ha] & Hp & Hel).
  simpl. unfold displayBinder. rewrite decide_True by done.
  unfold updateAllDisplays. cbv zeta.
  change (getField (heap w) (getState w)) with (field w).
  rewrite (energy_part _ fuel e w Hs He). cbn [andThen].
  change (heap (writeAll e w)) with (heap w).
  change (getField (heap w) (getState w)) with (field w).
  rewrite (angular_part e a w Ha). cbn [andThen].
  destruct (updateParameterDisplays_throws (e ++ a) w Hp Hel)
    as (ws1 & -> & Hsub).
  cbn [andThen]. eexists. split; [done|].
  rewrite !fmap_app. intros id. rewrite !elem_of_app.
  intros [[Hin|Hin]|Hin].
  - apply energyWrites_ids in He as [Hids|Hids]; rewrite Hids in Hin;
      [by apply elem_of_nil in Hin|].
    by apply energy_ids_earlier.
  - apply angularWrites_ids in Ha as [Hids|Hids]; rewrite Hids in Hin;
      [by apply elem_of_nil in Hin|].
    by apply angular_ids_earlier.
  - unfold earlierElements. apply elem_of_app. right. by apply Hsub.
Qed.

Lemma stalls_projected w w' : projected w w' → stalls w → stalls w'.
Proof.
  intros HP (Hs & He & Ha & Hp & Hel).
  assert (Hs' := PageFacts.projected_settled _ _ HP Hs).
  destruct HP as (Hh & _ & Hc & _ & _ & Hd).
  split; [done|].
  destruct w as [h n c ls tr e], w' as [h' n' c' ls' tr' e'].
  simpl in Hh, Hc. subst h' c'.
  split_and!; [done|done|done|]. intros id Hid. by apply Hd, Hel.
Qed.

(** A notification round on a state the binder cannot show: it
    returns, the store is untouched, the later elements are as they
    were, and each binder that ran left an error on the console. *)
Lemma notifyFrom_stalls fuel' p n s :
  s ≠ "local_update" →
  ∀ fuel i (w : worldT),
    stalls w → length (listeners w) - i < fuel →
    ∃ w', notifyFrom (runListener (S fuel')) fuel i p n s w = Ret w' ∧
          projected w w' ∧
          (∀ id, id ∈ laterElements →
                 dom (env w') !! id = dom (env w) !! id) ∧
          (∀ ev, ev ∈ trace w → ev ∈ trace w') ∧
          ((∃ j, i ≤ j ∧ listeners w !! j = Some (Some DisplayBinder)) →
           ConsoleError DisplayBinder ∈ trace w').
Proof.
  intros Hsrc. induction fuel as [|fuel IH]; intros i w Hst Hlen; [lia|].
  rewrite PageFacts.notifyFrom_S.
  destruct (listeners w !! i) as [[l|]|] eqn:Hi.
  - apply lookup_lt_Some in Hi. destruct l.
    destruct (runListener_stalls fuel' p n s
                (log (Called DisplayBinder p n s) w) Hsrc)
      as (ws & -> & Hids).
    { eapply stalls_projected; [apply PageFacts.projected_log|done]. }
    set (w0 := log (Called DisplayBinder p n s) w).
    set (w1 := log (ConsoleError DisplayBinder) (writeAll ws w0)).
    assert (HP1 : projected w w1).
    { eapply PageFacts.projected_trans; [apply PageFacts.projected_log|].
      eapply PageFacts.projected_trans; [|apply PageFacts.projected_log].
      apply PageFacts.document_only_projected, writeAll_document_only. }
    destruct (IH (S i) w1) as (w' & Hr & HP & Hdom & Htr & _).
    { by eapply stalls_projected. }
    { destruct HP1 as (_ & _ & _ & -> & _). lia. }
    exists w'. split_and!; [done|by eapply PageFacts.projected_trans| | |].
    + intros id Hid. rewrite Hdom by done.
      change (dom (env w1)) with (dom (env (writeAll ws w0))).
      rewrite writeAll_other; [done|].
      intros Hin%Hids. by apply (earlier_not_later id).
    + intros ev Hev. apply Htr.
      change (trace w1) with ((trace w ++ [Called DisplayBinder p n s])
                              ++ [ConsoleError DisplayBinder]).
      rewrite !elem_of_app. by left; left.
    + intros _. apply Htr.
      change (trace w1) with ((trace w ++ [Called DisplayBinder p n s])
                              ++ [ConsoleError DisplayBinder]).
      rewrite elem_of_app. right. by apply list_elem_of_singleton.
  - assert (Hi' := Hi). apply lookup_lt_Some in Hi'.
    destruct (IH (S i) w) as (w' & Hr & HP & Hdom & Htr & Herr);
      [done|lia|].
    exists w'. split_and!; [done|done|done|done|].
    intros (j & Hij & Hj). apply Herr. exists j. split; [|done].
    destruct (decide (i = j)) as [->|]; [congruence|lia].
  - exists w. split_and!; [done|apply PageFacts.projected_refl|done|done|].
    intros (j & Hij & Hj).
    apply lookup_ge_None in Hi. apply lookup_lt_Some in Hj. lia.
Qed.

(** X22: one value the binder cannot show stalls the rest of the
    display.  When [setState] (source other than "local_update") leaves
    a state in which one of the five physical parameters is not a
    number (the energies and angles being well-shaped, the baseline
    captured, the five parameter read-outs on the page), the call still
    returns and the store is exactly as merged, but the binder has
    thrown on its way: the error is on the console, and the nine slider
    inputs and the connection status are as they were before the call,
    whatever the new state says. *)
Theorem bad_parameter_stalls_the_display fuel o s (w : worldT) :
  s ≠ "local_update" → stalls (assignState o w) →
  Some DisplayBinder ∈ listeners w → length (listeners w) < fuel →
  ∃ w', setState (runListener fuel) fuel o s w = Ret w' ∧
        projected (assignState o w) w' ∧
        ConsoleError DisplayBinder ∈ trace w' ∧
        ∀ id, id ∈ laterElements →
              dom (env w') !! id = dom (env w) !! id.
Proof.
  intros Hsrc Hst Hin Hlen.
  destruct fuel as [|fuel']; [lia|].
  apply list_elem_of_lookup in Hin as [j Hj].
  unfold setState, notifyListeners.
  destruct (notifyFrom_stalls fuel' (cur w) (cur (assignState o w)) s Hsrc
              (S fuel') 0 (assignState o w) Hst)
    as (w' & Hr & HP & Hdom & _ & Herr); [simpl; lia|].
  exists w'. split_and!; [done|done| |].
  - apply Herr. exists j. split; [lia|done].
  - intros id Hid. by rewrite Hdom.
Qed.

Lemma bad_parameter_stalls_the_display_witness :
  ∃ w', setState (runListener 2) 2
          {[ "parameters" := VNull; "isConnected" := VBool true ]}
          "server_update" (stateManager readoutPage) = Ret w' ∧
        projected (assignState
                     {[ "parameters" := VNull; "isConnected" := VBool true ]}
                     (stateManager readoutPage)) w' ∧
        ConsoleError DisplayBinder ∈ trace w' ∧
        ∀ id, id ∈ laterElements →
              dom (env w') !! id = dom (env (stateManager readoutPage)) !! id.
Proof.
  apply (bad_parameter_stalls_the_display 2
           {[ "parameters" := VNull; "isConnected" := VBool true ]}
           "server_update" (stateManager readoutPage)).
  - done.
  - split_and!.
    + right. vm_compute. reflexivity.
    + vm_compute. eexists. reflexivity.
    + vm_compute. eexists. reflexivity.
    + vm_compute. reflexivity.
    + apply (proj1 (Forall_forall _ parameterReadouts)).
      apply (bool_decide_unpack _). vm_compute. exact I.
  - apply (bool_decide_unpack _). vm_compute. exact I.
  - vm_compute. lia.
Defined.

End DisplayFacts.
